(** * poster_robber: incremental cache and retention report

    A shallow embedding of [poster_robber/api.py] and
    [poster_robber/__main__.py], followed by the properties of the
    pagination loop, the feather-backed merge ([df_store]), the retention
    report ([command_ccr]) and the monthly stepper.

    Conventions.  Python integers are [Z].  A [datetime.date] is a
    (year, month, day) record with the range checks of the standard
    library; a naive [datetime.datetime] is the number of microseconds
    since 0001-01-01T00:00:00, which is order-isomorphic to the Python
    value.  A pandas frame indexed by [id] is an association list of
    (index label, remaining columns) in row order: both order and
    repeated labels matter to [concat] and [duplicated].  Integer labels
    and cells are given by value; the dtypes of the integer columns are
    kept beside the rows where pandas and pyarrow decide by them, and
    what these libraries do with a dtype is an interface ([Dtypes]) with
    the laws of [int64] columns.  A feather file is absent, holds a
    table, or is empty after a failed write.  A decoded JSON object is a
    [gmap] from strings. *)

From Stdlib Require Import ZArith List Bool Lia QArith.
From stdpp Require Import base option gmap strings.
Import ListNotations.

Local Open Scope Z_scope.

(** ** Exceptions and results *)

Record ApiError := { message : string; code : Z }.

Inductive exn :=
| AssertionError
| OverflowError
| ZeroDivisionError
| HTTPError (status : Z)
| ValidationError
| RaisedApiError (e : ApiError)
| FileNotFoundError
| ArrowInvalid
| ArrowTypeError
| ArrowNotImplementedError
| Exception (msg : string).

(** The outcome of running a piece of code: a value, a raised exception, or
    [Diverges] when the fuel given to a [while] loop ran out. *)
Inductive result (A : Type) :=
| Ok (a : A)
| Raise (e : exn)
| Diverges.
Arguments Ok {A} a.
Arguments Raise {A} e.
Arguments Diverges {A}.

(** ** [datetime.date], [datetime.timedelta] and [calendar] *)

Module Date.

Record date := { year : Z; month : Z; day : Z }.

Definition MINYEAR : Z := 1.
Definition MAXYEAR : Z := 9999.

Definition is_leap (y : Z) : bool :=
  (y mod 4 =? 0) && (negb (y mod 100 =? 0) || (y mod 400 =? 0)).

(** [_DAYS_IN_MONTH], without the leap day. *)
Definition mdays (m : Z) : Z :=
  match m with
  | 1 => 31 | 2 => 28 | 3 => 31 | 4 => 30 | 5 => 31 | 6 => 30
  | 7 => 31 | 8 => 31 | 9 => 30 | 10 => 31 | 11 => 30 | 12 => 31
  | _ => -1
  end.

(** [_DAYS_BEFORE_MONTH]. *)
Definition days_before_month_table (m : Z) : Z :=
  match m with
  | 1 => 0 | 2 => 31 | 3 => 59 | 4 => 90 | 5 => 120 | 6 => 151
  | 7 => 181 | 8 => 212 | 9 => 243 | 10 => 273 | 11 => 304 | 12 => 334
  | _ => -1
  end.

Definition days_in_month (y m : Z) : Z :=
  if (m =? 2) && is_leap y then 29 else mdays m.

Definition days_before_year (y : Z) : Z :=
  let y := y - 1 in y * 365 + y / 4 - y / 100 + y / 400.

Definition days_before_month (y m : Z) : Z :=
  days_before_month_table m + (if (2 <? m) && is_leap y then 1 else 0).

Definition ymd2ord (y m d : Z) : Z :=
  days_before_year y + days_before_month y m + d.

Definition toordinal (d : date) : Z := ymd2ord (year d) (month d) (day d).

Definition DI400Y : Z := 146097.
Definition DI100Y : Z := 36524.
Definition DI4Y : Z := 1461.

(** [_ord2ymd]: the inverse of [ymd2ord] on ordinals of valid dates. *)
Definition ord2ymd (n : Z) : date :=
  let n := n - 1 in
  let n400 := n / DI400Y in let n := n mod DI400Y in
  let y := n400 * 400 + 1 in
  let n100 := n / DI100Y in let n := n mod DI100Y in
  let n4 := n / DI4Y in let n := n mod DI4Y in
  let n1 := n / 365 in let n := n mod 365 in
  let y := y + (n100 * 100 + n4 * 4 + n1) in
  if (n1 =? 4) || (n100 =? 4) then
    {| year := y - 1; month := 12; day := 31 |}
  else
    let leapyear := (n1 =? 3) && (negb (n4 =? 24) || (n100 =? 3)) in
    let m := Z.shiftr (n + 50) 5 in
    let preceding :=
      days_before_month_table m + (if (2 <? m) && leapyear then 1 else 0) in
    if n <? preceding then
      let m := m - 1 in
      let preceding :=
        preceding - (mdays m + (if (m =? 2) && leapyear then 1 else 0)) in
      {| year := y; month := m; day := n - preceding + 1 |}
    else
      {| year := y; month := m; day := n - preceding + 1 |}.

(** The ordinal of 9999-12-31. *)
Definition MAXORDINAL : Z := 3652059.

(** The values a [datetime.date] object can hold. *)
Definition valid (d : date) : bool :=
  (MINYEAR <=? year d) && (year d <=? MAXYEAR)
  && (1 <=? month d) && (month d <=? 12)
  && (1 <=? day d) && (day d <=? days_in_month (year d) (month d)).

(** [date + timedelta(days=n)]: [OverflowError] outside 0001-01-01 ..
    9999-12-31. *)
Definition add_days (d : date) (n : Z) : result date :=
  let o := toordinal d + n in
  if (0 <? o) && (o <=? MAXORDINAL) then Ok (ord2ymd o)
  else Raise OverflowError.

(** [date - timedelta(days=n)]. *)
Definition sub_days (d : date) (n : Z) : result date := add_days d (- n).

(** [d1 - d2], a [timedelta] counted in days. *)
Definition sub (d1 d2 : date) : Z := toordinal d1 - toordinal d2.

(** [d1 < d2]: dates compare as (year, month, day) tuples. *)
Definition ltb (d1 d2 : date) : bool :=
  (year d1 <? year d2)
  || ((year d1 =? year d2)
      && ((month d1 <? month d2)
          || ((month d1 =? month d2) && (day d1 <? day d2)))).

(** [d.replace(day=1)], always a valid date. *)
Definition replace_day1 (d : date) : date :=
  {| year := year d; month := month d; day := 1 |}.

(** [calendar.monthrange(year, month)[1]]. *)
Definition monthrange_ndays (y m : Z) : Z :=
  mdays m + (if (m =? 2) && is_leap y then 1 else 0).

End Date.

Import Date.

(** A naive [datetime.datetime], in microseconds since 0001-01-01T00:00. *)
Definition datetime : Type := Z.

Definition US_PER_DAY : Z := 86400000000.

(** [datetime.combine(d, datetime.min.time())]: midnight of [d]. *)
Definition combine_midnight (d : date) : datetime :=
  (toordinal d - 1) * US_PER_DAY.

(** A period bound is a [dt.date] or a [dt.datetime]. *)
Inductive date_like :=
| D (d : date)
| DT (t : datetime).

Definition to_dtime (d : date_like) : datetime :=
  match d with
  | DT t => t
  | D d => combine_midnight d
  end.

(** ** Wire and domain models of [api.py] *)

Module PageInfo.
Record t := { count : Z; page : Z; per_page : Z }.
End PageInfo.

Module Page.
Record t (DataT : Type) := { data : DataT; page : PageInfo.t }.
Arguments data {DataT} _.
Arguments page {DataT} _.
End Page.

Module Transaction.
Record t := { client_id : Z; id : Z; closed_at : datetime }.
End Transaction.

Module ClientInfo.
Record t := { id : Z; activated_at : datetime }.
End ClientInfo.

(** ** Decoded JSON and pydantic validation

    JSON numbers are integers here: no field read by this program is a
    floating-point number. *)

#[warnings="-register-all"]
Inductive json :=
| JNull
| JBool (b : bool)
| JInt (n : Z)
| JStr (s : string)
| JList (l : list json)
| JDict (d : list (string * json)).

(** [d[k]] on a nested object. *)
Fixpoint dict_get (k : string) (d : list (string * json)) : option json :=
  match d with
  | [] => None
  | (k', v) :: d' => if String.eqb k k' then Some v else dict_get k d'
  end.

(** The coercions pydantic applies to a JSON value for a field annotated
    [int], [str] or [datetime]; they belong to the library, so the
    development is parametric in them. *)
Class Pydantic := {
  as_int : json -> option Z;
  as_str : json -> option string;
  as_datetime : json -> option datetime
}.

Section Validation.
Context `{Pydantic}.

(** [ApiError]: [message: str] and [code: int] under the alias
    ["error"], both required. *)
Definition validate_ApiError (data : gmap string json) : option ApiError :=
  m ← data !! "message" ≫= as_str;
  c ← data !! "error" ≫= as_int;
  Some {| message := m; code := c |}.

Definition validate_PageInfo (j : json) : option PageInfo.t :=
  match j with
  | JDict d =>
      c ← dict_get "count" d ≫= as_int;
      p ← dict_get "page" d ≫= as_int;
      pp ← dict_get "per_page" d ≫= as_int;
      Some {| PageInfo.count := c; PageInfo.page := p;
              PageInfo.per_page := pp |}
  | _ => None
  end.

(** [Transaction]: [id] under the alias ["transaction_id"], [closed_at]
    under ["date_close"]. *)
Definition validate_Transaction (j : json) : option Transaction.t :=
  match j with
  | JDict d =>
      c ← dict_get "client_id" d ≫= as_int;
      i ← dict_get "transaction_id" d ≫= as_int;
      t ← dict_get "date_close" d ≫= as_datetime;
      Some {| Transaction.client_id := c; Transaction.id := i;
              Transaction.closed_at := t |}
  | _ => None
  end.

(** [ClientInfo]: [id] under ["client_id"], [activated_at] under
    ["date_activale"]. *)
Definition validate_ClientInfo (j : json) : option ClientInfo.t :=
  match j with
  | JDict d =>
      i ← dict_get "client_id" d ≫= as_int;
      t ← dict_get "date_activale" d ≫= as_datetime;
      Some {| ClientInfo.id := i; ClientInfo.activated_at := t |}
  | _ => None
  end.

Definition validate_list {A} (v : json -> option A) (j : json)
  : option (list A) :=
  match j with
  | JList l => mapM v l
  | _ => None
  end.

Definition validate_Page (j : json) : option (Page.t (list Transaction.t)) :=
  match j with
  | JDict d =>
      ds ← dict_get "data" d ≫= validate_list validate_Transaction;
      p ← dict_get "page" d ≫= validate_PageInfo;
      Some {| Page.data := ds; Page.page := p |}
  | _ => None
  end.

(** [parse_obj_as(T, data)] for a validator of [T]. *)
Definition parse_obj_as {J A} (v : J -> option A) (data : J) : result A :=
  match v data with
  | Some a => Ok a
  | None => Raise ValidationError
  end.

(** [json_response]. *)
Definition json_response (data : gmap string json) : result json :=
  match data !! "response" with
  | Some r => Ok r
  | None =>
      match data !! "error" with
      | Some _ =>
          match parse_obj_as validate_ApiError data with
          | Ok e => Raise (RaisedApiError e)
          | Raise e => Raise e
          | Diverges => Diverges
          end
      | None => Raise (Exception "unexpected response")
      end
  end.

End Validation.

(** ** Stateful, fallible code

    [M S A] is a computation over a state [S] that returns an [A], raises,
    or runs out of fuel; the state reached so far is kept in every case. *)

Definition M (S A : Type) : Type := S -> result A * S.

Definition ret {S A} (a : A) : M S A := fun s => (Ok a, s).

Definition bind {S A B} (c : M S A) (k : A -> M S B) : M S B :=
  fun s =>
    match c s with
    | (Ok a, s') => k a s'
    | (Raise e, s') => (Raise e, s')
    | (Diverges, s') => (Diverges, s')
    end.

Definition lift {S A} (r : result A) : M S A := fun s => (r, s).

Definition raise {S A} (e : exn) : M S A := lift (Raise e).

(** [assert b]. *)
Definition assert {S} (b : bool) : M S unit :=
  if b then ret tt else raise AssertionError.

Notation "'let*' x ':=' c 'in' k" := (bind c (fun x => k))
  (at level 10, x name, c at level 100, k at level 200).
Notation "'let*' ' p ':=' c 'in' k" :=
  (bind c (fun x => match x with p => k end))
  (at level 10, p pattern, c at level 100, k at level 200).

(** ** The HTTP transport *)

(** A query parameter; [PIso d] stands for [d.isoformat()]. *)
Inductive param :=
| PInt (n : Z)
| PStr (s : string)
| PIso (d : date_like).

Record Response := { status_code : Z; json_body : gmap string json }.

(** [requests.get(url, params=params)] against a remote side whose state is
    a [Net]. *)
Class Requests (Net : Type) :=
  requests_get : string -> list (string * param) -> Net -> Response * Net.

(** [resp.raise_for_status()]. *)
Definition raise_for_status (resp : Response) : result unit :=
  if (400 <=? status_code resp) && (status_code resp <? 600)
  then Raise (HTTPError (status_code resp))
  else Ok tt.

(** ** Pagination: [API.iter_transactions]

    The generator calls [self.get_transactions_page]; the loop is written
    over that method so that any page source can stand in for it.  Its
    behaviour is the trace of pages fetched and records yielded, with how
    it ended. *)

Inductive event :=
| Fetched (page per_page : Z) (resp : Page.t (list Transaction.t))
| Yielded (tx : Transaction.t).

Section Pagination.
Context {Net : Type}.
Variable get_transactions_page :
  date_like -> date_like -> Z -> Z -> M Net (Page.t (list Transaction.t)).

(** The [while per_page == count] loop, from its loop variables. *)
Fixpoint iter_transactions_loop (fuel : nat) (date_from date_to : date_like)
    (from_page per_page count : Z) (net : Net)
  : result unit * list event * Net :=
  if per_page =? count then
    match fuel with
    | O => (Diverges, [], net)
    | S fuel' =>
        match get_transactions_page date_from date_to from_page per_page net with
        | (Ok data, net') =>
            let '(r, tr, net'') :=
              iter_transactions_loop fuel' date_from date_to
                (PageInfo.page (Page.page data) + 1)
                (PageInfo.per_page (Page.page data))
                (PageInfo.count (Page.page data)) net' in
            (r, Fetched from_page per_page data
                  :: map Yielded (Page.data data) ++ tr, net'')
        | (Raise e, net') => (Raise e, [], net')
        | (Diverges, net') => (Diverges, [], net')
        end
    end
  else (Ok tt, [], net).

Definition iter_transactions (fuel : nat) (date_from date_to : date_like)
    (from_page per_page : Z) (net : Net)
  : result unit * list event * Net :=
  let count := per_page in
  iter_transactions_loop fuel date_from date_to from_page per_page count net.

End Pagination.

(** The records a trace yields, and the pages it fetched. *)
Definition yields (tr : list event) : list Transaction.t :=
  flat_map (fun ev => match ev with Yielded tx => [tx] | _ => [] end) tr.

Definition fetches (tr : list event)
  : list (Z * Z * Page.t (list Transaction.t)) :=
  flat_map (fun ev => match ev with
                      | Fetched p pp d => [(p, pp, d)]
                      | _ => []
                      end) tr.

(** Consuming the generator to the end, as a list comprehension does. *)
Definition collect {Net}
    (gen : Net -> result unit * list event * Net) : M Net (list Transaction.t) :=
  fun net =>
    match gen net with
    | (Ok _, tr, net') => (Ok (yields tr), net')
    | (Raise e, _, net') => (Raise e, net')
    | (Diverges, _, net') => (Diverges, net')
    end.

(** ** The [API] class *)

Module API.

Record t := { token : string; base_url : string }.

(** [API(token)], with the default [base_url]. *)
Definition new (token : string) : t :=
  {| token := token; base_url := "https://joinposter.com/api/" |}.

Section Methods.
Context `{Pydantic} {Net : Type} `{Requests Net}.

Definition url_for (self : t) (rpc_method : string) : string :=
  (base_url self ++ rpc_method)%string.

Definition params (self : t) (kwargs : list (string * param))
  : list (string * param) :=
  kwargs ++ [("token"%string, PStr (token self))].

Definition get_json_request (self : t) (rpc_method : string)
  (kwargs : list (string * param)) : M Net json :=
  fun net =>
  let '(resp, net') :=
    requests_get (url_for self rpc_method) (params self kwargs) net in
  match raise_for_status resp with
  | Ok _ => (json_response (json_body resp), net')
  | Raise e => (Raise e, net')
  | Diverges => (Diverges, net')
  end.

Definition get_transactions_page (self : t) (date_from date_to : date_like)
  (page per_page : Z) : M Net (Page.t (list Transaction.t)) :=
  let* data := get_json_request self "transactions.getTransactions"
               [("date_from"%string, PIso date_from);
                ("date_to"%string, PIso date_to);
                ("page"%string, PInt page);
                ("per_page"%string, PInt per_page)] in
  lift (parse_obj_as validate_Page data).

Definition iter_transactions (self : t) (fuel : nat)
  (date_from date_to : date_like) (from_page per_page : Z) (net : Net)
  : result unit * list event * Net :=
  iter_transactions (get_transactions_page self) fuel date_from date_to
  from_page per_page net.

Definition get_clients (self : t) : M Net (list ClientInfo.t) :=
  let* data := get_json_request self "clients.getClients" [] in
  lift (parse_obj_as (validate_list validate_ClientInfo) data).

End Methods.

End API.

(** ** The pandas operations used by [__main__.py] *)

Module pd.

(** A frame indexed by [id]: rows of (index label, other columns). *)
Definition DataFrame (C : Type) : Type := list (Z * C).

Section Frames.
Context {C : Type}.

Definition index (df : DataFrame C) : list Z := map fst df.

(** [len(df)]. *)
Definition len (df : DataFrame C) : Z := Z.of_nat (length df).

(** [pd.concat([df1, df2])]: the rows of [df1], then those of [df2]. *)
Definition concat (dfs : list (DataFrame C)) : DataFrame C :=
  List.concat dfs.

(** [df[mask]] for a boolean mask aligned with the rows. *)
Fixpoint getitem (df : DataFrame C) (mask : list bool) : DataFrame C :=
  match df, mask with
  | r :: df', b :: mask' =>
    if b then r :: getitem df' mask' else getitem df' mask'
  | _, _ => []
  end.

(** [df["name"]] for the column read by [f]. *)
Definition column {V} (f : C -> V) (df : DataFrame C) : list V :=
  map (fun r => f (snd r)) df.

End Frames.

(** [idx.duplicated(keep="last")]: a row is marked when its label occurs
    again further down. *)
Fixpoint duplicated_keep_last (idx : list Z) : list bool :=
  match idx with
  | [] => []
  | k :: idx' => existsb (Z.eqb k) idx' :: duplicated_keep_last idx'
  end.

(** [~mask] and [m1 & m2]. *)
Definition inv (mask : list bool) : list bool := map negb mask.

Fixpoint and_ (m1 m2 : list bool) : list bool :=
  match m1, m2 with
  | b1 :: m1', b2 :: m2' => (b1 && b2) :: and_ m1' m2'
  | _, _ => []
  end.

(** [series >= x] and [series < x] on timestamps. *)
Definition ge (s : list datetime) (x : datetime) : list bool :=
  map (fun v => x <=? v) s.

Definition lt (s : list datetime) (x : datetime) : list bool :=
  map (fun v => v <? x) s.

(** [series.unique()]: first occurrences, in order of appearance. *)
Fixpoint unique_from (seen : list Z) (s : list Z) : list Z :=
  match s with
  | [] => []
  | x :: s' =>
      if existsb (Z.eqb x) seen then unique_from seen s'
      else x :: unique_from (x :: seen) s'
  end.

Definition unique (s : list Z) : list Z := unique_from [] s.

(** [idx.isin(values)]. *)
Definition isin (idx : list Z) (values : list Z) : list bool :=
  map (fun k => existsb (Z.eqb k) values) idx.

End pd.

(** The columns left once [id] has become the index. *)
Module TxCols.
Record t := { client_id : Z; closed_at : datetime }.
End TxCols.

Module ClCols.
Record t := { activated_at : datetime }.
End ClCols.

(** [item.model_dump(by_alias=False)] followed by the choice of [key_field]
    as index in [from_records]: the value of [id] and the other fields. *)
Class BaseModel (A C : Type) := model_dump : A -> Z * C.

#[export] Instance Transaction_model : BaseModel Transaction.t TxCols.t :=
  fun tx => (Transaction.id tx,
             {| TxCols.client_id := Transaction.client_id tx;
                TxCols.closed_at := Transaction.closed_at tx |}).

#[export] Instance ClientInfo_model : BaseModel ClientInfo.t ClCols.t :=
  fun cl => (ClientInfo.id cl,
             {| ClCols.activated_at := ClientInfo.activated_at cl |}).

(** ** The dtypes of integer columns

    The models declare [id] and [client_id] as [int], which pydantic does
    not bound.  pandas holds a column of Python integers as [int64] when
    they all fit, and otherwise as [uint64] or as [object]; [concat] casts
    both sides to a common dtype, and a cast to [float64] rounds; pyarrow
    converts every column when the frame is written and raises when it
    cannot.  The integer columns of a frame are its index (column 0) and
    the integer cells of its rows (columns 1, 2, ...). *)

Module pa.

(** The types an integer column can have in a feather file. *)
Inductive DataType := int64 | uint64 | float64.

(** What a failed conversion raises. *)
Inductive error := overflow | invalid | type_error | not_implemented.

Definition to_exn (e : error) : exn :=
  match e with
  | overflow => OverflowError
  | invalid => ArrowInvalid
  | type_error => ArrowTypeError
  | not_implemented => ArrowNotImplementedError
  end.

End pa.

Module np.

Inductive dtype := int64 | uint64 | float64 | object.

(** The dtype pandas gives a column read from a feather file. *)
Definition of_arrow (t : pa.DataType) : dtype :=
  match t with
  | pa.int64 => int64
  | pa.uint64 => uint64
  | pa.float64 => float64
  end.

Definition fits_int64 (z : Z) : bool := (- 2 ^ 63 <=? z) && (z <? 2 ^ 63).

Definition fits_uint64 (z : Z) : bool := (0 <=? z) && (z <? 2 ^ 64).

(** The float64 nearest to the integer [z], as an integer: 53 significant
    bits, ties to even. *)
Definition float_of_int (z : Z) : Z :=
  let a := Z.abs z in
  if a <? 2 ^ 53 then z
  else
    let e := Z.log2 a - 52 in
    let q := Z.shiftr a e in
    let r := a - Z.shiftl q e in
    let half := Z.shiftl 1 (e - 1) in
    let q' := if (half <? r) || ((r =? half) && Z.odd q) then q + 1 else q in
    Z.sgn z * Z.shiftl q' e.

End np.

(** What the libraries do with a column of integers, column by column.
    The fields are theirs; the laws are the facts about [int64] columns and
    about columns read from a file that the properties below rest on. *)
Class Dtypes := {
  (** the dtype [from_records] infers for a column of Python integers *)
  infer_dtype : list Z -> np.dtype;
  (** the common dtype [concat] casts two columns to *)
  common_dtype : np.dtype -> np.dtype -> np.dtype;
  (** a value after the cast to a dtype *)
  astype : np.dtype -> Z -> Z;
  (** what pyarrow raises when it cannot convert a column, if anything *)
  arrow_error : np.dtype -> list Z -> option pa.error;
  (** the type of the converted column *)
  arrow_type : np.dtype -> list Z -> pa.DataType;
  infer_int64 : forall vs,
    forallb np.fits_int64 vs = true -> infer_dtype vs = np.int64;
  common_int64 : common_dtype np.int64 np.int64 = np.int64;
  astype_int64 : forall z, astype np.int64 z = z;
  arrow_error_numeric : forall t vs, arrow_error (np.of_arrow t) vs = None;
  arrow_type_numeric : forall t vs, arrow_type (np.of_arrow t) vs = t
}.

(** The integer cells of a row besides its label: how many there are,
    their values, and the row with each cell [j] replaced by [f j] of it. *)
Class IntColumns (C : Type) := {
  width : nat;
  cells : C -> list Z;
  map_cells : (nat -> Z -> Z) -> C -> C;
  map_cells_id : forall f c, (forall j z, f j z = z) -> map_cells f c = c
}.

#[export] Instance TxCols_ints : IntColumns TxCols.t :=
  {| width := 1;
     cells := fun c => [TxCols.client_id c];
     map_cells := fun f c =>
       {| TxCols.client_id := f 0%nat (TxCols.client_id c);
          TxCols.closed_at := TxCols.closed_at c |};
     map_cells_id := fun f c Hf =>
       match c with
       | {| TxCols.client_id := x; TxCols.closed_at := t |} =>
           f_equal (fun v => {| TxCols.client_id := v; TxCols.closed_at := t |})
             (Hf 0%nat x)
       end |}.

#[export] Instance ClCols_ints : IntColumns ClCols.t :=
  {| width := 0;
     cells := fun _ => [];
     map_cells := fun _ c => c;
     map_cells_id := fun _ _ _ => eq_refl |}.

(** A frame in memory: the dtypes of its integer columns, index first, and
    its rows, integers by value. *)
Definition Typed (C : Type) : Type := (list np.dtype * pd.DataFrame C)%type.

(** ** The feather file

    The file named [fname] is the state: absent, holding the table last
    written (the types of its integer columns and its rows), which
    [read_feather] gives back as it was, or empty: [to_feather] opens the
    path for writing before it converts the frame, so a conversion that
    raises leaves a file of zero bytes. *)
Inductive feather (C : Type) :=
| Absent
| Holds (schema : list pa.DataType) (df : pd.DataFrame C)
| Truncated.
Arguments Absent {C}.
Arguments Holds {C} schema df.
Arguments Truncated {C}.

(** The result of applying [f] to each dtype and its column number, from
    column [j] on. *)
Fixpoint per_column {X} (f : nat -> np.dtype -> X) (j : nat)
    (dtypes : list np.dtype) : list X :=
  match dtypes with
  | [] => []
  | dt :: dtypes' => f j dt :: per_column f (S j) dtypes'
  end.

(** The first failure among the conversions of the columns. *)
Fixpoint first_error (es : list (option pa.error)) : option pa.error :=
  match es with
  | [] => None
  | Some e :: _ => Some e
  | None :: es' => first_error es'
  end.

Section Files.
Context {C : Type} `{IC : IntColumns C} `{DT : Dtypes}.

(** The values of integer column [j]. *)
Definition int_column (j : nat) (df : pd.DataFrame C) : list Z :=
  match j with
  | O => pd.index df
  | S j' => map (fun r => nth j' (cells (snd r)) 0) df
  end.

(** The dtype of column [j]. *)
Definition dtype_at (dtypes : list np.dtype) (j : nat) : np.dtype :=
  nth j dtypes np.int64.

(** [pathlib.Path(fname).exists()]. *)
Definition path_exists : M (feather C) bool :=
  fun file =>
    (Ok match file with Absent => false | _ => true end, file).

(** [pd.read_feather(fname)]. *)
Definition read_feather : M (feather C) (Typed C) :=
  fun file =>
    match file with
    | Absent => (Raise FileNotFoundError, file)
    | Holds schema df => (Ok (map np.of_arrow schema, df), file)
    | Truncated => (Raise ArrowInvalid, file)
    end.

(** [df.to_feather(fname)]: the path is opened for writing, then the
    columns are converted, the index after the others, and the table is
    written. *)
Definition to_feather (df : Typed C) : M (feather C) unit :=
  fun _ =>
    let '(dtypes, rows) := df in
    let errors :=
      per_column (fun j dt => arrow_error dt (int_column j rows)) 0 dtypes in
    match first_error (tl errors ++ firstn 1 errors) with
    | Some e => (Raise (pa.to_exn e), Truncated)
    | None =>
        (Ok tt,
         Holds (per_column (fun j dt => arrow_type dt (int_column j rows))
                  0 dtypes) rows)
    end.

(** [pd.DataFrame.from_records(data, index=key_field)]. *)
Definition from_records (data : list (Z * C)) : Typed C :=
  (map (fun j => infer_dtype (int_column j data)) (seq 0 (S width)), data).

(** The rows of a frame cast to the given dtypes. *)
Definition astype_frame (dtypes : list np.dtype) (df : pd.DataFrame C)
  : pd.DataFrame C :=
  map (fun r => (astype (dtype_at dtypes 0) (fst r),
                 map_cells (fun j => astype (dtype_at dtypes (S j))) (snd r)))
      df.

(** [pd.concat([a, b])] of two frames with the same columns. *)
Definition concat (a b : Typed C) : Typed C :=
  let dtypes :=
    map (fun j => common_dtype (dtype_at (fst a) j) (dtype_at (fst b) j))
        (seq 0 (S width)) in
  (dtypes, pd.concat [astype_frame dtypes (snd a); astype_frame dtypes (snd b)]).

(** [df[~df.index.duplicated(keep="last")]]. *)
Definition drop_duplicated (df : Typed C) : Typed C :=
  (fst df,
   pd.getitem (snd df)
     (pd.inv (pd.duplicated_keep_last (pd.index (snd df))))).

End Files.

(** ** [df_store] *)

Section Store.
Context {A C : Type} `{BM : BaseModel A C} `{IC : IntColumns C} `{DT : Dtypes}.

Definition df_store (items : list A) : M (feather C) (pd.DataFrame C) :=
  let data := map model_dump items in
  let df : option (Typed C) :=
    match data with
    | [] => None
    | _ :: _ => Some (from_records data)
    end in
  let* present := path_exists in
  let* df :=
    if present : bool then
      let* loaded := read_feather in
      match df with
      | Some df => ret (Some (drop_duplicated (concat df loaded)))
      | None => ret (Some loaded)
      end
    else ret df in
  match df with
  | None => raise (Exception "Dataframe is empty")
  | Some df =>
      let* _ := to_feather df in
      ret (snd df)
  end.

End Store.

(** ** The world of [__main__.py]: remote side, the two feather files and
    standard output *)

Inductive line :=
| Text (s : string)
| PeriodLine (start_period end_period : date)
| CountLine (label : string) (n : Z)
| CRRLine (CRR : Q)
| MonthLine (month year : Z)
| Blank.

Record World (Net : Type) := {
  net : Net;
  transactions_feater : feather TxCols.t;
  clients_feater : feather ClCols.t;
  stdout : list line
}.
Arguments net {Net} _.
Arguments transactions_feater {Net} _.
Arguments clients_feater {Net} _.
Arguments stdout {Net} _.

Section Lifting.
Context {Net : Type}.

Definition on_net {A} (c : M Net A) : M (World Net) A :=
  fun w =>
    let '(r, n) := c (net w) in
    (r, {| net := n; transactions_feater := transactions_feater w;
           clients_feater := clients_feater w; stdout := stdout w |}).

Definition on_transactions {A} (c : M (feather TxCols.t) A)
  : M (World Net) A :=
  fun w =>
    let '(r, f) := c (transactions_feater w) in
    (r, {| net := net w; transactions_feater := f;
           clients_feater := clients_feater w; stdout := stdout w |}).

Definition on_clients {A} (c : M (feather ClCols.t) A)
  : M (World Net) A :=
  fun w =>
    let '(r, f) := c (clients_feater w) in
    (r, {| net := net w; transactions_feater := transactions_feater w;
           clients_feater := f; stdout := stdout w |}).

(** [print(...)]. *)
Definition print (l : line) : M (World Net) unit :=
  fun w =>
    (Ok tt, {| net := net w; transactions_feater := transactions_feater w;
               clients_feater := clients_feater w;
               stdout := stdout w ++ [l] |}).

End Lifting.

(** [a / b] on integers; the quotient is kept exact. *)
Definition truediv (a b : Z) : result Q :=
  if b =? 0 then Raise ZeroDivisionError
  else Ok (inject_Z a / inject_Z b)%Q.

(** The frames selected by [command_ccr], named after its local variables. *)
Definition CS_of (df_cl : pd.DataFrame ClCols.t)
    (previous_preiod_start : datetime) (start_period : date)
  : pd.DataFrame ClCols.t :=
  pd.getitem df_cl
    (pd.and_
       (pd.ge (pd.column ClCols.activated_at df_cl) previous_preiod_start)
       (pd.lt (pd.column ClCols.activated_at df_cl) (to_dtime (D start_period)))).

Definition tx_in_period_of (df_tx : pd.DataFrame TxCols.t)
    (start_period end_period : date) : pd.DataFrame TxCols.t :=
  pd.getitem df_tx
    (pd.and_
       (pd.ge (pd.column TxCols.closed_at df_tx) (to_dtime (D start_period)))
       (pd.lt (pd.column TxCols.closed_at df_tx) (to_dtime (D end_period)))).

Definition clients_with_buy_of (tx_in_period : pd.DataFrame TxCols.t) : list Z :=
  pd.unique (pd.column TxCols.client_id tx_in_period).

Definition cl_left_of (CS : pd.DataFrame ClCols.t) (clients_with_buy : list Z)
  : pd.DataFrame ClCols.t :=
  pd.getitem CS (pd.inv (pd.isin (pd.index CS) clients_with_buy)).

Definition CN_of (df_cl : pd.DataFrame ClCols.t) (start_period end_period : date)
  : pd.DataFrame ClCols.t :=
  pd.getitem df_cl
    (pd.and_
       (pd.ge (pd.column ClCols.activated_at df_cl) (to_dtime (D start_period)))
       (pd.lt (pd.column ClCols.activated_at df_cl) (to_dtime (D end_period)))).

Section Commands.
Context `{Pydantic} `{Dtypes} {Net : Type} `{Requests Net}.

Definition update_transactions (txs : list Transaction.t)
  : M (World Net) (pd.DataFrame TxCols.t) :=
  on_transactions (df_store txs).

(** The generator is consumed by the list comprehension that opens
    [df_store], before the file is looked at. *)
Definition unload_transactions_for_date_range (fuel : nat) (api : API.t)
    (date_from date_to : date_like) : M (World Net) (pd.DataFrame TxCols.t) :=
  let* txs := on_net (collect (API.iter_transactions api fuel
                                 date_from date_to 1 500)) in
  update_transactions txs.

Definition update_clients (cls : list ClientInfo.t)
  : M (World Net) (pd.DataFrame ClCols.t) :=
  on_clients (df_store cls).

Definition unload_clients (api : API.t) : M (World Net) (pd.DataFrame ClCols.t) :=
  let* clients := on_net (API.get_clients api) in
  update_clients clients.

(** The two branches of [if unload_data] in [command_ccr]. *)
Definition ccr_frames (fuel : nat) (api_key : option string)
    (unload_data : bool) (previous_preiod_start : datetime)
    (end_period : date)
  : M (World Net) (pd.DataFrame TxCols.t * pd.DataFrame ClCols.t) :=
  if unload_data then
    match api_key with
    | None => raise AssertionError
    | Some key =>
        let api := API.new key in
        let* _ := print (Text "Retrieve transactions") in
        let* df_tx := unload_transactions_for_date_range fuel api
                        (DT previous_preiod_start) (D end_period) in
        let* _ := print (Text "Retrieve clients") in
        let* df_cl := unload_clients api in
        ret (df_tx, df_cl)
    end
  else
    let* df_tx := update_transactions [] in
    let* df_cl := update_clients [] in
    ret (df_tx, df_cl).

(** Everything [command_ccr] does once both frames are at hand. *)
Definition ccr_report (df_tx : pd.DataFrame TxCols.t)
    (df_cl : pd.DataFrame ClCols.t) (previous_preiod_start : datetime)
    (start_period end_period : date) : M (World Net) unit :=
  let CS := CS_of df_cl previous_preiod_start start_period in
  let tx_in_period := tx_in_period_of df_tx start_period end_period in
  let clients_with_buy := clients_with_buy_of tx_in_period in
  let cl_left := cl_left_of CS clients_with_buy in
  let* _ := print (PeriodLine start_period end_period) in
  let* _ := print (CountLine "Clients at period start:" (pd.len CS)) in
  let* _ := print (CountLine "Clients left:" (pd.len cl_left)) in
  let CN := CN_of df_cl start_period end_period in
  let* _ := print (CountLine "Clients new:" (pd.len CN)) in
  let* _ := print (CountLine "Transactions in period:" (pd.len tx_in_period)) in
  if pd.len CS =? 0 then
    print (Text "No client no period start. May be no data? Skip period")
  else
    let* CRR := lift (truediv (pd.len CS - pd.len cl_left) (pd.len CS)) in
    print (CRRLine CRR).

Definition command_ccr (fuel : nat) (api_key : option string)
    (unload_data : bool) (start_period end_period : date)
  : M (World Net) unit :=
  let* _ := assert (Date.ltb start_period end_period) in
  let* d := lift (Date.sub_days start_period
                    (Date.sub end_period start_period)) in
  let previous_preiod_start := to_dtime (D d) in
  let* '(df_tx, df_cl) := ccr_frames fuel api_key unload_data
                            previous_preiod_start end_period in
  ccr_report df_tx df_cl previous_preiod_start start_period end_period.

End Commands.

(** ** The steppers

    Both call the module-level [command_ccr]; they are written over the
    callee so that the periods they visit can be observed with any body. *)

Section Steppers.
Context {Net : Type}.
Variable command_ccr :
  option string -> bool -> date -> date -> M (World Net) unit.

Fixpoint monthly_loop (fuel : nat) (api_key : option string)
    (unload_data : bool) (start_period end_period : date)
  : M (World Net) unit :=
  if Date.ltb start_period end_period then
    match fuel with
    | O => lift Diverges
    | S fuel' =>
        let* current_end :=
          lift (Date.add_days start_period
                  (Date.monthrange_ndays (year start_period)
                                         (month start_period))) in
        let* _ := print (MonthLine (month start_period) (year start_period)) in
        let* _ := command_ccr api_key unload_data start_period current_end in
        let* _ := print Blank in
        monthly_loop fuel' api_key unload_data current_end end_period
    end
  else ret tt.

Definition command_ccr_step_monthly (fuel : nat) (api_key : option string)
    (unload_data : bool) (start_period end_period : date)
  : M (World Net) unit :=
  let start_period := Date.replace_day1 start_period in
  monthly_loop fuel api_key unload_data start_period end_period.

Fixpoint command_ccr_step_daily (fuel : nat) (api_key : option string)
    (unload_data : bool) (start_period end_period : date) (step : Z)
  : M (World Net) unit :=
  if Date.ltb start_period end_period then
    match fuel with
    | O => lift Diverges
    | S fuel' =>
        let* current_end := lift (Date.add_days start_period step) in
        let* _ := command_ccr api_key unload_data start_period current_end in
        let* _ := print Blank in
        command_ccr_step_daily fuel' api_key unload_data current_end
          end_period step
    end
  else ret tt.

End Steppers.

(** ** Vocabulary of the statements *)

(** The value held by the last row labelled [k]. *)
Fixpoint lookup_last {C} (k : Z) (df : pd.DataFrame C) : option C :=
  match df with
  | [] => None
  | (k', v) :: df' =>
      match lookup_last k df' with
      | Some v' => Some v'
      | None => if k =? k' then Some v else None
      end
  end.

(** [df[~df.index.duplicated(keep="last")]], the selection made by
    [df_store]. *)
Definition keep_last {C} (df : pd.DataFrame C) : pd.DataFrame C :=
  pd.getitem df (pd.inv (pd.duplicated_keep_last (pd.index df))).

(** The events of one fetched page: the fetch, then one yield per record. *)
Definition page_events (f : Z * Z * Page.t (list Transaction.t)) : list event :=
  let '(p, pp, d) := f in Fetched p pp d :: map Yielded (Page.data d).

(** A page whose [count] equals its own echoed [per_page]. *)
Definition full (d : Page.t (list Transaction.t)) : Prop :=
  PageInfo.count (Page.page d) = PageInfo.per_page (Page.page d).

(** The shape of a sequence of fetches that starts by requesting
    [from_page] with [per_page]: every later request asks for the echoed
    page index plus one with the echoed [per_page], and a request follows a
    page only if that page is full. *)
Fixpoint walk (from_page per_page : Z)
    (fs : list (Z * Z * Page.t (list Transaction.t))) : Prop :=
  match fs with
  | [] => True
  | (p, pp, d) :: rest =>
      p = from_page /\ pp = per_page
      /\ (rest <> [] -> full d)
      /\ walk (PageInfo.page (Page.page d) + 1)
               (PageInfo.per_page (Page.page d)) rest
  end.

(** Every fetch of the sequence is what the page source answered, from the
    state the previous answer left; [net_end] is the state after the last
    answer. *)
Fixpoint served {Net}
    (src : date_like -> date_like -> Z -> Z -> M Net (Page.t (list Transaction.t)))
    (date_from date_to : date_like)
    (fs : list (Z * Z * Page.t (list Transaction.t))) (net net_end : Net)
  : Prop :=
  match fs with
  | [] => net_end = net
  | (p, pp, d) :: rest =>
      exists net', src date_from date_to p pp net = (Ok d, net')
                   /\ served src date_from date_to rest net' net_end
  end.

(** The request that follows a sequence of fetches: the caller's page
    index and [per_page] when nothing was fetched yet, otherwise the page
    index echoed by the last page plus one, with the [per_page] it
    echoed. *)
Definition next_request (from_page per_page : Z)
    (fs : list (Z * Z * Page.t (list Transaction.t))) : Z * Z :=
  match last fs with
  | None => (from_page, per_page)
  | Some (_, _, d) =>
      (PageInfo.page (Page.page d) + 1, PageInfo.per_page (Page.page d))
  end.

(** How a run whose fetches did not end on a page that is not full went
    on: it made the next request, unless its fuel was spent, and that
    request failed with the result of the run. *)
Definition cut_short {Net}
    (src : date_like -> date_like -> Z -> Z -> M Net (Page.t (list Transaction.t)))
    (date_from date_to : date_like) (fuel : nat) (from_page per_page : Z)
    (fs : list (Z * Z * Page.t (list Transaction.t))) (net_end : Net)
    (r : result unit) (net' : Net) : Prop :=
  let '(p, pp) := next_request from_page per_page fs in
  (length fs = fuel /\ r = Diverges /\ net' = net_end)
  \/ ((length fs < fuel)%nat
      /\ ((exists e, r = Raise e
                     /\ src date_from date_to p pp net_end = (Raise e, net'))
          \/ (r = Diverges
              /\ src date_from date_to p pp net_end = (Diverges, net')))).

(** The last fetched page is not full. *)
Definition ends_short (fs : list (Z * Z * Page.t (list Transaction.t))) : Prop :=
  exists p pp d, last fs = Some (p, pp, d) /\ ~ full d.

(** A page source given by a function of the requested page and size, on a
    remote side that does not change. *)
Definition fake_source {Net} (f : Z -> Z -> Page.t (list Transaction.t))
  : date_like -> date_like -> Z -> Z -> M Net (Page.t (list Transaction.t)) :=
  fun _ _ p pp => ret (f p pp).

(** The retention sets in the words of the specification: half-open
    windows on the timestamps, and churn as absence from the period's
    transactions. *)
Definition in_window (lo hi t : datetime) : bool := (lo <=? t) && (t <? hi).

Definition spec_CS (clients : pd.DataFrame ClCols.t) (lookbackStart start : datetime)
  : pd.DataFrame ClCols.t :=
  List.filter (fun c => in_window lookbackStart start (ClCols.activated_at (snd c)))
    clients.

Definition spec_tx_in_period (txs : pd.DataFrame TxCols.t) (start end_ : datetime)
  : pd.DataFrame TxCols.t :=
  List.filter (fun t => in_window start end_ (TxCols.closed_at (snd t))) txs.

Definition spec_cl_left (CS : pd.DataFrame ClCols.t)
    (tx_in_period : pd.DataFrame TxCols.t) : pd.DataFrame ClCols.t :=
  List.filter
    (fun c => negb (existsb (fun t => TxCols.client_id (snd t) =? fst c)
                      tx_in_period)) CS.

Definition spec_CN (clients : pd.DataFrame ClCols.t) (start end_ : datetime)
  : pd.DataFrame ClCols.t :=
  List.filter (fun c => in_window start end_ (ClCols.activated_at (snd c)))
    clients.

(** The world [w] with [out] as its standard output. *)
Definition with_stdout {Net} (w : World Net) (out : list line) : World Net :=
  {| net := net w; transactions_feater := transactions_feater w;
     clients_feater := clients_feater w; stdout := out |}.

(** A computation that never raises [ZeroDivisionError]. *)
Definition no_zero_division {S A} (c : M S A) : Prop :=
  forall s, fst (c s) <> Raise ZeroDivisionError.

(** A remote side that is down, used in examples that stay offline. *)
Definition offline : Requests unit :=
  fun _ _ n => ({| status_code := 503; json_body := ∅ |}, n).

(** [_ord2ymd] after its first division: [n400] whole 400-year cycles and
    [n] days into the current one. *)
Definition ord2ymd_tail (n400 n : Z) : date :=
  let y := n400 * 400 + 1 in
  let n100 := n / DI100Y in let n := n mod DI100Y in
  let n4 := n / DI4Y in let n := n mod DI4Y in
  let n1 := n / 365 in let n := n mod 365 in
  let y := y + (n100 * 100 + n4 * 4 + n1) in
  if (n1 =? 4) || (n100 =? 4) then
    {| year := y - 1; month := 12; day := 31 |}
  else
    let leapyear := (n1 =? 3) && (negb (n4 =? 24) || (n100 =? 3)) in
    let m := Z.shiftr (n + 50) 5 in
    let preceding :=
      days_before_month_table m + (if (2 <? m) && leapyear then 1 else 0) in
    if n <? preceding then
      let m := m - 1 in
      let preceding :=
        preceding - (mdays m + (if (m =? 2) && leapyear then 1 else 0)) in
      {| year := y; month := m; day := n - preceding + 1 |}
    else
      {| year := y; month := m; day := n - preceding + 1 |}.

Definition shift_years (d : date) (k : Z) : date :=
  {| year := year d + k; month := month d; day := day d |}.

(** [test] on every integer of [lo, lo + 2^bits), by bisection. *)
Fixpoint check_range (test : Z -> bool) (bits : nat) (lo : Z) : bool :=
  match bits with
  | O => test lo
  | S b => check_range test b lo && check_range test b (lo + 2 ^ Z.of_nat b)
  end.

(** A date that is the first day of a month of a representable year. *)
Definition month_start (d : date) : Prop :=
  1 <= year d <= 9999 /\ 1 <= month d <= 12 /\ day d = 1.

(** The checks run over one 400-year cycle: month [i] (counted from
    January of year 1) starts on a day whose ordinal gives back that day,
    and ordinal [o] is the ordinal of its own date. *)
Definition month_ok (i : Z) : bool :=
  let y := i / 12 + 1 in let m := i mod 12 + 1 in
  let d := ord2ymd (ymd2ord y m 1) in
  (year d =? y) && (month d =? m) && (day d =? 1).

Definition ordinal_ok (o : Z) : bool := toordinal (ord2ymd o) =? o.

(** The first day of the month after that of [d]. *)
Definition next_month (d : date) : date :=
  if month d =? 12 then {| year := year d + 1; month := 1; day := 1 |}
  else {| year := year d; month := month d + 1; day := 1 |}.

(** Months counted from year 0, and the number of month starts from that
    of [start_period] that lie strictly before [end_period]. *)
Definition month_index (d : date) : Z := 12 * year d + (month d - 1).

Definition months_to_visit (start_period end_period : date) : nat :=
  Z.to_nat (month_index end_period + (if 1 <? day end_period then 1 else 0)
            - month_index start_period).

(** The plan of the monthly stepper in the words of the specification:
    whole calendar months [month_start, next_month_start), from the month
    of [start_period] on, for every month start before [end_period]. *)
Fixpoint plan_from (n : nat) (month_start : date) : list (date * date) :=
  match n with
  | O => []
  | S n' =>
      (month_start, next_month month_start)
        :: plan_from n' (next_month month_start)
  end.

Definition monthly_plan (start_period end_period : date) : list (date * date) :=
  plan_from (months_to_visit start_period end_period)
    (Date.replace_day1 start_period).

(** Visiting the periods of a plan in order: the month heading, the call
    of [command_ccr], a blank line; an exception ends the visit. *)
Fixpoint run_periods {Net}
    (command_ccr : option string -> bool -> date -> date -> M (World Net) unit)
    (api_key : option string) (unload_data : bool)
    (periods : list (date * date)) : M (World Net) unit :=
  match periods with
  | [] => ret tt
  | (a, b) :: rest =>
      let* _ := print (MonthLine (month a) (year a)) in
      let* _ := command_ccr api_key unload_data a b in
      let* _ := print Blank in
      run_periods command_ccr api_key unload_data rest
  end.

(** Every label and every integer cell of the rows fits [int64]. *)
Definition int64_rows {C} `{IntColumns C} (data : list (Z * C)) : bool :=
  forallb (fun r => np.fits_int64 (fst r)
                    && forallb np.fits_int64 (cells (snd r))) data.

(** The schema of a file whose integer columns are all [int64]. *)
Definition int64_schema (C : Type) `{IntColumns C} : list pa.DataType :=
  repeat pa.int64 (S width).

(** The file is absent, or it holds a table whose integer columns are all
    [int64]. *)
Definition int64_file {C} `{IntColumns C} (file : feather C) : Prop :=
  match file with
  | Absent => True
  | Holds schema _ => schema = int64_schema C
  | Truncated => False
  end.

(** The integer dtypes of numpy as pandas and pyarrow use them, for the
    examples: [uint64] for non-negative columns that leave [int64],
    [object] beyond 64 bits or with mixed signs; [int64] with [uint64]
    gives [float64]; an [object] column converts only if its values fit
    one 64-bit type. *)
Definition numpy : Dtypes :=
  Build_Dtypes
    (fun vs => if forallb np.fits_int64 vs then np.int64
               else if forallb np.fits_uint64 vs then np.uint64
               else np.object)
    (fun a b => match a, b with
                | np.object, _ | _, np.object => np.object
                | np.float64, _ | _, np.float64 => np.float64
                | np.int64, np.int64 => np.int64
                | np.uint64, np.uint64 => np.uint64
                | _, _ => np.float64
                end)
    (fun dt z => match dt with np.float64 => np.float_of_int z | _ => z end)
    (fun dt vs => match dt with
                  | np.object =>
                      if forallb np.fits_int64 vs || forallb np.fits_uint64 vs
                      then None else Some pa.overflow
                  | _ => None
                  end)
    (fun dt vs => match dt with
                  | np.int64 => pa.int64
                  | np.uint64 => pa.uint64
                  | np.float64 => pa.float64
                  | np.object =>
                      if forallb np.fits_int64 vs then pa.int64 else pa.uint64
                  end)
    (fun vs Hvs =>
       @eq_ind_r bool true
         (fun b : bool =>
            (if b then np.int64
             else if forallb np.fits_uint64 vs then np.uint64
             else np.object) = np.int64)
         eq_refl (forallb np.fits_int64 vs) Hvs)
    eq_refl
    (fun _ => eq_refl)
    (fun t _ => match t with
                | pa.int64 | pa.uint64 | pa.float64 => eq_refl
                end)
    (fun t _ => match t with
                | pa.int64 | pa.uint64 | pa.float64 => eq_refl
                end).

(** Example data: three clients and one transaction around February 2024,
    with both feather files in place. *)
Definition ymd (y m d : Z) : date := {| year := y; month := m; day := d |}.

Definition example_clients : pd.DataFrame ClCols.t :=
  [(1, {| ClCols.activated_at := to_dtime (D (ymd 2024 1 10)) |});
   (2, {| ClCols.activated_at := to_dtime (D (ymd 2024 1 20)) |});
   (3, {| ClCols.activated_at := to_dtime (D (ymd 2024 2 5)) |})].

Definition example_transactions : pd.DataFrame TxCols.t :=
  [(100, {| TxCols.client_id := 1;
            TxCols.closed_at := to_dtime (D (ymd 2024 2 10)) |})].

Definition example_world : World unit :=
  {| net := tt;
     transactions_feater := Holds (int64_schema TxCols.t) example_transactions;
     clients_feater := Holds (int64_schema ClCols.t) example_clients;
     stdout := [] |}.

(** A callee that only prints the period it is given. *)
Definition show_period {Net} (_ : option string) (_ : bool)
    (start_period end_period : date) : M (World Net) unit :=
  print (PeriodLine start_period end_period).

(** A strict reading of the pydantic coercions, used in examples. *)
Definition strict_pydantic : Pydantic :=
  {| as_int := fun j => match j with JInt n => Some n | _ => None end;
     as_str := fun j => match j with JStr s => Some s | _ => None end;
     as_datetime := fun j => match j with JInt n => Some n | _ => None end |}.

(** ** Vocabulary of the further properties *)

(** The date of ordinal [o] has a month between 1 and 12 and a day that
    exists in that month. *)
Definition shape_ok (o : Z) : bool :=
  let d := ord2ymd o in
  (1 <=? month d) && (month d <=? 12)
  && (1 <=? day d) && (day d <=? days_in_month (year d) (month d)).

(** The number of steps of [step] days from [start_period] that begin
    strictly before [end_period]. *)
Definition days_to_visit (start_period end_period : date) (step : Z) : nat :=
  Z.to_nat ((toordinal end_period - toordinal start_period + step - 1) / step).

(** The plan of the daily stepper: [n] successive periods of [step] days
    from [cursor] on. *)
Fixpoint daily_plan_from (n : nat) (cursor : date) (step : Z)
  : list (date * date) :=
  match n with
  | O => []
  | S n' =>
      let next := ord2ymd (toordinal cursor + step) in
      (cursor, next) :: daily_plan_from n' next step
  end.

Definition daily_plan (start_period end_period : date) (step : Z)
  : list (date * date) :=
  daily_plan_from (days_to_visit start_period end_period step)
    start_period step.

(** Visiting the periods of a daily plan: the call of [command_ccr], then
    a blank line. *)
Fixpoint run_days {Net}
    (command_ccr : option string -> bool -> date -> date -> M (World Net) unit)
    (api_key : option string) (unload_data : bool)
    (periods : list (date * date)) : M (World Net) unit :=
  match periods with
  | [] => ret tt
  | (a, b) :: rest =>
      let* _ := command_ccr api_key unload_data a b in
      let* _ := print Blank in
      run_days command_ccr api_key unload_data rest
  end.

(** * Properties *)

(** ** The definitions on small inputs *)

Example toordinal_2024_01_15 : toordinal (ymd 2024 1 15) = 738900.
Proof. reflexivity. Qed.

Example ord2ymd_738900 : ord2ymd 738900 = ymd 2024 1 15.
Proof. reflexivity. Qed.

Example lookback_of_february_2024 :
  Date.sub_days (ymd 2024 2 1) (Date.sub (ymd 2024 3 1) (ymd 2024 2 1))
  = Ok (ymd 2024 1 3).
Proof. reflexivity. Qed.

Example add_days_past_the_last_date :
  Date.add_days (ymd 9999 12 1) (Date.monthrange_ndays 9999 12)
  = Raise OverflowError.
Proof. reflexivity. Qed.

Example keep_last_example :
  keep_last [(1, "a"%string); (2, "b"%string); (1, "c"%string)]
  = [(2, "b"%string); (1, "c"%string)].
Proof. reflexivity. Qed.

Example unique_example : pd.unique [3; 1; 3; 2; 1] = [3; 1; 2].
Proof. reflexivity. Qed.

Example float_of_int_rounds :
  np.float_of_int (2 ^ 53 + 1) = 2 ^ 53
  /\ np.float_of_int (2 ^ 53 + 3) = 2 ^ 53 + 4
  /\ np.float_of_int (2 ^ 63 + 1) = 2 ^ 63
  /\ np.float_of_int (- (2 ^ 53) - 1) = - (2 ^ 53)
  /\ np.float_of_int 7 = 7.
Proof. vm_compute. repeat split. Qed.

(** An id beyond 64 bits makes the index an [object] column: the write
    fails once the file has been opened, and the next call cannot read the
    empty file. *)
Example df_store_id_beyond_64_bits :
  df_store (DT := numpy)
    [{| ClientInfo.id := 2 ^ 64; ClientInfo.activated_at := 7 |}]
    (Holds (int64_schema ClCols.t) [(1, {| ClCols.activated_at := 5 |})])
  = (Raise OverflowError, Truncated)
  /\ df_store (DT := numpy)
       [{| ClientInfo.id := 2; ClientInfo.activated_at := 7 |}]
       (@Truncated ClCols.t)
     = (Raise ArrowInvalid, Truncated).
Proof. vm_compute. split; reflexivity. Qed.

(** An id of 2^63 + 1 is held as [uint64]; merged into an [int64] index
    both become [float64], and the id comes back as 2^63. *)
Example df_store_uint64_into_int64 :
  df_store (DT := numpy)
    [{| ClientInfo.id := 2 ^ 63 + 1; ClientInfo.activated_at := 7 |}]
    (Holds (int64_schema ClCols.t) [(1, {| ClCols.activated_at := 5 |})])
  = (Ok [(2 ^ 63, {| ClCols.activated_at := 7 |});
         (1, {| ClCols.activated_at := 5 |})],
     Holds [pa.float64]
       [(2 ^ 63, {| ClCols.activated_at := 7 |});
        (1, {| ClCols.activated_at := 5 |})]).
Proof. vm_compute. reflexivity. Qed.

Example json_response_both_keys :
  @json_response strict_pydantic
    {[ "response"%string := JInt 1; "error"%string := JInt 5 ]}
  = Ok (JInt 1).
Proof. reflexivity. Qed.

Example daily_steps_of_seven :
  command_ccr_step_daily show_period 5 None false
    (ymd 2024 1 1) (ymd 2024 1 20) 7 example_world
  = (Ok tt,
     with_stdout example_world
       [PeriodLine (ymd 2024 1 1) (ymd 2024 1 8); Blank;
        PeriodLine (ymd 2024 1 8) (ymd 2024 1 15); Blank;
        PeriodLine (ymd 2024 1 15) (ymd 2024 1 22); Blank]).
Proof. reflexivity. Qed.

(** ** The response envelope *)

Section Envelope.
Context `{Pydantic}.

Lemma json_response_cases (data : gmap string json) :
  json_response data =
    match data !! "response" with
    | Some r => Ok r
    | None =>
        match data !! "error" with
        | Some _ =>
            match validate_ApiError data with
            | Some e => Raise (RaisedApiError e)
            | None => Raise ValidationError
            end
        | None => Raise (Exception "unexpected response")
        end
    end.
Proof.
  unfold json_response, parse_obj_as.
  destruct (data !! "response"); [reflexivity|].
  destruct (data !! "error"); [|reflexivity].
  destruct (validate_ApiError data); reflexivity.
Qed.

Lemma validate_ApiError_fields (data : gmap string json) (e : ApiError) :
  validate_ApiError data = Some e <->
  (exists jm je, data !! "message" = Some jm /\ as_str jm = Some (message e)
                 /\ data !! "error" = Some je /\ as_int je = Some (code e)).
Proof.
  unfold validate_ApiError. split.
  - intros Hv.
    destruct (data !! "message") as [jm|] eqn:Em; simpl in Hv; [|discriminate].
    destruct (as_str jm) as [m|] eqn:Es; simpl in Hv; [|discriminate].
    destruct (data !! "error") as [je|] eqn:Ee; simpl in Hv; [|discriminate].
    destruct (as_int je) as [c|] eqn:Ei; simpl in Hv; [|discriminate].
    injection Hv as <-. exists jm, je. simpl. auto.
  - intros (jm & je & -> & Hs & -> & Hi). simpl. rewrite Hs. simpl.
    rewrite Hi. simpl. destruct e; reflexivity.
Qed.

End Envelope.

(** C10 (as amended).  When ["response"] is present its payload is returned,
    whether or not ["error"] is present too.  When ["response"] is absent
    and ["error"] is present, the body is validated as an [ApiError]: the
    typed error carrying message and code is raised exactly when both
    fields validate, and a validation error is raised otherwise.  The
    generic malformed-response error is raised exactly when neither key is
    present. *)
Theorem json_response_envelope `{Pydantic} (data : gmap string json) :
  (forall r, json_response data = Ok r <-> data !! "response" = Some r)
  /\ (forall e, json_response data = Raise (RaisedApiError e) <->
                data !! "response" = None /\ is_Some (data !! "error")
                /\ validate_ApiError data = Some e)
  /\ (json_response data = Raise ValidationError <->
      data !! "response" = None /\ is_Some (data !! "error")
      /\ validate_ApiError data = None)
  /\ (json_response data = Raise (Exception "unexpected response") <->
      data !! "response" = None /\ data !! "error" = None)
  /\ json_response data <> Diverges.
Proof.
  rewrite json_response_cases.
  destruct (data !! "response") as [r|] eqn:Er.
  - repeat split; try congruence; try (intros (? & _); congruence).
    all: intros; try congruence.
    all: try (destruct H0 as (? & _); congruence).
  - destruct (data !! "error") as [je|] eqn:Ee.
    + destruct (validate_ApiError data) as [e|] eqn:Ev.
      * repeat split; intros; try congruence; eauto.
        -- destruct H0 as (_ & _ & ?); congruence.
        -- destruct H0 as (_ & _ & ?); congruence.
        -- destruct H0 as (_ & ?); congruence.
      * repeat split; intros; try congruence; eauto.
        -- destruct H0 as (_ & _ & ?); congruence.
        -- destruct H0 as (_ & ?); congruence.
    + repeat split; intros; try congruence.
      * destruct H0 as (_ & [? ?] & _); congruence.
      * destruct H0 as (_ & [? ?] & _); congruence.
Qed.

(** C10, the claim as stated fails: a body with ["error"] and without
    ["response"] that lacks ["message"] raises a validation error, not an
    [ApiError], whatever the coercions are. *)
Lemma json_response_error_without_message :
  let data : gmap string json := {[ "error"%string := JInt 5 ]} in
  is_Some (data !! "error") /\ data !! "response" = None
  /\ (forall (P : Pydantic), json_response data = Raise ValidationError)
  /\ (forall (P : Pydantic) e, json_response data <> Raise (RaisedApiError e)).
Proof.
  simpl. split; [eexists; reflexivity|]. split; [reflexivity|].
  assert (Hv : forall P : Pydantic,
             json_response ({[ "error"%string := JInt 5 ]} : gmap string json)
             = Raise ValidationError).
  { intros P. rewrite json_response_cases. reflexivity. }
  split; [exact Hv|]. intros P e. rewrite Hv. discriminate.
Qed.

(** ** Frames: masks, selection and duplicates *)

Section FrameFacts.
Context {C : Type}.
Implicit Types (df : pd.DataFrame C) (k : Z).

Lemma getitem_map df (f : Z * C -> bool) :
  pd.getitem df (map f df) = List.filter f df.
Proof.
  induction df as [|r df IH]; simpl; [reflexivity|].
  rewrite IH. reflexivity.
Qed.

Lemma and_map {X} (l : list X) (f g : X -> bool) :
  pd.and_ (map f l) (map g l) = map (fun x => f x && g x) l.
Proof. induction l as [|x l IH]; simpl; congruence. Qed.

Lemma existsb_eqb_In k (l : list Z) :
  existsb (Z.eqb k) l = true <-> In k l.
Proof.
  rewrite existsb_exists. split.
  - intros (x & Hx & He). apply Z.eqb_eq in He. subst. exact Hx.
  - intros Hk. exists k. split; [exact Hk|apply Z.eqb_refl].
Qed.

Lemma existsb_eqb_not_In k (l : list Z) :
  existsb (Z.eqb k) l = false <-> ~ In k l.
Proof.
  rewrite <- existsb_eqb_In. destruct (existsb (Z.eqb k) l); split;
    congruence.
Qed.

Lemma keep_last_cons k (v : C) df :
  keep_last ((k, v) :: df) =
    if existsb (Z.eqb k) (pd.index df) then keep_last df
    else (k, v) :: keep_last df.
Proof.
  unfold keep_last. simpl.
  destruct (existsb (Z.eqb k) (pd.index df)); reflexivity.
Qed.

Lemma lookup_last_None k df :
  lookup_last k df = None <-> ~ In k (pd.index df).
Proof.
  induction df as [|[k' v'] df IH]; simpl.
  - tauto.
  - destruct (lookup_last k df) as [v''|].
    + split; [discriminate|]. intros Hn. exfalso. apply Hn. right.
      destruct (in_dec Z.eq_dec k (pd.index df)) as [Hin|Hin]; [exact Hin|].
      apply IH in Hin. discriminate.
    + destruct (Z.eqb_spec k k') as [->|Hne].
      * split; [discriminate|]. intros Hn. exfalso. apply Hn. now left.
      * split; [|reflexivity]. intros _ [Heq|Hin]; [congruence|].
        now apply IH in Hin.
Qed.

End FrameFacts.

Section KeepLast.
Context {C : Type}.
Implicit Types (df : pd.DataFrame C) (k : Z).

Lemma keep_last_index_incl k df :
  In k (pd.index (keep_last df)) -> In k (pd.index df).
Proof.
  induction df as [|[k' v'] df IH]; [intros []|].
  rewrite keep_last_cons.
  destruct (existsb (Z.eqb k') (pd.index df)); simpl.
  - intros Hin. right. now apply IH.
  - intros [->|Hin]; [now left|right; now apply IH].
Qed.

(** A row survives exactly when it is the last one with its label. *)
Lemma In_keep_last k (v : C) df :
  In (k, v) (keep_last df) <-> lookup_last k df = Some v.
Proof.
  induction df as [|[k' v'] df IH]; simpl.
  - split; [intros []|discriminate].
  - rewrite keep_last_cons.
    destruct (existsb (Z.eqb k') (pd.index df)) eqn:Ek.
    + apply existsb_eqb_In in Ek. rewrite IH.
      destruct (lookup_last k df) as [v''|] eqn:El; [reflexivity|].
      apply lookup_last_None in El.
      destruct (Z.eqb_spec k k') as [->|Hne]; [contradiction|reflexivity].
    + apply existsb_eqb_not_In in Ek. simpl. rewrite IH.
      destruct (lookup_last k df) as [v''|] eqn:El.
      * split; [|auto]. intros [Heq|Hv]; [|exact Hv].
        injection Heq as -> ->. exfalso.
        assert (Hn : lookup_last k df <> None) by congruence.
        rewrite lookup_last_None in Hn. tauto.
      * destruct (Z.eqb_spec k k') as [->|Hne].
        -- split; [intros [Heq|Hv]; congruence|].
           intros Hs. left. congruence.
        -- split; [intros [Heq|Hv]; congruence|discriminate].
Qed.

Lemma NoDup_keep_last df : List.NoDup (pd.index (keep_last df)).
Proof.
  induction df as [|[k v] df IH]; [constructor|].
  rewrite keep_last_cons.
  destruct (existsb (Z.eqb k) (pd.index df)) eqn:Ek; [exact IH|].
  apply existsb_eqb_not_In in Ek. simpl. constructor; [|exact IH].
  intros Hin. apply Ek. exact (keep_last_index_incl k df Hin).
Qed.

Lemma keep_last_NoDup df : List.NoDup (pd.index df) -> keep_last df = df.
Proof.
  induction df as [|[k v] df IH]; [reflexivity|].
  simpl. intros Hnd. inversion Hnd as [|? ? Hk Hnd']; subst.
  rewrite keep_last_cons. apply existsb_eqb_not_In in Hk. rewrite Hk.
  f_equal. now apply IH.
Qed.

(** Rows whose labels all occur further down are dropped together. *)
Lemma keep_last_app_absorb (a b : pd.DataFrame C) :
  (forall k, In k (pd.index a) -> In k (pd.index b)) ->
  keep_last (a ++ b) = keep_last b.
Proof.
  induction a as [|[k v] a IH]; [reflexivity|].
  intros Hsub. simpl. rewrite keep_last_cons.
  assert (Hk : existsb (Z.eqb k) (pd.index (a ++ b)) = true).
  { apply existsb_eqb_In. unfold pd.index. rewrite map_app.
    apply in_or_app. right. apply Hsub. now left. }
  rewrite Hk. apply IH. intros k' Hk'. apply Hsub. now right.
Qed.

Lemma lookup_last_app k (a b : pd.DataFrame C) :
  lookup_last k (a ++ b) =
    match lookup_last k b with
    | Some v => Some v
    | None => lookup_last k a
    end.
Proof.
  induction a as [|[k' v'] a IH]; simpl.
  - destruct (lookup_last k b); reflexivity.
  - rewrite IH. destruct (lookup_last k b); [reflexivity|].
    reflexivity.
Qed.

Lemma lookup_last_In k (v : C) df :
  List.NoDup (pd.index df) -> (lookup_last k df = Some v <-> In (k, v) df).
Proof.
  intros Hnd. rewrite <- In_keep_last. now rewrite keep_last_NoDup.
Qed.

End KeepLast.

(** ** Integer columns that stay [int64] *)

Section FileFacts.
Context {C : Type} `{IntColumns C} `{Dtypes}.
Implicit Types (df loaded : pd.DataFrame C) (file : feather C).

Lemma int_column_fits (data : list (Z * C)) (j : nat) :
  int64_rows data = true -> forallb np.fits_int64 (int_column j data) = true.
Proof.
  unfold int64_rows. rewrite !forallb_forall. intros Hd z Hz.
  destruct j as [|j]; cbn [int_column] in Hz.
  - apply in_map_iff in Hz as (r & <- & Hr).
    apply Hd in Hr. now apply andb_prop in Hr as [Hr _].
  - apply in_map_iff in Hz as (r & <- & Hr).
    apply Hd in Hr. apply andb_prop in Hr as [_ Hr].
    rewrite forallb_forall in Hr.
    destruct (nth_in_or_default j (cells (snd r)) 0) as [Hin| ->];
      [now apply Hr|reflexivity].
Qed.

Lemma map_all {X Y} (f : X -> Y) (y : Y) (l : list X) :
  (forall x, f x = y) -> map f l = repeat y (length l).
Proof. intros Hf. rewrite <- map_const. now apply map_ext. Qed.

Lemma int64_rows_app (a b : list (Z * C)) :
  int64_rows (a ++ b) = int64_rows a && int64_rows b.
Proof. apply forallb_app. Qed.

Lemma from_records_int64 (data : list (Z * C)) :
  int64_rows data = true ->
  from_records data = (repeat np.int64 (S width), data).
Proof.
  intros Hd. unfold from_records. f_equal.
  rewrite (map_all _ np.int64), length_seq; [reflexivity|].
  intros j. apply infer_int64. now apply int_column_fits.
Qed.

Lemma dtype_at_int64 (n j : nat) : dtype_at (repeat np.int64 n) j = np.int64.
Proof. apply nth_repeat. Qed.

Lemma astype_frame_int64 (n : nat) df : astype_frame (repeat np.int64 n) df = df.
Proof.
  unfold astype_frame. rewrite <- (map_id df) at 2.
  apply map_ext. intros [k c]. cbn [fst snd].
  rewrite dtype_at_int64, astype_int64. f_equal.
  apply map_cells_id. intros j z. now rewrite dtype_at_int64, astype_int64.
Qed.

Lemma concat_int64 (a b : Typed C) :
  fst a = repeat np.int64 (S width) -> fst b = repeat np.int64 (S width) ->
  concat a b = (repeat np.int64 (S width), snd a ++ snd b).
Proof.
  destruct a as [da a], b as [db b]. cbn [fst snd]. intros -> ->.
  unfold concat. cbn [fst snd].
  rewrite (map_all _ np.int64), length_seq
    by (intros j; rewrite dtype_at_int64; apply common_int64).
  rewrite !astype_frame_int64. unfold pd.concat. simpl.
  now rewrite app_nil_r.
Qed.

(** A table that came out of a file converts back as it was. *)
Lemma per_column_loaded {X} (f : nat -> np.dtype -> X) (g : pa.DataType -> X)
    (schema : list pa.DataType) :
  (forall j t, f j (np.of_arrow t) = g t) ->
  forall j, per_column f j (map np.of_arrow schema) = map g schema.
Proof.
  intros Hf. induction schema as [|t schema IH]; intros j; [reflexivity|].
  cbn [map per_column]. now rewrite Hf, IH.
Qed.

Lemma first_error_none (es : list (option pa.error)) :
  (forall e, In e es -> e = None) -> first_error es = None.
Proof.
  induction es as [|e es IH]; [reflexivity|]. intros Hall.
  rewrite (Hall e) by now left. simpl. apply IH. intros e' He'.
  apply Hall. now right.
Qed.

Lemma to_feather_loaded (schema : list pa.DataType) df (t : Typed C) file :
  t = (map np.of_arrow schema, df) ->
  to_feather t file = (Ok tt, Holds schema df).
Proof.
  intros ->. unfold to_feather.
  rewrite (per_column_loaded _ (fun _ => None))
    by (intros j t; apply arrow_error_numeric).
  rewrite first_error_none.
  2: { intros e He. destruct schema as [|t schema]; [contradiction|].
       cbn [map tl firstn] in He.
       apply in_app_or in He as [He|[<-|[]]]; [|reflexivity].
       apply in_map_iff in He as (x & <- & _). reflexivity. }
  rewrite (per_column_loaded _ (fun t => t))
    by (intros j t; apply arrow_type_numeric).
  now rewrite map_id.
Qed.

Lemma to_feather_int64 df (t : Typed C) file :
  t = (repeat np.int64 (S width), df) ->
  to_feather t file = (Ok tt, Holds (int64_schema C) df).
Proof.
  intros ->. apply to_feather_loaded. unfold int64_schema.
  now rewrite map_repeat.
Qed.

(** Writing either stores the frame or leaves an empty file. *)
Lemma to_feather_cases (df : Typed C) file :
  (exists schema, to_feather df file = (Ok tt, Holds schema (snd df)))
  \/ (exists e, to_feather df file = (Raise (pa.to_exn e), Truncated)).
Proof.
  unfold to_feather. destruct df as [dtypes rows].
  destruct (first_error _) as [e|]; [right|left]; eauto.
Qed.

End FileFacts.

(** ** [df_store] *)

Section StoreFacts.
Context {A C : Type} `{BaseModel A C} `{IntColumns C} `{Dtypes}.
Implicit Types (items : list A) (loaded : pd.DataFrame C) (file : feather C).

(** The paths through [df_store], by the state of the file and the batch. *)
Lemma df_store_cases items file :
  df_store items file =
  match file, map model_dump items with
  | Truncated, _ => (Raise ArrowInvalid, Truncated)
  | Absent, [] => (Raise (Exception "Dataframe is empty"), Absent)
  | Absent, (_ :: _) as data =>
      (let* _ := to_feather (from_records data) in ret data) Absent
  | Holds schema loaded, [] =>
      (let* _ := to_feather (map np.of_arrow schema, loaded) in ret loaded)
        (Holds schema loaded)
  | Holds schema loaded, (_ :: _) as data =>
      let df := drop_duplicated
                  (concat (from_records data)
                     (map np.of_arrow schema, loaded)) in
      (let* _ := to_feather df in ret (snd df)) (Holds schema loaded)
  end.
Proof.
  unfold df_store, bind, path_exists, read_feather, ret.
  destruct file, (map model_dump items); reflexivity.
Qed.

Lemma df_store_first_write items :
  items <> [] -> int64_rows (map model_dump items) = true ->
  df_store items Absent =
    (Ok (map model_dump items), Holds (int64_schema C) (map model_dump items)).
Proof.
  intros Hne Hfit. rewrite df_store_cases.
  destruct (map model_dump items) as [|r data] eqn:Ed.
  { destruct items; [congruence|discriminate]. }
  cbv zeta. rewrite (from_records_int64 _ Hfit). unfold bind.
  now erewrite to_feather_int64 by reflexivity.
Qed.

Lemma df_store_merge items loaded :
  items <> [] -> int64_rows (map model_dump items) = true ->
  df_store items (Holds (int64_schema C) loaded) =
    (Ok (keep_last (map model_dump items ++ loaded)),
     Holds (int64_schema C) (keep_last (map model_dump items ++ loaded))).
Proof.
  intros Hne Hfit. rewrite df_store_cases.
  destruct (map model_dump items) as [|r data] eqn:Ed.
  { destruct items; [congruence|discriminate]. }
  cbv zeta. rewrite (from_records_int64 _ Hfit).
  unfold int64_schema at 1 2. rewrite map_repeat.
  change (np.of_arrow pa.int64) with np.int64.
  rewrite concat_int64 by reflexivity.
  unfold drop_duplicated, bind. cbn [fst snd].
  now erewrite to_feather_int64 by reflexivity.
Qed.

Lemma df_store_reload schema loaded :
  df_store (@nil A) (Holds schema loaded) = (Ok loaded, Holds schema loaded).
Proof.
  rewrite df_store_cases. cbn [map]. unfold bind.
  now erewrite to_feather_loaded by reflexivity.
Qed.

Lemma df_store_nothing :
  df_store (@nil A) (@Absent C)
  = (Raise (Exception "Dataframe is empty"), Absent).
Proof. reflexivity. Qed.

Lemma df_store_truncated items :
  df_store items (@Truncated C) = (Raise ArrowInvalid, Truncated).
Proof. rewrite df_store_cases. reflexivity. Qed.

(** Every way [df_store] can end: with the frame it returns in the file;
    with its own error and no file; with the error of reading an empty
    file; or with the error of a conversion, which leaves an empty file. *)
Lemma df_store_outcomes items file :
  (exists df schema, df_store items file = (Ok df, Holds schema df))
  \/ (df_store items file = (Raise (Exception "Dataframe is empty"), Absent)
      /\ items = [] /\ file = Absent)
  \/ (df_store items file = (Raise ArrowInvalid, Truncated)
      /\ file = Truncated)
  \/ (exists e, df_store items file = (Raise (pa.to_exn e), Truncated)
                /\ items <> [] /\ file <> Truncated).
Proof.
  rewrite df_store_cases.
  destruct file as [|schema loaded|], items as [|i items']; cbn [map].
  - right. left. auto.
  - unfold bind.
    destruct (to_feather_cases (from_records (model_dump i :: map model_dump items'))
                Absent) as [[sc ->]|[e ->]].
    + left. eauto.
    + right. right. right. exists e. repeat split; discriminate.
  - left. unfold bind. erewrite to_feather_loaded by reflexivity. eauto.
  - cbv zeta. unfold bind.
    match goal with
    | |- context [to_feather ?d ?f] =>
        destruct (to_feather_cases d f) as [[sc ->]|[e ->]]
    end.
    + left. eauto.
    + right. right. right. exists e. repeat split; discriminate.
  - right. right. left. auto.
  - right. right. left. auto.
Qed.

End StoreFacts.

Section StoreProperties.
Context {A C : Type} `{BaseModel A C} `{IntColumns C} `{Dtypes}.
Implicit Types (items : list A) (loaded : pd.DataFrame C).

Lemma batch_keys_survive items loaded k :
  In k (pd.index (map model_dump items)) ->
  In k (pd.index (keep_last (map model_dump items ++ loaded))).
Proof.
  intros Hk.
  destruct (lookup_last k (map model_dump items ++ loaded)) as [v|] eqn:El.
  - apply In_keep_last in El. apply (in_map fst) in El. exact El.
  - apply lookup_last_None in El. exfalso. apply El.
    unfold pd.index. rewrite map_app. apply in_or_app. now left.
Qed.

(** With a stored frame at hand, a merge leaves one row per label. *)
Lemma df_store_unique_on_merge items loaded :
  items <> [] -> int64_rows (map model_dump items) = true ->
  exists df, df_store items (Holds (int64_schema C) loaded)
             = (Ok df, Holds (int64_schema C) df)
             /\ List.NoDup (pd.index df).
Proof.
  intros Hi Hfit. eexists. split; [now apply df_store_merge|].
  apply NoDup_keep_last.
Qed.

(** Merging the same batch again changes nothing once a file with
    [int64] columns exists, for a batch whose integers fit [int64]. *)
Lemma df_store_idempotent_on_existing items loaded :
  int64_rows (map model_dump items) = true ->
  exists df, df_store items (Holds (int64_schema C) loaded)
             = (Ok df, Holds (int64_schema C) df)
             /\ df_store items (Holds (int64_schema C) df)
                = (Ok df, Holds (int64_schema C) df).
Proof.
  intros Hfit. destruct items as [|i items'] eqn:Ei.
  - exists loaded. split; apply df_store_reload.
  - rewrite <- Ei in *. assert (Hne : items <> []) by (subst; discriminate).
    eexists. split; [now apply df_store_merge|].
    rewrite df_store_merge by assumption.
    rewrite keep_last_app_absorb by (intros k; apply batch_keys_survive).
    rewrite keep_last_NoDup by apply NoDup_keep_last. reflexivity.
Qed.

(** On a first write, the same holds for a batch with distinct keys. *)
Lemma df_store_idempotent_distinct_keys items :
  items <> [] -> int64_rows (map model_dump items) = true ->
  List.NoDup (pd.index (map model_dump items)) ->
  exists df, df_store items Absent = (Ok df, Holds (int64_schema C) df)
             /\ df_store items (Holds (int64_schema C) df)
                = (Ok df, Holds (int64_schema C) df).
Proof.
  intros Hne Hfit Hnd. eexists. split; [now apply df_store_first_write|].
  rewrite df_store_merge by assumption.
  rewrite keep_last_app_absorb by auto.
  rewrite keep_last_NoDup by exact Hnd. reflexivity.
Qed.

(** The direction of the merge in general: with [int64] data on both sides
    and one row per key in the file, every key of the file keeps the
    stored value, also when the batch carries another value for it; a key
    of the batch that the file lacks gets the value of its last batch
    record. *)
Lemma df_store_stored_value_wins items loaded :
  int64_rows (map model_dump items) = true ->
  List.NoDup (pd.index loaded) ->
  exists df,
    df_store items (Holds (int64_schema C) loaded)
    = (Ok df, Holds (int64_schema C) df)
    /\ (forall k v1, In (k, v1) loaded -> forall v, In (k, v) df <-> v = v1)
    /\ (forall k, ~ In k (pd.index loaded) ->
        forall v, In (k, v) df <->
                  lookup_last k (map model_dump items) = Some v).
Proof.
  intros Hfit Hnd. destruct items as [|i items'] eqn:Ei.
  - exists loaded. split; [apply df_store_reload|]. split.
    + intros k v1 Hv1 v. rewrite <- !(lookup_last_In k _ loaded Hnd).
      apply (lookup_last_In k v1 loaded Hnd) in Hv1. rewrite Hv1.
      split; congruence.
    + intros k Hk v. simpl. split; [|discriminate].
      intros Hin. exfalso. apply Hk. apply (in_map fst) in Hin. exact Hin.
  - rewrite <- Ei in *. assert (Hne : items <> []) by (subst; discriminate).
    eexists. split; [now apply df_store_merge|]. split.
    + intros k v1 Hv1 v. rewrite In_keep_last, lookup_last_app.
      apply (lookup_last_In k v1 loaded Hnd) in Hv1. rewrite Hv1.
      split; congruence.
    + intros k Hk v. rewrite In_keep_last, lookup_last_app.
      apply lookup_last_None in Hk. rewrite Hk. reflexivity.
Qed.

End StoreProperties.

(** C1, on the failing input: key 1 is stored with client 10 and comes
    again in the batch with client 20; the merge returns and stores the
    old row, so the batch's value is lost.  The rows are concatenated
    batch first and the filter keeps the last row of each key. *)
Theorem df_store_batch_value_loses `{Dtypes} :
  let stored := {| TxCols.client_id := 10; TxCols.closed_at := 100 |} in
  let fresh := {| Transaction.client_id := 20; Transaction.id := 1;
                  Transaction.closed_at := 200 |} in
  model_dump fresh = (1, {| TxCols.client_id := 20; TxCols.closed_at := 200 |})
  /\ df_store [fresh] (Holds (int64_schema TxCols.t) [(1, stored)])
     = (Ok [(1, stored)], Holds (int64_schema TxCols.t) [(1, stored)])
  /\ stored <> {| TxCols.client_id := 20; TxCols.closed_at := 200 |}.
Proof.
  cbv zeta. split; [reflexivity|]. split; [|discriminate].
  rewrite df_store_merge; [reflexivity|discriminate|reflexivity].
Qed.

(** C4, on the failing input: a first write of two records that share key
    1 stores both rows; merging the same batch again leaves one row, so
    the second merge changed the store. *)
Theorem df_store_first_write_not_idempotent `{Dtypes} :
  let a := {| Transaction.client_id := 10; Transaction.id := 1;
              Transaction.closed_at := 100 |} in
  let b := {| Transaction.client_id := 20; Transaction.id := 1;
              Transaction.closed_at := 200 |} in
  let ra := (1, {| TxCols.client_id := 10; TxCols.closed_at := 100 |}) in
  let rb := (1, {| TxCols.client_id := 20; TxCols.closed_at := 200 |}) in
  df_store [a; b] Absent
  = (Ok [ra; rb], Holds (int64_schema TxCols.t) [ra; rb])
  /\ df_store [a; b] (Holds (int64_schema TxCols.t) [ra; rb])
     = (Ok [rb], Holds (int64_schema TxCols.t) [rb])
  /\ In ra [ra; rb] /\ ~ In ra [rb].
Proof.
  cbv zeta. split; [|split; [|split]].
  - rewrite df_store_first_write; [reflexivity|discriminate|reflexivity].
  - rewrite df_store_merge; [reflexivity|discriminate|reflexivity].
  - now left.
  - intros [Heq|[]]. discriminate.
Qed.

(** C5, on the failing input: with no file yet, a batch holding key 1 twice
    is returned and persisted with both rows. *)
Theorem df_store_first_write_keeps_duplicates `{Dtypes} :
  let a := {| Transaction.client_id := 10; Transaction.id := 1;
              Transaction.closed_at := 100 |} in
  let b := {| Transaction.client_id := 20; Transaction.id := 1;
              Transaction.closed_at := 200 |} in
  exists df, df_store [a; b] Absent
             = (Ok df, Holds (int64_schema TxCols.t) df)
             /\ pd.index df = [1; 1]
             /\ ~ List.NoDup (pd.index df).
Proof.
  cbv zeta. eexists. split; [|split].
  - rewrite df_store_first_write; [reflexivity|discriminate|reflexivity].
  - reflexivity.
  - simpl. intros Hnd. inversion Hnd as [|? ? Hn _]; subst. apply Hn. now left.
Qed.

(** C6.  [df_store] ends with its own error, "Dataframe is empty", exactly
    when the batch is empty and the file does not exist, and then nothing
    is written; with a file in place an empty batch returns the stored
    frame and leaves the file as it was.  Every other failure is raised
    by the libraries: reading a file of zero bytes, or a conversion that
    fails while the frame is written, which leaves such a file; neither
    happens when the file holds [int64] columns (or is absent) and the
    integers of the batch fit [int64]. *)
Theorem df_store_empty_error {A C} `{BaseModel A C} `{IntColumns C} `{Dtypes}
    (items : list A) (file : feather C) :
  (fst (df_store items file) = Raise (Exception "Dataframe is empty") <->
   items = [] /\ file = Absent)
  /\ df_store (@nil A) (@Absent C)
     = (Raise (Exception "Dataframe is empty"), Absent)
  /\ (forall schema (loaded : pd.DataFrame C),
       df_store (@nil A) (Holds schema loaded)
       = (Ok loaded, Holds schema loaded))
  /\ (forall e, fst (df_store items file) = Raise e ->
        (e = Exception "Dataframe is empty" /\ items = [] /\ file = Absent)
        \/ (e = ArrowInvalid /\ file = Truncated)
        \/ (exists c, e = pa.to_exn c /\ items <> []
                      /\ snd (df_store items file) = Truncated))
  /\ (int64_rows (map model_dump items) = true ->
      (file = Absent \/ exists loaded, file = Holds (int64_schema C) loaded) ->
      ((exists e, fst (df_store items file) = Raise e) <->
       items = [] /\ file = Absent))
  /\ fst (df_store items file) <> Diverges.
Proof.
  pose proof (df_store_outcomes items file) as Hc.
  split; [|split; [reflexivity|split; [apply df_store_reload|split; [|split]]]].
  - split.
    + intros Hr.
      destruct Hc as [(df & sc & E)|[(E & Hi & Hf)|[(E & Hf)|(c & E & Hi & Hf)]]];
        rewrite E in Hr; cbn [fst] in Hr; try discriminate; auto.
      destruct c; discriminate.
    + intros [-> ->]. reflexivity.
  - intros e Hr.
    destruct Hc as [(df & sc & E)|[(E & Hi & Hf)|[(E & Hf)|(c & E & Hi & Hf)]]];
      rewrite E in Hr |- *; cbn [fst snd] in Hr |- *; try discriminate;
      injection Hr as <-; eauto 8.
  - intros Hfit Hfile. split.
    + intros [e He]. destruct items as [|i items'] eqn:Ei.
      * destruct Hfile as [->|[loaded ->]]; [auto|].
        rewrite df_store_reload in He. discriminate.
      * rewrite <- Ei in *.
        assert (Hne : items <> []) by (subst; discriminate).
        destruct Hfile as [->|[loaded ->]].
        -- rewrite df_store_first_write in He by assumption. discriminate.
        -- rewrite df_store_merge in He by assumption. discriminate.
    + intros [-> ->]. eexists. reflexivity.
  - destruct Hc as [(df & sc & E)|[(E & Hi & Hf)|[(E & Hf)|(c & E & Hi & Hf)]]];
      rewrite E; discriminate.
Qed.


(** ** Pagination *)

Section PaginationFacts.
Context {Net : Type}.
Variable src :
  date_like -> date_like -> Z -> Z -> M Net (Page.t (list Transaction.t)).
Variables date_from date_to : date_like.

Lemma fetches_app (a b : list event) : fetches (a ++ b) = fetches a ++ fetches b.
Proof. unfold fetches. now rewrite flat_map_app. Qed.

Lemma fetches_yielded (l : list Transaction.t) : fetches (map Yielded l) = [].
Proof. induction l; simpl; auto. Qed.

Lemma yields_app (a b : list event) : yields (a ++ b) = yields a ++ yields b.
Proof. unfold yields. now rewrite flat_map_app. Qed.

Lemma yields_yielded (l : list Transaction.t) : yields (map Yielded l) = l.
Proof. induction l; simpl; [reflexivity|]. unfold yields in IHl. now f_equal. Qed.

Lemma ends_short_cons p pp d fs :
  ends_short ((p, pp, d) :: fs) <->
  (fs = [] /\ ~ full d) \/ (fs <> [] /\ ends_short fs).
Proof.
  unfold ends_short. destruct fs as [|f fs]; simpl.
  - split.
    + intros (p' & pp' & d' & Hl & Hs). injection Hl as <- <- <-. now left.
    + intros [[_ Hs]|[Hne _]]; [|congruence]. eauto.
  - split.
    + intros Hs. right. split; [discriminate|exact Hs].
    + intros [[He _]|[_ Hs]]; [discriminate|exact Hs].
Qed.

Lemma ends_short_nil : ~ ends_short [].
Proof. intros (p & pp & d & Hl & _). discriminate. Qed.

Lemma next_request_cons from_page per_page p pp d fs :
  next_request from_page per_page ((p, pp, d) :: fs)
  = next_request (PageInfo.page (Page.page d) + 1)
      (PageInfo.per_page (Page.page d)) fs.
Proof.
  unfold next_request. destruct fs as [|f fs]; [reflexivity|].
  rewrite last_cons. destruct (last (f :: fs)) as [[[p' pp'] d']|] eqn:El;
    [reflexivity|].
  apply last_None in El. discriminate.
Qed.

Lemma loop_spec (fuel : nat) :
  forall from_page per_page count net,
    match iter_transactions_loop src fuel date_from date_to
            from_page per_page count net with
    | (r, tr, net') =>
        tr = flat_map page_events (fetches tr)
        /\ walk from_page per_page (fetches tr)
        /\ (per_page <> count -> tr = [] /\ r = Ok tt /\ net' = net)
        /\ (per_page = count -> (r = Ok tt <-> ends_short (fetches tr)))
        /\ exists net_end,
             served src date_from date_to (fetches tr) net net_end
             /\ (r = Ok tt -> net' = net_end)
             /\ (per_page = count -> ~ ends_short (fetches tr) ->
                 cut_short src date_from date_to fuel from_page per_page
                   (fetches tr) net_end r net')
    end.
Proof.
  induction fuel as [|fuel IH]; intros from_page per_page count net; simpl.
  - destruct (Z.eqb_spec per_page count) as [He|Hne]; simpl.
    + split; [reflexivity|]. split; [exact I|]. split; [congruence|].
      split.
      * intros _. split; [discriminate|].
        intros Hs. now apply ends_short_nil in Hs.
      * exists net. split; [reflexivity|]. split; [discriminate|].
        intros _ _. left. auto.
    + split; [reflexivity|]. split; [exact I|]. split; [auto|].
      split; [congruence|].
      exists net. split; [reflexivity|]. split; [auto|]. congruence.
  - destruct (Z.eqb_spec per_page count) as [He|Hne]; simpl.
    2: { split; [reflexivity|]. split; [exact I|]. split; [auto|].
         split; [congruence|].
         exists net. split; [reflexivity|]. split; [auto|]. congruence. }
    destruct (src date_from date_to from_page per_page net)
      as [[d| e |] net1] eqn:Es; simpl.
    2: { split; [reflexivity|]. split; [exact I|]. split; [congruence|].
         split.
         - intros _. split; [discriminate|].
           intros Hs. now apply ends_short_nil in Hs.
         - exists net. split; [reflexivity|]. split; [discriminate|].
           intros _ _. right. split; [simpl; lia|]. left. eauto. }
    2: { split; [reflexivity|]. split; [exact I|]. split; [congruence|].
         split.
         - intros _. split; [discriminate|].
           intros Hs. now apply ends_short_nil in Hs.
         - exists net. split; [reflexivity|]. split; [discriminate|].
           intros _ _. right. split; [simpl; lia|]. right. auto. }
    specialize (IH (PageInfo.page (Page.page d) + 1)
                   (PageInfo.per_page (Page.page d))
                   (PageInfo.count (Page.page d)) net1).
    destruct (iter_transactions_loop src fuel date_from date_to _ _ _ net1)
      as [[r tr'] net2].
    destruct IH as (Hshape & Hwalk & Hstop & Hgo & net_end & Hserved & Hend
                    & Hcut).
    simpl. rewrite fetches_app, fetches_yielded. simpl.
    split; [|split; [|split; [|split]]].
    + rewrite <- Hshape. reflexivity.
    + split; [reflexivity|]. split; [reflexivity|]. split; [|exact Hwalk].
      intros Hne. unfold full.
      destruct (Z.eq_dec (PageInfo.per_page (Page.page d))
                         (PageInfo.count (Page.page d))) as [Hf|Hnf];
        [congruence|].
      destruct (Hstop Hnf) as (Ht & _). subst tr'. now contradiction Hne.
    + congruence.
    + intros _. rewrite ends_short_cons.
      destruct (Z.eq_dec (PageInfo.per_page (Page.page d))
                         (PageInfo.count (Page.page d))) as [Hf|Hnf].
      * rewrite (Hgo Hf). split.
        -- intros Hs. right. split; [|exact Hs].
           intros Hn. rewrite Hn in Hs. now apply ends_short_nil in Hs.
        -- intros [[_ Hs]|[_ Hs]]; [|exact Hs]. unfold full in Hs. congruence.
      * destruct (Hstop Hnf) as (-> & -> & _). simpl. split; [|reflexivity].
        intros _. left. split; [reflexivity|]. unfold full. congruence.
    + exists net_end. split; [exists net1; auto|]. split; [exact Hend|].
      intros _ Hns.
      destruct (Z.eq_dec (PageInfo.per_page (Page.page d))
                         (PageInfo.count (Page.page d))) as [Hf|Hnf].
      * assert (Hns' : ~ ends_short (fetches tr')).
        { intros Hs. apply Hns. apply ends_short_cons. right.
          split; [|exact Hs].
          intros Hn. rewrite Hn in Hs. now apply ends_short_nil in Hs. }
        specialize (Hcut Hf Hns'). unfold cut_short in *.
        rewrite next_request_cons.
        destruct (next_request _ _ (fetches tr')) as [p pp].
        destruct Hcut as [(Hl & Hr & Hn)|(Hl & Hfail)].
        -- left. simpl. auto.
        -- right. split; [simpl; lia|exact Hfail].
      * exfalso. apply Hns. destruct (Hstop Hnf) as (-> & _). simpl.
        apply ends_short_cons. left. split; [reflexivity|].
        unfold full. congruence.
Qed.

(** More fuel does not change a run that ended. *)
Lemma loop_fuel_mono (fuel : nat) :
  forall fuel' from_page per_page count net r tr net',
    (fuel <= fuel')%nat ->
    iter_transactions_loop src fuel date_from date_to
      from_page per_page count net = (r, tr, net') ->
    r = Ok tt ->
    iter_transactions_loop src fuel' date_from date_to
      from_page per_page count net = (r, tr, net').
Proof.
  induction fuel as [|fuel IH]; intros fuel' from_page per_page count net
    r tr net' Hle Hrun Hr; simpl in Hrun.
  - destruct fuel'; simpl; destruct (per_page =? count); try congruence.
  - destruct fuel' as [|fuel']; [lia|]. simpl.
    destruct (per_page =? count); [|exact Hrun].
    destruct (src date_from date_to from_page per_page net)
      as [[d| e |] net1]; try congruence.
    destruct (iter_transactions_loop src fuel date_from date_to _ _ _ net1)
      as [[r1 tr1] net2] eqn:E1.
    injection Hrun as <- <- <-.
    rewrite (IH fuel' _ _ _ _ _ _ _ ltac:(lia) E1 Hr). reflexivity.
Qed.

End PaginationFacts.

Lemma yields_page_events (fs : list (Z * Z * Page.t (list Transaction.t))) :
  yields (flat_map page_events fs) = flat_map (fun x => Page.data (snd x)) fs.
Proof.
  induction fs as [|[[p pp] d] fs IH]; [reflexivity|].
  change (flat_map page_events ((p, pp, d) :: fs))
    with ([Fetched p pp d] ++ map Yielded (Page.data d)
            ++ flat_map page_events fs).
  rewrite !yields_app, yields_yielded, IH. reflexivity.
Qed.

Lemma map_seq_S {X} (g : nat -> X) (n : nat) :
  map g (seq 0 (S n)) = g 0%nat :: map (fun i => g (S i)) (seq 0 n).
Proof. simpl. now rewrite <- seq_shift, map_map. Qed.

Section FakeSource.
Context {Net : Type}.
Variable f : Z -> Z -> Page.t (list Transaction.t).
Variables date_from date_to : date_like.

(** A source whose first [n] pages are full and echo the request, and
    whose next page is not full, is walked to that page and no further. *)
Lemma fake_source_loop (n : nat) :
  forall (fuel : nat) (from_page per_page : Z) (net : Net),
    (forall i, (i < n)%nat ->
       let d := f (from_page + Z.of_nat i) per_page in
       full d /\ PageInfo.page (Page.page d) = from_page + Z.of_nat i
       /\ PageInfo.per_page (Page.page d) = per_page) ->
    ~ full (f (from_page + Z.of_nat n) per_page) ->
    (n < fuel)%nat ->
    iter_transactions_loop (fake_source f) fuel date_from date_to
      from_page per_page per_page net
    = (Ok tt,
       flat_map page_events
         (map (fun i => (from_page + Z.of_nat i, per_page,
                         f (from_page + Z.of_nat i) per_page))
              (seq 0 (S n))),
       net).
Proof.
  induction n as [|n IH]; intros fuel from_page per_page net Hfull Hlast Hfuel.
  - destruct fuel as [|fuel]; [lia|]. simpl. rewrite Z.eqb_refl.
    unfold fake_source at 1, ret. rewrite Z.add_0_r in *.
    destruct fuel; simpl.
    + destruct (Z.eqb_spec (PageInfo.per_page (Page.page (f from_page per_page)))
                           (PageInfo.count (Page.page (f from_page per_page))))
        as [He|Hne]; [exfalso; apply Hlast; unfold full; congruence|].
      rewrite !app_nil_r. reflexivity.
    + destruct (Z.eqb_spec (PageInfo.per_page (Page.page (f from_page per_page)))
                           (PageInfo.count (Page.page (f from_page per_page))))
        as [He|Hne]; [exfalso; apply Hlast; unfold full; congruence|].
      rewrite !app_nil_r. reflexivity.
  - destruct fuel as [|fuel]; [lia|].
    cbn [iter_transactions_loop]. rewrite Z.eqb_refl.
    unfold fake_source at 1, ret.
    destruct (Hfull 0%nat ltac:(lia)) as (Hf0 & Hp0 & Hpp0).
    cbn zeta in Hf0, Hp0, Hpp0. rewrite Z.add_0_r in Hf0, Hp0, Hpp0.
    unfold full in Hf0. rewrite Hf0, Hp0, Hpp0.
    rewrite (IH fuel (from_page + 1) per_page net).
    + rewrite (map_seq_S _ (S n)). cbn [flat_map page_events].
      rewrite Z.add_0_r, <- app_comm_cons. do 5 f_equal.
      apply map_ext. intros i.
      replace (from_page + 1 + Z.of_nat i) with (from_page + Z.of_nat (S i))
        by lia. reflexivity.
    + intros i Hi. specialize (Hfull (S i) ltac:(lia)). cbn zeta in *.
      replace (from_page + 1 + Z.of_nat i) with (from_page + Z.of_nat (S i))
        by lia. exact Hfull.
    + replace (from_page + 1 + Z.of_nat n) with (from_page + Z.of_nat (S n))
        by lia. exact Hlast.
    + lia.
Qed.

End FakeSource.

(** C2 (as amended).  For every page source, [iter_transactions] first
    requests the caller's page index with the caller's [per_page], and
    after each page whose [count] equals its own echoed [per_page] it
    requests the echoed page index plus one with the echoed [per_page]:
    the fetches form such a chain, each answered by the source from the
    state the previous answer left, and the chain goes on until a page is
    not full, the next request fails (with the result of the run) or the
    fuel is spent.  The trace is, page by page in fetch order, the fetch
    followed by that page's records, each yielded once.  The generator
    ends normally exactly when the last page it fetched has a [count]
    different from its echoed [per_page], whether smaller or greater.  A
    run that ended is the same with any larger fuel, and a source with [n]
    full, echoing pages followed by a page that is not full is walked
    through these [n + 1] pages and then stops. *)
Theorem iter_transactions_pagination {Net}
    (src : date_like -> date_like -> Z -> Z -> M Net (Page.t (list Transaction.t)))
    (date_from date_to : date_like) (fuel : nat) (from_page per_page : Z)
    (net : Net) :
  match iter_transactions src fuel date_from date_to from_page per_page net with
  | (r, tr, net') =>
      tr = flat_map page_events (fetches tr)
      /\ yields tr = flat_map (fun x => Page.data (snd x)) (fetches tr)
      /\ walk from_page per_page (fetches tr)
      /\ (r = Ok tt <-> ends_short (fetches tr))
      /\ (exists net_end,
            served src date_from date_to (fetches tr) net net_end
            /\ (r = Ok tt -> net' = net_end)
            /\ (~ ends_short (fetches tr) ->
                cut_short src date_from date_to fuel from_page per_page
                  (fetches tr) net_end r net'))
      /\ (r = Ok tt -> forall fuel', (fuel <= fuel')%nat ->
            iter_transactions src fuel' date_from date_to from_page per_page net
            = (r, tr, net'))
  end
  /\ (forall (f : Z -> Z -> Page.t (list Transaction.t)) (n : nat),
        (forall i, (i < n)%nat ->
           let d := f (from_page + Z.of_nat i) per_page in
           full d /\ PageInfo.page (Page.page d) = from_page + Z.of_nat i
           /\ PageInfo.per_page (Page.page d) = per_page) ->
        ~ full (f (from_page + Z.of_nat n) per_page) ->
        (n < fuel)%nat ->
        iter_transactions (fake_source f) fuel date_from date_to
          from_page per_page net
        = (Ok tt,
           flat_map page_events
             (map (fun i => (from_page + Z.of_nat i, per_page,
                             f (from_page + Z.of_nat i) per_page))
                  (seq 0 (S n))),
           net)).
Proof.
  split.
  - unfold iter_transactions.
    pose proof (loop_spec src date_from date_to fuel from_page per_page
                  per_page net) as Hspec.
    destruct (iter_transactions_loop src fuel date_from date_to from_page
                per_page per_page net) as [[r tr] net'] eqn:Erun.
    destruct Hspec as (Hshape & Hwalk & _ & Hgo & net_end & Hserved & Hend
                       & Hcut).
    split; [exact Hshape|]. split.
    { rewrite Hshape at 1. apply yields_page_events. }
    split; [exact Hwalk|]. split; [now apply Hgo|]. split.
    { exists net_end. split; [exact Hserved|]. split; [exact Hend|].
      now apply Hcut. }
    intros Hr fuel' Hle.
    now apply (loop_fuel_mono src date_from date_to fuel fuel').
  - intros f n Hfull Hlast Hfuel. unfold iter_transactions.
    now apply fake_source_loop.
Qed.

(** C2, the claim as stated fails: a page whose [count] (5) exceeds its
    echoed [per_page] (3) ends the generator after one fetch, although its
    [count] is not smaller than its [per_page]. *)
Lemma iter_transactions_stops_on_long_page :
  let d := {| Page.data := @nil Transaction.t;
              Page.page := {| PageInfo.count := 5; PageInfo.page := 1;
                              PageInfo.per_page := 3 |} |} in
  iter_transactions (fake_source (fun _ _ => d)) 10 (DT 0) (DT 0) 1 3 tt
  = (Ok tt, [Fetched 1 3 d], tt)
  /\ ~ (PageInfo.count (Page.page d) < PageInfo.per_page (Page.page d)).
Proof. simpl. split; [reflexivity|lia]. Qed.


(** ** The retention report *)

Lemma ge_column {C} (f : C -> datetime) (df : pd.DataFrame C) (x : datetime) :
  pd.ge (pd.column f df) x = map (fun r => x <=? f (snd r)) df.
Proof. unfold pd.ge, pd.column. now rewrite map_map. Qed.

Lemma lt_column {C} (f : C -> datetime) (df : pd.DataFrame C) (x : datetime) :
  pd.lt (pd.column f df) x = map (fun r => f (snd r) <? x) df.
Proof. unfold pd.lt, pd.column. now rewrite map_map. Qed.

Lemma window_mask {C} (f : C -> datetime) (df : pd.DataFrame C) (lo hi : datetime) :
  pd.getitem df (pd.and_ (pd.ge (pd.column f df) lo) (pd.lt (pd.column f df) hi))
  = List.filter (fun r => in_window lo hi (f (snd r))) df.
Proof. rewrite ge_column, lt_column, and_map. apply getitem_map. Qed.

Lemma In_unique_from (x : Z) (s seen : list Z) :
  In x (pd.unique_from seen s) <-> In x s /\ ~ In x seen.
Proof.
  revert seen. induction s as [|y s IH]; intros seen; simpl; [tauto|].
  destruct (existsb (Z.eqb y) seen) eqn:Ey.
  - apply existsb_eqb_In in Ey. rewrite IH. split.
    + intros [Hs Hn]. auto.
    + intros [[->|Hs] Hn]; [contradiction|auto].
  - apply existsb_eqb_not_In in Ey. simpl. rewrite IH. simpl. split.
    + intros [->|[Hs Hn]]; [auto|]. split; [auto|]. intros Hx. apply Hn. now right.
    + intros [[->|Hs] Hn]; [now left|].
      destruct (Z.eq_dec y x) as [->|Hne]; [now left|right].
      split; [exact Hs|]. intros [Heq|Hx]; [congruence|contradiction].
Qed.

Lemma NoDup_unique_from (s seen : list Z) : List.NoDup (pd.unique_from seen s).
Proof.
  revert seen. induction s as [|y s IH]; intros seen; simpl; [constructor|].
  destruct (existsb (Z.eqb y) seen); [apply IH|].
  constructor; [|apply IH]. rewrite In_unique_from. intros [_ Hn].
  apply Hn. now left.
Qed.

Lemma In_unique (x : Z) (s : list Z) : In x (pd.unique s) <-> In x s.
Proof. unfold pd.unique. rewrite In_unique_from. simpl. tauto. Qed.

Lemma existsb_unique (k : Z) (s : list Z) :
  existsb (Z.eqb k) (pd.unique s) = existsb (Z.eqb k) s.
Proof.
  destruct (existsb (Z.eqb k) s) eqn:E.
  - apply existsb_eqb_In. apply In_unique. now apply existsb_eqb_In.
  - apply existsb_eqb_not_In. rewrite In_unique. now apply existsb_eqb_not_In.
Qed.

Lemma existsb_client_id (k : Z) (txs : pd.DataFrame TxCols.t) :
  existsb (Z.eqb k) (pd.column TxCols.client_id txs)
  = existsb (fun t => TxCols.client_id (snd t) =? k) txs.
Proof.
  induction txs as [|t txs IH]; simpl; [reflexivity|].
  rewrite <- IH. now rewrite (Z.eqb_sym k).
Qed.

Lemma CS_of_spec df_cl (lookback : datetime) (start_period : date) :
  CS_of df_cl lookback start_period
  = spec_CS df_cl lookback (to_dtime (D start_period)).
Proof. apply window_mask. Qed.

Lemma tx_in_period_of_spec df_tx (start_period end_period : date) :
  tx_in_period_of df_tx start_period end_period
  = spec_tx_in_period df_tx (to_dtime (D start_period)) (to_dtime (D end_period)).
Proof. apply window_mask. Qed.

Lemma CN_of_spec df_cl (start_period end_period : date) :
  CN_of df_cl start_period end_period
  = spec_CN df_cl (to_dtime (D start_period)) (to_dtime (D end_period)).
Proof. apply window_mask. Qed.

Lemma cl_left_of_spec (CS : pd.DataFrame ClCols.t) (txs : pd.DataFrame TxCols.t) :
  cl_left_of CS (clients_with_buy_of txs) = spec_cl_left CS txs.
Proof.
  unfold cl_left_of, spec_cl_left, clients_with_buy_of, pd.isin, pd.inv, pd.index.
  rewrite !map_map, getitem_map. apply filter_ext. intros [k c]. simpl.
  now rewrite existsb_unique, existsb_client_id.
Qed.

Lemma clients_with_buy_distinct (txs : pd.DataFrame TxCols.t) :
  List.NoDup (clients_with_buy_of txs)
  /\ (forall k, In k (clients_with_buy_of txs) <->
                exists t, In t txs /\ TxCols.client_id (snd t) = k).
Proof.
  split; [apply NoDup_unique_from|]. intros k. unfold clients_with_buy_of.
  rewrite In_unique. unfold pd.column. rewrite in_map_iff.
  split; intros (t & H1 & H2); exists t; auto.
Qed.

Section Safety.
Context {S : Type}.

Lemma no_zero_division_ret {A} (a : A) : no_zero_division (ret a : M S A).
Proof. intros s. discriminate. Qed.

Lemma no_zero_division_lift {A} (r : result A) :
  r <> Raise ZeroDivisionError -> no_zero_division (lift r : M S A).
Proof. intros Hr s. exact Hr. Qed.

Lemma no_zero_division_bind {A B} (c : M S A) (k : A -> M S B) :
  no_zero_division c -> (forall a, no_zero_division (k a)) ->
  no_zero_division (bind c k).
Proof.
  intros Hc Hk s. unfold bind. specialize (Hc s).
  destruct (c s) as [[a|e|] s']; simpl in *; [apply Hk| |discriminate].
  intros He. apply Hc. congruence.
Qed.

Lemma no_zero_division_assert (b : bool) : no_zero_division (assert b : M S unit).
Proof. intros s. destruct b; discriminate. Qed.

End Safety.

Section ReportFacts.
Context `{Pydantic} `{Dtypes} {Net : Type} `{Requests Net}.
Implicit Types (w : World Net).

Lemma print_run (l : line) w :
  print l w = (Ok tt, with_stdout w (stdout w ++ [l])).
Proof. reflexivity. Qed.

Lemma no_zero_division_print (l : line) : no_zero_division (@print Net l).
Proof. intros w. discriminate. Qed.

Lemma no_zero_division_on_net {A} (c : M Net A) :
  no_zero_division c -> no_zero_division (on_net c).
Proof.
  intros Hc w. unfold on_net. specialize (Hc (net w)).
  destruct (c (net w)) as [r n]. exact Hc.
Qed.

Lemma no_zero_division_df_store {A C} `{BaseModel A C} `{IntColumns C}
    (items : list A) :
  no_zero_division (df_store items).
Proof.
  intros file. unfold no_zero_division.
  destruct (df_store_outcomes items file)
    as [(df & sc & ->)|[(-> & _)|[(-> & _)|(c & -> & _)]]];
    cbn [fst]; try discriminate.
  destruct c; discriminate.
Qed.

Lemma no_zero_division_update_transactions (txs : list Transaction.t) :
  no_zero_division (@update_transactions _ Net txs).
Proof.
  intros w. unfold update_transactions, on_transactions.
  pose proof (no_zero_division_df_store txs (transactions_feater w)) as Hs.
  destruct (df_store txs (transactions_feater w)) as [r f]. exact Hs.
Qed.

Lemma no_zero_division_update_clients (cls : list ClientInfo.t) :
  no_zero_division (@update_clients _ Net cls).
Proof.
  intros w. unfold update_clients, on_clients.
  pose proof (no_zero_division_df_store cls (clients_feater w)) as Hs.
  destruct (df_store cls (clients_feater w)) as [r f]. exact Hs.
Qed.

Lemma json_response_no_zero_division (data : gmap string json) :
  json_response data <> Raise ZeroDivisionError.
Proof.
  rewrite json_response_cases.
  destruct (data !! "response"); [discriminate|].
  destruct (data !! "error"); [|discriminate].
  destruct (validate_ApiError data); discriminate.
Qed.

Lemma no_zero_division_get_json_request (self : API.t) (rpc_method : string)
    (kwargs : list (string * param)) :
  no_zero_division (API.get_json_request self rpc_method kwargs).
Proof.
  intros n. unfold API.get_json_request.
  destruct (requests_get _ _ n) as [resp n'].
  unfold raise_for_status.
  destruct ((400 <=? status_code resp) && (status_code resp <? 600)); simpl;
    [discriminate|apply json_response_no_zero_division].
Qed.

Lemma parse_obj_as_no_zero_division {J A} (v : J -> option A) (data : J) :
  parse_obj_as v data <> Raise ZeroDivisionError.
Proof. unfold parse_obj_as. destruct (v data); discriminate. Qed.

Lemma no_zero_division_get_transactions_page (self : API.t)
    (date_from date_to : date_like) (page per_page : Z) :
  no_zero_division (API.get_transactions_page self date_from date_to page per_page).
Proof.
  apply no_zero_division_bind; [apply no_zero_division_get_json_request|].
  intros data. apply no_zero_division_lift, parse_obj_as_no_zero_division.
Qed.

Lemma no_zero_division_get_clients (self : API.t) :
  no_zero_division (API.get_clients self).
Proof.
  apply no_zero_division_bind; [apply no_zero_division_get_json_request|].
  intros data. apply no_zero_division_lift, parse_obj_as_no_zero_division.
Qed.

Lemma loop_no_zero_division
    (src : date_like -> date_like -> Z -> Z -> M Net (Page.t (list Transaction.t)))
    (date_from date_to : date_like) :
  (forall p pp, no_zero_division (src date_from date_to p pp)) ->
  forall fuel from_page per_page count n,
    fst (fst (iter_transactions_loop src fuel date_from date_to
                from_page per_page count n)) <> Raise ZeroDivisionError.
Proof.
  intros Hsrc. induction fuel as [|fuel IH]; intros from_page per_page count n;
    simpl.
  - destruct (per_page =? count); discriminate.
  - destruct (per_page =? count); [|discriminate].
    specialize (Hsrc from_page per_page n).
    destruct (src date_from date_to from_page per_page n) as [[d|e|] n1];
      simpl in *; [|intros He; apply Hsrc; congruence|discriminate].
    specialize (IH (PageInfo.page (Page.page d) + 1)
                   (PageInfo.per_page (Page.page d))
                   (PageInfo.count (Page.page d)) n1).
    destruct (iter_transactions_loop src fuel date_from date_to _ _ _ n1)
      as [[r tr] n2]. exact IH.
Qed.

Lemma no_zero_division_unload_transactions (fuel : nat) (api : API.t)
    (date_from date_to : date_like) :
  no_zero_division (unload_transactions_for_date_range fuel api date_from date_to).
Proof.
  apply no_zero_division_bind; [|intros txs; apply no_zero_division_update_transactions].
  apply no_zero_division_on_net. intros n. unfold collect.
  pose proof (loop_no_zero_division (API.get_transactions_page api)
                date_from date_to
                (no_zero_division_get_transactions_page api date_from date_to)
                fuel 1 500 500 n) as Hl.
  unfold API.iter_transactions, iter_transactions.
  destruct (iter_transactions_loop _ fuel date_from date_to 1 500 500 n)
    as [[[u|e|] tr] n']; simpl in *;
    [discriminate|intros He; apply Hl; congruence|discriminate].
Qed.

Lemma no_zero_division_ccr_frames (fuel : nat) (api_key : option string)
    (unload_data : bool) (previous_preiod_start : datetime) (end_period : date) :
  no_zero_division
    (ccr_frames fuel api_key unload_data previous_preiod_start end_period).
Proof.
  unfold ccr_frames. destruct unload_data.
  - destruct api_key as [key|]; [|intros w; discriminate].
    apply no_zero_division_bind; [apply no_zero_division_print|intros _].
    apply no_zero_division_bind;
      [apply no_zero_division_unload_transactions|intros df_tx].
    apply no_zero_division_bind; [apply no_zero_division_print|intros _].
    apply no_zero_division_bind; [|intros df_cl; apply no_zero_division_ret].
    apply no_zero_division_bind;
      [apply no_zero_division_on_net, no_zero_division_get_clients|].
    intros cls. apply no_zero_division_update_clients.
  - apply no_zero_division_bind;
      [apply no_zero_division_update_transactions|intros df_tx].
    apply no_zero_division_bind;
      [apply no_zero_division_update_clients|intros df_cl].
    apply no_zero_division_ret.
Qed.

Lemma len_zero {C} (df : pd.DataFrame C) : df = [] <-> pd.len df = 0.
Proof. unfold pd.len. destruct df; simpl; split; intros; try lia; congruence. Qed.

(** The report always runs to its end; the division is only reached with
    a non-empty cohort. *)
Lemma ccr_report_run df_tx df_cl (previous_preiod_start : datetime)
    (start_period end_period : date) w :
  let CS := CS_of df_cl previous_preiod_start start_period in
  let tx_in_period := tx_in_period_of df_tx start_period end_period in
  let cl_left := cl_left_of CS (clients_with_buy_of tx_in_period) in
  let CN := CN_of df_cl start_period end_period in
  ccr_report df_tx df_cl previous_preiod_start start_period end_period w
  = (Ok tt,
     with_stdout w
       (stdout w
        ++ [PeriodLine start_period end_period;
            CountLine "Clients at period start:" (pd.len CS);
            CountLine "Clients left:" (pd.len cl_left);
            CountLine "Clients new:" (pd.len CN);
            CountLine "Transactions in period:" (pd.len tx_in_period)]
        ++ [if pd.len CS =? 0
            then Text "No client no period start. May be no data? Skip period"
            else CRRLine (inject_Z (pd.len CS - pd.len cl_left)
                          / inject_Z (pd.len CS))%Q])).
Proof.
  cbv zeta. unfold ccr_report, bind. rewrite !print_run. cbn [stdout with_stdout].
  destruct (pd.len (CS_of df_cl previous_preiod_start start_period) =? 0) eqn:E.
  - rewrite print_run. unfold with_stdout. cbn [stdout net transactions_feater
      clients_feater]. rewrite <- !app_assoc. reflexivity.
  - unfold truediv, lift. rewrite E. rewrite print_run. unfold with_stdout.
    cbn [stdout net transactions_feater clients_feater].
    rewrite <- !app_assoc. reflexivity.
Qed.

Lemma command_ccr_run (fuel : nat) (api_key : option string) (unload_data : bool)
    (start_period end_period d : date) df_tx df_cl w w1 :
  Date.ltb start_period end_period = true ->
  Date.sub_days start_period (Date.sub end_period start_period) = Ok d ->
  ccr_frames fuel api_key unload_data (to_dtime (D d)) end_period w
  = (Ok (df_tx, df_cl), w1) ->
  command_ccr fuel api_key unload_data start_period end_period w
  = ccr_report df_tx df_cl (to_dtime (D d)) start_period end_period w1.
Proof.
  intros Hlt Hd Hf. unfold command_ccr, bind at 1 2 3, assert, lift.
  rewrite Hlt. cbn [ret]. rewrite Hd. rewrite Hf. reflexivity.
Qed.

Lemma command_ccr_no_zero_division (fuel : nat) (api_key : option string)
    (unload_data : bool) (start_period end_period : date) :
  no_zero_division (command_ccr fuel api_key unload_data start_period end_period).
Proof.
  apply no_zero_division_bind; [apply no_zero_division_assert|intros _].
  apply no_zero_division_bind.
  - apply no_zero_division_lift. unfold sub_days, add_days.
    destruct ((0 <? _) && _); discriminate.
  - intros d. apply no_zero_division_bind; [apply no_zero_division_ccr_frames|].
    intros [df_tx df_cl] w. rewrite ccr_report_run. discriminate.
Qed.

End ReportFacts.


(** ** Calendar arithmetic *)

Lemma ord2ymd_split (o : Z) :
  ord2ymd o = ord2ymd_tail ((o - 1) / DI400Y) ((o - 1) mod DI400Y).
Proof. reflexivity. Qed.

Lemma ord2ymd_tail_shift (q r k : Z) :
  ord2ymd_tail (q + k) r = shift_years (ord2ymd_tail q r) (400 * k).
Proof.
  unfold ord2ymd_tail, shift_years. cbv zeta.
  destruct ((r mod DI100Y mod DI4Y / 365 =? 4) || (r / DI100Y =? 4)).
  - cbn [year month day]. f_equal. lia.
  - destruct (r mod DI100Y mod DI4Y mod 365 <? _);
      cbn [year month day]; f_equal; lia.
Qed.

Lemma ord2ymd_period (o k : Z) :
  ord2ymd (o + DI400Y * k) = shift_years (ord2ymd o) (400 * k).
Proof.
  rewrite !ord2ymd_split.
  replace (o + DI400Y * k - 1) with (o - 1 + k * DI400Y) by lia.
  rewrite Z.div_add, Z.mod_add by (unfold DI400Y; lia).
  apply ord2ymd_tail_shift.
Qed.

Lemma is_leap_period (y k : Z) : is_leap (y + 400 * k) = is_leap y.
Proof.
  assert (H4 : (y + 400 * k) mod 4 = y mod 4).
  { replace (y + 400 * k) with (y + (100 * k) * 4) by lia.
    apply Z.mod_add. lia. }
  assert (H100 : (y + 400 * k) mod 100 = y mod 100).
  { replace (y + 400 * k) with (y + (4 * k) * 100) by lia.
    apply Z.mod_add. lia. }
  assert (H400 : (y + 400 * k) mod 400 = y mod 400).
  { replace (y + 400 * k) with (y + k * 400) by lia.
    apply Z.mod_add. lia. }
  unfold is_leap. now rewrite H4, H100, H400.
Qed.

Lemma days_before_year_period (y k : Z) :
  days_before_year (y + 400 * k) = days_before_year y + DI400Y * k.
Proof.
  unfold days_before_year, DI400Y. cbv zeta.
  replace ((y + 400 * k - 1) / 4) with ((y - 1 + (100 * k) * 4) / 4)
    by (f_equal; lia).
  replace ((y + 400 * k - 1) / 100) with ((y - 1 + (4 * k) * 100) / 100)
    by (f_equal; lia).
  replace ((y + 400 * k - 1) / 400) with ((y - 1 + k * 400) / 400)
    by (f_equal; lia).
  rewrite !Z.div_add by lia. lia.
Qed.

Lemma ymd2ord_period (y m d k : Z) :
  ymd2ord (y + 400 * k) m d = ymd2ord y m d + DI400Y * k.
Proof.
  unfold ymd2ord, days_before_month.
  rewrite days_before_year_period, is_leap_period. lia.
Qed.

Lemma toordinal_shift (dt : date) (k : Z) :
  toordinal (shift_years dt (400 * k)) = toordinal dt + DI400Y * k.
Proof. unfold toordinal, shift_years. cbn [year month day]. apply ymd2ord_period. Qed.

Lemma check_range_sound (test : Z -> bool) (bits : nat) :
  forall lo, check_range test bits lo = true ->
             forall o, lo <= o < lo + 2 ^ Z.of_nat bits -> test o = true.
Proof.
  induction bits as [|b IH]; intros lo Hc o Ho.
  - simpl in *. replace o with lo by lia. exact Hc.
  - cbn [check_range] in Hc. apply andb_prop in Hc as [H1 H2].
    rewrite Nat2Z.inj_succ, Z.pow_succ_r in Ho by lia.
    destruct (Z_lt_dec o (lo + 2 ^ Z.of_nat b)) as [Hlt|Hge].
    + apply (IH lo H1). lia.
    + apply (IH _ H2). lia.
Qed.

Lemma month_ok_spec (i : Z) :
  month_ok i = true ->
  ord2ymd (ymd2ord (i / 12 + 1) (i mod 12 + 1) 1)
  = {| year := i / 12 + 1; month := i mod 12 + 1; day := 1 |}.
Proof.
  unfold month_ok. cbv zeta.
  generalize (ord2ymd (ymd2ord (i / 12 + 1) (i mod 12 + 1) 1)).
  generalize (i / 12 + 1) (i mod 12 + 1). intros y m [yy mm dd].
  cbn [year month day]. intros Hc.
  apply andb_prop in Hc as [Hc Hd]. apply andb_prop in Hc as [Hcy Hcm].
  apply Z.eqb_eq in Hcy, Hcm, Hd. congruence.
Qed.

(** The first day of every month of one 400-year cycle is found again from
    its ordinal. *)
Lemma month_starts_cycle :
  check_range (fun i => negb (i <? 4800) || month_ok i) 13 0 = true.
Proof. vm_compute. reflexivity. Qed.

Lemma month_starts_cycle_sound (i : Z) : 0 <= i < 4800 -> month_ok i = true.
Proof.
  intros Hi.
  assert (Hr : 0 <= i < 0 + 2 ^ Z.of_nat 13) by (simpl; lia).
  pose proof (check_range_sound _ 13 0 month_starts_cycle i Hr) as Hc.
  cbv beta in Hc.
  apply orb_prop in Hc as [Hc|Hc]; [|exact Hc].
  apply negb_true_iff, Z.ltb_ge in Hc. lia.
Qed.

Lemma ord2ymd_month_start (y m : Z) :
  1 <= m <= 12 ->
  ord2ymd (ymd2ord y m 1) = {| year := y; month := m; day := 1 |}.
Proof.
  intros Hm.
  set (k := (y - 1) / 400). set (y0 := (y - 1) mod 400 + 1).
  assert (Hy : y = y0 + 400 * k).
  { unfold y0, k. pose proof (Z.div_mod (y - 1) 400 ltac:(lia)). lia. }
  assert (Hy0 : 1 <= y0 <= 400).
  { unfold y0. pose proof (Z.mod_pos_bound (y - 1) 400 ltac:(lia)). lia. }
  clearbody y0 k. subst y.
  rewrite ymd2ord_period, ord2ymd_period.
  assert (Hq : (12 * (y0 - 1) + (m - 1)) / 12 = y0 - 1)
    by (symmetry; apply (Z.div_unique _ 12 _ (m - 1)); lia).
  assert (Hr : (12 * (y0 - 1) + (m - 1)) mod 12 = m - 1)
    by (symmetry; apply (Z.mod_unique _ 12 (y0 - 1)); lia).
  assert (Hi : 0 <= 12 * (y0 - 1) + (m - 1) < 4800) by lia.
  pose proof (month_ok_spec _ (month_starts_cycle_sound _ Hi)) as Hc.
  rewrite Hq, Hr in Hc.
  replace (y0 - 1 + 1) with y0 in Hc by lia.
  replace (m - 1 + 1) with m in Hc by lia.
  rewrite Hc. reflexivity.
Qed.

Lemma days_before_year_succ (y : Z) :
  days_before_year (y + 1)
  = days_before_year y + 365 + (if is_leap y then 1 else 0).
Proof.
  unfold days_before_year, is_leap. cbv zeta.
  replace (y + 1 - 1) with y by lia.
  destruct (Z.eqb_spec (y mod 4) 0) as [H4|H4];
    destruct (Z.eqb_spec (y mod 100) 0) as [H100|H100];
    destruct (Z.eqb_spec (y mod 400) 0) as [H400|H400];
    cbn [negb orb andb]; Z.div_mod_to_equations; lia.
Qed.

Ltac month_table :=
  match goal with
  | |- ?b + ?A + 1 + ?B = ?b + ?C + 1 =>
      let Heq := fresh in
      assert (Heq : A + B = C) by (vm_compute; reflexivity); lia
  end.

(** Adding the length of a month to its first day gives the first day of
    the next month. *)
Lemma month_start_plus_length (y m : Z) :
  1 <= m <= 12 ->
  ymd2ord y m 1 + monthrange_ndays y m
  = toordinal (next_month {| year := y; month := m; day := 1 |}).
Proof.
  intros Hm. unfold next_month, toordinal, ymd2ord. cbn [year month day].
  destruct (Z.eqb_spec m 12) as [->|Hne]; cbn [year month day].
  - rewrite days_before_year_succ. unfold days_before_month, monthrange_ndays.
    cbn. destruct (is_leap y), (is_leap (y + 1)); lia.
  - unfold days_before_month, monthrange_ndays.
    assert (Hcases : m = 1 \/ m = 2 \/ m = 3 \/ m = 4 \/ m = 5 \/ m = 6 \/
                     m = 7 \/ m = 8 \/ m = 9 \/ m = 10 \/ m = 11) by lia.
    destruct (is_leap y);
      repeat (destruct Hcases as [->|Hcases]; [month_table|]); subst;
      month_table.
Qed.

Lemma monthrange_days_in_month (y m : Z) :
  monthrange_ndays y m = days_in_month y m.
Proof.
  unfold monthrange_ndays, days_in_month.
  destruct (Z.eqb_spec m 2) as [->|Hne]; cbn [andb]; [|lia].
  destruct (is_leap y); reflexivity.
Qed.

Lemma days_before_year_bounds (y : Z) :
  1 <= y <= 9999 -> 0 <= days_before_year y <= 3651694.
Proof.
  intros Hy. unfold days_before_year. cbv zeta.
  Z.div_mod_to_equations. lia.
Qed.

Lemma month_start_ordinal_bounds (y m : Z) :
  1 <= y <= 9999 -> 1 <= m <= 12 -> 0 < ymd2ord y m 1 <= MAXORDINAL.
Proof.
  intros Hy Hm. pose proof (days_before_year_bounds y Hy) as Hb.
  unfold ymd2ord, days_before_month, MAXORDINAL.
  assert (Ht : 0 <= days_before_month_table m <= 334).
  { assert (Hcases : m = 1 \/ m = 2 \/ m = 3 \/ m = 4 \/ m = 5 \/ m = 6 \/
                     m = 7 \/ m = 8 \/ m = 9 \/ m = 10 \/ m = 11 \/ m = 12)
      by lia.
    repeat (destruct Hcases as [->|Hcases];
            [unfold days_before_month_table; lia|]).
    subst. unfold days_before_month_table. lia. }
  destruct ((2 <? m) && is_leap y); lia.
Qed.

Lemma next_month_start (d : date) :
  month_start d -> ~ (year d = 9999 /\ month d = 12) ->
  month_start (next_month d).
Proof.
  intros (Hy & Hm & Hd) Hlast. unfold next_month, month_start.
  destruct (Z.eqb_spec (month d) 12); cbn [year month day]; lia.
Qed.

Lemma add_days_month_start (d : date) :
  month_start d -> ~ (year d = 9999 /\ month d = 12) ->
  Date.add_days d (monthrange_ndays (year d) (month d)) = Ok (next_month d).
Proof.
  intros Hs Hlast. pose proof (next_month_start d Hs Hlast) as Hn.
  destruct Hs as (Hy & Hm & Hd). unfold Date.add_days, toordinal.
  rewrite Hd, (month_start_plus_length _ _ Hm).
  replace {| year := year d; month := month d; day := 1 |} with d
    by (destruct d; cbn in *; congruence).
  destruct Hn as (Hy' & Hm' & Hd').
  pose proof (month_start_ordinal_bounds _ _ Hy' Hm') as Hb.
  unfold toordinal. rewrite Hd'.
  replace ((0 <? _) && _) with true
    by (symmetry; apply andb_true_intro; split;
        [apply Z.ltb_lt|apply Z.leb_le]; unfold MAXORDINAL in *; lia).
  rewrite (ord2ymd_month_start _ _ Hm'). f_equal.
  destruct (next_month d); cbn in *; congruence.
Qed.

Lemma add_days_month_start_overflow (d : date) :
  month_start d -> year d = 9999 -> month d = 12 ->
  Date.add_days d (monthrange_ndays (year d) (month d)) = Raise OverflowError.
Proof.
  intros (Hy & Hm & Hd) Hy9 Hm12. unfold Date.add_days, toordinal.
  rewrite Hd, Hy9, Hm12. reflexivity.
Qed.

(** ** The monthly stepper *)

Lemma ltb_month_index (a e : date) :
  month_start a -> 1 <= month e <= 12 ->
  (Date.ltb a e = true <->
   month_index a < month_index e + (if 1 <? day e then 1 else 0)).
Proof.
  intros (Hy & Hm & Hd) Hme. unfold Date.ltb, month_index. rewrite Hd.
  destruct (Z.ltb_spec (year a) (year e)); cbn [orb].
  { split; [|reflexivity]. intros _. destruct (1 <? day e); lia. }
  destruct (Z.eqb_spec (year a) (year e)); cbn [andb].
  2: { split; [discriminate|]. destruct (1 <? day e); lia. }
  destruct (Z.ltb_spec (month a) (month e)); cbn [orb].
  { split; [|reflexivity]. intros _. destruct (1 <? day e); lia. }
  destruct (Z.eqb_spec (month a) (month e)); cbn [andb].
  2: { split; [discriminate|]. destruct (1 <? day e); lia. }
  destruct (1 <? day e); split; try discriminate; try reflexivity; lia.
Qed.

Lemma month_index_next (d : date) :
  month_index (next_month d) = month_index d + 1.
Proof.
  unfold next_month, month_index.
  destruct (Z.eqb_spec (month d) 12); cbn [year month day]; lia.
Qed.

Lemma bind_ext {S A B} (c : M S A) (k1 k2 : A -> M S B) (s : S) :
  (forall a s', k1 a s' = k2 a s') -> bind c k1 s = bind c k2 s.
Proof.
  intros Hk. unfold bind. destruct (c s) as [[a|e|] s']; auto.
Qed.

Section StepperFacts.
Context {Net : Type}.
Variable ccr : option string -> bool -> date -> date -> M (World Net) unit.
Variables (api_key : option string) (unload_data : bool) (end_period : date).
Hypothesis end_month : 1 <= month end_period <= 12.

Variable bound : Z.
Hypothesis bound_eq :
  bound = month_index end_period + (if 1 <? day end_period then 1 else 0).

Lemma monthly_loop_plan (n : nat) :
  forall (fuel : nat) (s : date) (w : World Net),
    month_start s -> (n <= fuel)%nat ->
    n = Z.to_nat (bound - month_index s) ->
    bound <= 12 * 9999 + 11 ->
    monthly_loop ccr fuel api_key unload_data s end_period w
    = run_periods ccr api_key unload_data (plan_from n s) w.
Proof.
  induction n as [|n IH]; intros fuel s w Hs Hfuel Hn Hb.
  - assert (Hlt : Date.ltb s end_period = false).
    { destruct (Date.ltb s end_period) eqn:E; [|reflexivity].
      apply (ltb_month_index s end_period Hs end_month) in E.
      rewrite <- bound_eq in E. lia. }
    destruct fuel; simpl; rewrite Hlt; reflexivity.
  - assert (Hlt : Date.ltb s end_period = true).
    { apply (ltb_month_index s end_period Hs end_month).
      rewrite <- bound_eq. lia. }
    destruct fuel as [|fuel]; [lia|].
    assert (Hlast : ~ (year s = 9999 /\ month s = 12)).
    { intros [Hy Hm]. unfold month_index in Hn. lia. }
    cbn [monthly_loop plan_from run_periods]. rewrite Hlt.
    rewrite (add_days_month_start s Hs Hlast).
    unfold bind at 1, lift.
    apply bind_ext. intros _ w1. apply bind_ext. intros _ w2.
    apply bind_ext. intros _ w3.
    apply IH; [now apply next_month_start|lia| |exact Hb].
    rewrite month_index_next. lia.
Qed.

End StepperFacts.

Lemma plan_from_periods (n : nat) :
  forall (s a b : date),
    month_start s -> month_index s + Z.of_nat n <= 12 * 9999 + 11 ->
    In (a, b) (plan_from n s) ->
    month_start a /\ b = next_month a
    /\ month_index s <= month_index a < month_index s + Z.of_nat n.
Proof.
  induction n as [|n IH]; intros s a b Hs Hb Hin; [destruct Hin|].
  destruct Hin as [Heq|Hin].
  - injection Heq as <- <-. repeat split; try apply Hs; lia.
  - assert (Hlast : ~ (year s = 9999 /\ month s = 12)).
    { intros [Hy Hm]. unfold month_index in Hb. lia. }
    apply IH in Hin; [|now apply next_month_start|rewrite month_index_next; lia].
    rewrite month_index_next in Hin. intuition lia.
Qed.

Lemma plan_from_last (n : nat) :
  forall (s : date),
    exists a, last (plan_from (S n) s) = Some (a, next_month a)
              /\ month_index a = month_index s + Z.of_nat n.
Proof.
  induction n as [|n IH]; intros s.
  - exists s. split; [reflexivity|lia].
  - destruct (IH (next_month s)) as (a & Hl & Hi).
    exists a. split.
    + change (plan_from (S (S n)) s)
        with ((s, next_month s) :: plan_from (S n) (next_month s)).
      rewrite last_cons, Hl. reflexivity.
    + rewrite Hi, month_index_next. lia.
Qed.

Lemma plan_from_chain (n : nat) :
  forall (s : date) (i : nat) (p q : date * date),
    plan_from n s !! i = Some p -> plan_from n s !! S i = Some q ->
    fst q = snd p.
Proof.
  induction n as [|n IH]; intros s i p q Hp Hq; [discriminate|].
  destruct i as [|i].
  - cbn in Hp. injection Hp as <-. destruct n; [discriminate|].
    cbn in Hq. injection Hq as <-. reflexivity.
  - cbn in Hp, Hq. exact (IH _ _ _ _ Hp Hq).
Qed.

Lemma sub_next_month (a : date) :
  month_start a ->
  Date.sub (next_month a) a = days_in_month (year a) (month a).
Proof.
  intros (Hy & Hm & Hd). unfold Date.sub.
  replace a with {| year := year a; month := month a; day := 1 |} at 1
    by (destruct a; cbn in *; congruence).
  rewrite <- (month_start_plus_length _ _ Hm), monthrange_days_in_month.
  unfold toordinal. rewrite Hd. lia.
Qed.

Lemma valid_spec (d : date) :
  Date.valid d = true ->
  1 <= year d <= 9999 /\ 1 <= month d <= 12
  /\ 1 <= day d <= days_in_month (year d) (month d).
Proof.
  unfold Date.valid, MINYEAR, MAXYEAR. intros Hv.
  repeat (apply andb_prop in Hv as [Hv ?]).
  repeat match goal with
         | H : (_ <=? _) = true |- _ => apply Z.leb_le in H
         end.
  lia.
Qed.

Lemma ltb_lex (a b : date) :
  Date.ltb a b = true <->
  year a < year b
  \/ (year a = year b
      /\ (month a < month b \/ (month a = month b /\ day a < day b))).
Proof.
  unfold Date.ltb.
  destruct (Z.ltb_spec (year a) (year b)),
           (Z.eqb_spec (year a) (year b)),
           (Z.ltb_spec (month a) (month b)),
           (Z.eqb_spec (month a) (month b)),
           (Z.ltb_spec (day a) (day b)); cbn [andb orb];
    split; intros; try discriminate; try reflexivity; lia.
Qed.

Lemma monthly_bound (start_period end_period : date) :
  Date.valid start_period = true -> Date.valid end_period = true ->
  Date.ltb start_period end_period = true ->
  Date.ltb {| year := 9999; month := 12; day := 1 |} end_period = false ->
  let bound := month_index end_period
               + (if 1 <? day end_period then 1 else 0) in
  month_index (Date.replace_day1 start_period) < bound <= 12 * 9999 + 11.
Proof.
  intros Hvs Hve Hlt Hmax. cbv zeta.
  apply valid_spec in Hvs as (Hys & Hms & Hds).
  apply valid_spec in Hve as (Hye & Hme & Hde).
  apply ltb_lex in Hlt.
  assert (Hmax' : ~ Date.ltb {| year := 9999; month := 12; day := 1 |}
                      end_period = true) by congruence.
  rewrite ltb_lex in Hmax'. cbn [year month day] in Hmax'.
  unfold month_index, Date.replace_day1. cbn [year month day].
  destruct (Z.ltb_spec 1 (day end_period)); lia.
Qed.

(** C8.  For dates [start_period < end_period] with [end_period] no later
    than 9999-12-01, and fuel for every month, the monthly stepper visits
    exactly the periods of [monthly_plan], in order, with any callee: the
    first period starts on the first day of the month of [start_period];
    every period runs from the first day of a month to the first day of
    the next, which is its start plus the true length of that month; each
    period starts where the previous one ended and before [end_period];
    the last period ends on or after [end_period], unclipped.  The plan of
    2024-01-15 .. 2024-03-01 is January and February 2024. *)
Theorem command_ccr_step_monthly_plan {Net}
    (ccr : option string -> bool -> date -> date -> M (World Net) unit)
    (fuel : nat) (api_key : option string) (unload_data : bool)
    (start_period end_period : date) (w : World Net) :
  Date.valid start_period = true -> Date.valid end_period = true ->
  Date.ltb start_period end_period = true ->
  Date.ltb {| year := 9999; month := 12; day := 1 |} end_period = false ->
  (months_to_visit start_period end_period <= fuel)%nat ->
  let first := Date.replace_day1 start_period in
  let plan := monthly_plan start_period end_period in
  command_ccr_step_monthly ccr fuel api_key unload_data start_period end_period w
  = run_periods ccr api_key unload_data plan w
  /\ (exists rest, plan = (first, next_month first) :: rest)
  /\ (forall a b, In (a, b) plan ->
        day a = 1 /\ b = next_month a
        /\ Date.add_days a (Date.monthrange_ndays (year a) (month a)) = Ok b
        /\ Date.sub b a = days_in_month (year a) (month a)
        /\ Date.ltb a end_period = true)
  /\ (forall i p q, plan !! i = Some p -> plan !! S i = Some q -> fst q = snd p)
  /\ (exists a b, last plan = Some (a, b) /\ Date.ltb b end_period = false)
  /\ monthly_plan {| year := 2024; month := 1; day := 15 |}
                  {| year := 2024; month := 3; day := 1 |}
     = [({| year := 2024; month := 1; day := 1 |},
         {| year := 2024; month := 2; day := 1 |});
        ({| year := 2024; month := 2; day := 1 |},
         {| year := 2024; month := 3; day := 1 |})].
Proof.
  intros Hvs Hve Hlt Hmax Hfuel. cbv zeta.
  pose proof (monthly_bound _ _ Hvs Hve Hlt Hmax) as Hb. cbv zeta in Hb.
  pose proof (valid_spec _ Hvs) as (Hys & Hms & Hds).
  pose proof (valid_spec _ Hve) as (Hye & Hme & Hde).
  assert (Hfirst : month_start (Date.replace_day1 start_period)).
  { unfold month_start, Date.replace_day1. cbn [year month day]. lia. }
  assert (Hidx : month_index (Date.replace_day1 start_period)
                 = month_index start_period) by reflexivity.
  assert (Hn : Z.of_nat (months_to_visit start_period end_period)
               = month_index end_period
                 + (if 1 <? day end_period then 1 else 0)
                 - month_index start_period).
  { unfold months_to_visit. rewrite Z2Nat.id; lia. }
  assert (Hend : month_index (Date.replace_day1 start_period)
                 + Z.of_nat (months_to_visit start_period end_period)
                 <= 12 * 9999 + 11) by lia.
  split; [|split; [|split; [|split; [|split]]]].
  - unfold command_ccr_step_monthly, monthly_plan.
    apply (monthly_loop_plan ccr api_key unload_data end_period Hme _ eq_refl);
      auto; try lia.
  - unfold monthly_plan.
    destruct (months_to_visit start_period end_period) as [|n] eqn:En; [lia|].
    eexists. reflexivity.
  - intros a b Hin. unfold monthly_plan in Hin.
    destruct (plan_from_periods _ _ _ _ Hfirst Hend Hin) as (Ha & -> & Hia).
    assert (Hlast : ~ (year a = 9999 /\ month a = 12)).
    { intros [Hy Hm]. unfold month_index in *. lia. }
    split; [apply Ha|]. split; [reflexivity|].
    split; [now apply add_days_month_start|].
    split; [now apply sub_next_month|].
    apply (ltb_month_index a end_period Ha Hme). lia.
  - intros i p q. apply plan_from_chain.
  - unfold monthly_plan.
    destruct (months_to_visit start_period end_period) as [|n] eqn:En; [lia|].
    destruct (plan_from_last n (Date.replace_day1 start_period))
      as (a & Hl & Hi).
    exists a, (next_month a). split; [exact Hl|].
    assert (Hin : In (a, next_month a)
                    (plan_from (S n) (Date.replace_day1 start_period))).
    { apply last_Some in Hl as [l' Hl']. rewrite Hl'.
      apply in_or_app. right. now left. }
    destruct (plan_from_periods _ _ _ _ Hfirst Hend Hin) as (Ha & _ & Hia).
    assert (Hlast : ~ (year a = 9999 /\ month a = 12)).
    { intros [Hy Hm]. unfold month_index in *. lia. }
    pose proof (next_month_start a Ha Hlast) as Hnext.
    destruct (Date.ltb (next_month a) end_period) eqn:E; [|reflexivity].
    apply (ltb_month_index _ end_period Hnext Hme) in E.
    rewrite month_index_next in E. lia.
  - reflexivity.
Qed.


Lemma command_ccr_step_monthly_plan_witness :
  command_ccr_step_monthly show_period 5 None false
    (ymd 2024 1 15) (ymd 2024 3 1) example_world
  = (Ok tt,
     with_stdout example_world
       [MonthLine 1 2024; PeriodLine (ymd 2024 1 1) (ymd 2024 2 1); Blank;
        MonthLine 2 2024; PeriodLine (ymd 2024 2 1) (ymd 2024 3 1); Blank]).
Proof.
  destruct (command_ccr_step_monthly_plan show_period 5 None false
              (ymd 2024 1 15) (ymd 2024 3 1) example_world
              eq_refl eq_refl eq_refl eq_refl) as (Hrun & _).
  - vm_compute. lia.
  - rewrite Hrun. reflexivity.
Defined.

(** ** [command_ccr] *)

(** C9.  A call with [start_period >= end_period] fails its opening
    assertion: it raises [AssertionError] and leaves the remote side, both
    feather files and the output exactly as they were. *)
Theorem command_ccr_rejects_invalid_period `{Pydantic} `{Dtypes} {Net} `{Requests Net}
    (fuel : nat) (api_key : option string) (unload_data : bool)
    (start_period end_period : date) (w : World Net) :
  Date.ltb start_period end_period = false ->
  command_ccr fuel api_key unload_data start_period end_period w
  = (Raise AssertionError, w).
Proof.
  intros Hge. unfold command_ccr, bind, assert. rewrite Hge. reflexivity.
Qed.

Lemma command_ccr_rejects_invalid_period_witness :
  Date.ltb (ymd 2024 3 1) (ymd 2024 3 1) = false
  /\ @command_ccr strict_pydantic numpy unit offline 7 (Some "key"%string) true
       (ymd 2024 3 1) (ymd 2024 3 1) example_world
     = (Raise AssertionError, example_world).
Proof.
  split; [reflexivity|].
  exact (@command_ccr_rejects_invalid_period strict_pydantic numpy unit offline 7
           (Some "key"%string) true (ymd 2024 3 1) (ymd 2024 3 1)
           example_world eq_refl).
Defined.

(** C7.  Once both frames are loaded for a period with
    [start_period < end_period], [command_ccr] returns normally.  Its last
    line is the skip notice when the cohort at the start is empty, and
    otherwise the rate [(|CS| - |cl_left|) / |CS|], an exact quotient.
    No run of [command_ccr] raises [ZeroDivisionError]. *)
Theorem command_ccr_rate `{Pydantic} `{Dtypes} {Net} `{Requests Net}
    (fuel : nat) (api_key : option string) (unload_data : bool)
    (start_period end_period d : date)
    (df_tx : pd.DataFrame TxCols.t) (df_cl : pd.DataFrame ClCols.t)
    (w w1 : World Net) :
  Date.ltb start_period end_period = true ->
  Date.sub_days start_period (Date.sub end_period start_period) = Ok d ->
  ccr_frames fuel api_key unload_data (to_dtime (D d)) end_period w
  = (Ok (df_tx, df_cl), w1) ->
  let CS := CS_of df_cl (to_dtime (D d)) start_period in
  let tx_in_period := tx_in_period_of df_tx start_period end_period in
  let cl_left := cl_left_of CS (clients_with_buy_of tx_in_period) in
  let CN := CN_of df_cl start_period end_period in
  command_ccr fuel api_key unload_data start_period end_period w
  = (Ok tt,
     with_stdout w1
       (stdout w1
        ++ [PeriodLine start_period end_period;
            CountLine "Clients at period start:" (pd.len CS);
            CountLine "Clients left:" (pd.len cl_left);
            CountLine "Clients new:" (pd.len CN);
            CountLine "Transactions in period:" (pd.len tx_in_period)]
        ++ [if pd.len CS =? 0
            then Text "No client no period start. May be no data? Skip period"
            else CRRLine (inject_Z (pd.len CS - pd.len cl_left)
                          / inject_Z (pd.len CS))%Q]))
  /\ (CS = [] <-> pd.len CS = 0)
  /\ (forall fuel' api_key' unload_data' start_period' end_period'
             (w' : World Net),
        fst (command_ccr fuel' api_key' unload_data' start_period'
               end_period' w') <> Raise ZeroDivisionError).
Proof.
  intros Hlt Hd Hf. cbv zeta. split; [|split].
  - rewrite (command_ccr_run _ _ _ _ _ _ _ _ _ _ Hlt Hd Hf).
    apply ccr_report_run.
  - apply len_zero.
  - intros. apply command_ccr_no_zero_division.
Qed.

Lemma command_ccr_rate_witness :
  @command_ccr strict_pydantic numpy unit offline 0 None false
    (ymd 2024 2 1) (ymd 2024 3 1) example_world
  = (Ok tt,
     with_stdout example_world
       [PeriodLine (ymd 2024 2 1) (ymd 2024 3 1);
        CountLine "Clients at period start:" 2;
        CountLine "Clients left:" 1;
        CountLine "Clients new:" 1;
        CountLine "Transactions in period:" 1;
        CRRLine (inject_Z (2 - 1) / inject_Z 2)%Q]).
Proof.
  destruct (@command_ccr_rate strict_pydantic numpy unit offline 0 None false
              (ymd 2024 2 1) (ymd 2024 3 1) (ymd 2024 1 3)
              example_transactions example_clients example_world example_world
              eq_refl eq_refl eq_refl) as (Hrun & _).
  rewrite Hrun. reflexivity.
Defined.

(** ** Ordinals and dates *)

(** Every ordinal of one 400-year cycle is the ordinal of its date. *)
Lemma ordinals_cycle :
  check_range (fun o => negb ((1 <=? o) && (o <=? 146097)) || ordinal_ok o)
    18 0 = true.
Proof. vm_compute. reflexivity. Qed.

Lemma ordinals_cycle_sound (o : Z) :
  1 <= o <= 146097 -> toordinal (ord2ymd o) = o.
Proof.
  intros Ho.
  assert (Hr : 0 <= o < 0 + 2 ^ Z.of_nat 18) by (simpl; lia).
  pose proof (check_range_sound _ 18 0 ordinals_cycle o Hr) as Hc.
  cbv beta in Hc.
  assert (Hok : ordinal_ok o = true).
  { apply orb_prop in Hc as [Hc|Hc]; [|exact Hc].
    apply negb_true_iff, andb_false_iff in Hc as [Hc|Hc];
      apply Z.leb_gt in Hc; lia. }
  revert Hok. unfold ordinal_ok. generalize (toordinal (ord2ymd o)).
  intros x Hx. now apply Z.eqb_eq.
Qed.

Lemma toordinal_ord2ymd (o : Z) : toordinal (ord2ymd o) = o.
Proof.
  set (k := (o - 1) / 146097). set (o0 := (o - 1) mod 146097 + 1).
  assert (Ho : o = o0 + DI400Y * k).
  { unfold o0, k, DI400Y. pose proof (Z.div_mod (o - 1) 146097 ltac:(lia)).
    lia. }
  assert (Ho0 : 1 <= o0 <= 146097).
  { unfold o0. pose proof (Z.mod_pos_bound (o - 1) 146097 ltac:(lia)). lia. }
  clearbody o0 k. subst o.
  rewrite ord2ymd_period, toordinal_shift. f_equal.
  now apply ordinals_cycle_sound.
Qed.

(** The date [sub_days] returns lies the given number of days back. *)
Lemma sub_days_ordinal (a d : date) (n : Z) :
  Date.sub_days a n = Ok d -> toordinal d = toordinal a - n.
Proof.
  unfold Date.sub_days, Date.add_days.
  destruct ((0 <? _) && _); [|discriminate].
  intros Hd. injection Hd as <-. rewrite toordinal_ord2ymd. lia.
Qed.

Lemma In_window_filter {C} (f : C -> datetime) (df : pd.DataFrame C)
    (lo hi : datetime) (r : Z * C) :
  In r (List.filter (fun r => in_window lo hi (f (snd r))) df)
  <-> In r df /\ lo <= f (snd r) < hi.
Proof.
  rewrite filter_In. unfold in_window. rewrite andb_true_iff.
  rewrite Z.leb_le, Z.ltb_lt. tauto.
Qed.

Lemma In_spec_cl_left (CS : pd.DataFrame ClCols.t)
    (txs : pd.DataFrame TxCols.t) (c : Z * ClCols.t) :
  In c (spec_cl_left CS txs)
  <-> In c CS /\ ~ exists t, In t txs /\ TxCols.client_id (snd t) = fst c.
Proof.
  unfold spec_cl_left. rewrite filter_In, negb_true_iff.
  split; intros [Hc Hn]; split; try exact Hc.
  - intros (t & Ht & He).
    assert (Hex : existsb (fun t => TxCols.client_id (snd t) =? fst c) txs
                  = true).
    { apply existsb_exists. exists t. split; [exact Ht|now apply Z.eqb_eq]. }
    congruence.
  - destruct (existsb _ txs) eqn:E; [|reflexivity].
    apply existsb_exists in E as (t & Ht & He). apply Z.eqb_eq in He.
    exfalso. apply Hn. eauto.
Qed.

(** C3.  For a period with [start_period < end_period] whose look-back
    start [start - (end - start)] is a representable date, and the two
    loaded frames: the look-back window is as long as the period; [CS] is
    exactly the clients activated in [lookbackStart, start); the
    transactions in the period are exactly those closed in [start, end);
    the buyers are their distinct [client_id] values; [cl_left] is exactly
    the members of [CS] whose id is not a buyer; [CN] is exactly the
    clients activated in [start, end); rows keep their order; and the
    report prints the sizes of these sets. *)
Theorem command_ccr_cohorts `{Pydantic} `{Dtypes} {Net} `{Requests Net}
    (fuel : nat) (api_key : option string) (unload_data : bool)
    (start_period end_period d : date)
    (df_tx : pd.DataFrame TxCols.t) (df_cl : pd.DataFrame ClCols.t)
    (w w1 : World Net) :
  Date.ltb start_period end_period = true ->
  Date.sub_days start_period (Date.sub end_period start_period) = Ok d ->
  ccr_frames fuel api_key unload_data (to_dtime (D d)) end_period w
  = (Ok (df_tx, df_cl), w1) ->
  let lookbackStart := to_dtime (D d) in
  let t_start := to_dtime (D start_period) in
  let t_end := to_dtime (D end_period) in
  let CS := CS_of df_cl lookbackStart start_period in
  let tx_in_period := tx_in_period_of df_tx start_period end_period in
  let clients_with_buy := clients_with_buy_of tx_in_period in
  let cl_left := cl_left_of CS clients_with_buy in
  let CN := CN_of df_cl start_period end_period in
  lookbackStart = t_start - (t_end - t_start)
  /\ CS = spec_CS df_cl lookbackStart t_start
  /\ (forall c, In c CS <->
                In c df_cl /\ lookbackStart <= ClCols.activated_at (snd c) < t_start)
  /\ tx_in_period = spec_tx_in_period df_tx t_start t_end
  /\ (forall t, In t tx_in_period <->
                In t df_tx /\ t_start <= TxCols.closed_at (snd t) < t_end)
  /\ List.NoDup clients_with_buy
  /\ (forall k, In k clients_with_buy <->
                exists t, In t tx_in_period /\ TxCols.client_id (snd t) = k)
  /\ cl_left = spec_cl_left CS tx_in_period
  /\ (forall c, In c cl_left <-> In c CS /\ ~ In (fst c) clients_with_buy)
  /\ CN = spec_CN df_cl t_start t_end
  /\ (forall c, In c CN <->
                In c df_cl /\ t_start <= ClCols.activated_at (snd c) < t_end)
  /\ exists last_line,
      command_ccr fuel api_key unload_data start_period end_period w
      = (Ok tt,
         with_stdout w1
           (stdout w1
            ++ [PeriodLine start_period end_period;
                CountLine "Clients at period start:" (pd.len CS);
                CountLine "Clients left:" (pd.len cl_left);
                CountLine "Clients new:" (pd.len CN);
                CountLine "Transactions in period:" (pd.len tx_in_period)]
            ++ [last_line])).
Proof.
  intros Hlt Hd Hf. cbv zeta.
  pose proof (clients_with_buy_distinct
                (tx_in_period_of df_tx start_period end_period)) as [Hnd Hbuy].
  split.
  { apply sub_days_ordinal in Hd. unfold Date.sub in Hd.
    unfold to_dtime, combine_midnight. rewrite Hd. lia. }
  split; [apply CS_of_spec|].
  split.
  { intros c. rewrite CS_of_spec. unfold spec_CS.
    apply (In_window_filter ClCols.activated_at). }
  split; [apply tx_in_period_of_spec|].
  split.
  { intros t. rewrite tx_in_period_of_spec. unfold spec_tx_in_period.
    apply (In_window_filter TxCols.closed_at). }
  split; [exact Hnd|].
  split; [exact Hbuy|].
  split; [apply cl_left_of_spec|].
  split.
  { intros c. rewrite cl_left_of_spec, In_spec_cl_left, Hbuy. reflexivity. }
  split; [apply CN_of_spec|].
  split.
  { intros c. rewrite CN_of_spec. unfold spec_CN.
    apply (In_window_filter ClCols.activated_at). }
  eexists. rewrite (command_ccr_run _ _ _ _ _ _ _ _ _ _ Hlt Hd Hf).
  apply ccr_report_run.
Qed.

Lemma command_ccr_cohorts_witness :
  to_dtime (D (ymd 2024 1 3))
  = to_dtime (D (ymd 2024 2 1))
    - (to_dtime (D (ymd 2024 3 1)) - to_dtime (D (ymd 2024 2 1)))
  /\ CS_of example_clients (to_dtime (D (ymd 2024 1 3))) (ymd 2024 2 1)
     = spec_CS example_clients (to_dtime (D (ymd 2024 1 3)))
         (to_dtime (D (ymd 2024 2 1)))
  /\ pd.index (cl_left_of
                 (CS_of example_clients (to_dtime (D (ymd 2024 1 3)))
                    (ymd 2024 2 1))
                 (clients_with_buy_of
                    (tx_in_period_of example_transactions
                       (ymd 2024 2 1) (ymd 2024 3 1))))
     = [2].
Proof.
  destruct (@command_ccr_cohorts strict_pydantic numpy unit offline 0 None false
              (ymd 2024 2 1) (ymd 2024 3 1) (ymd 2024 1 3)
              example_transactions example_clients example_world example_world
              eq_refl eq_refl eq_refl) as (Hlook & HCS & _).
  split; [exact Hlook|]. split; [exact HCS|]. reflexivity.
Defined.

(** * Further properties of the code *)

(** ** [df_store]: keys, stored rows, reload *)

Lemma In_index_keep_last {C} (k : Z) (df : pd.DataFrame C) :
  In k (pd.index (keep_last df)) <-> In k (pd.index df).
Proof.
  split; [apply keep_last_index_incl|]. intros Hk.
  destruct (lookup_last k df) as [v|] eqn:El.
  - apply In_keep_last in El. apply (in_map fst) in El. exact El.
  - apply lookup_last_None in El. contradiction.
Qed.

Lemma keep_last_app_NoDup {C} (a b : pd.DataFrame C) :
  List.NoDup (pd.index b) ->
  keep_last (a ++ b)
  = List.filter (fun r => negb (existsb (Z.eqb (fst r)) (pd.index b)))
      (keep_last a) ++ b.
Proof.
  intros Hnd. induction a as [|[k v] a IH].
  - simpl. now apply keep_last_NoDup.
  - simpl. rewrite !keep_last_cons.
    assert (Hidx : pd.index (a ++ b) = pd.index a ++ pd.index b)
      by apply map_app.
    rewrite Hidx, existsb_app.
    destruct (existsb (Z.eqb k) (pd.index a)) eqn:Ea; simpl; [exact IH|].
    destruct (existsb (Z.eqb k) (pd.index b)) eqn:Eb; simpl;
      [exact IH|now rewrite IH].
Qed.

(** For a batch whose integers fit [int64] and a file that is absent or
    holds [int64] columns, the keys of the frame [df_store] returns are
    those of the batch together with those already in the file: no key is
    dropped and none is invented. *)
Theorem df_store_keys_union {A C} `{BaseModel A C} `{IntColumns C} `{Dtypes}
    (items : list A) (file file' : feather C) (df : pd.DataFrame C) :
  int64_rows (map model_dump items) = true ->
  int64_file file ->
  df_store items file = (Ok df, file') ->
  forall k,
    In k (pd.index df) <->
    In k (pd.index (map model_dump items))
    \/ (exists schema loaded,
          file = Holds schema loaded /\ In k (pd.index loaded)).
Proof.
  intros Hfit Hfile Hrun k.
  destruct items as [|i items'] eqn:Ei, file as [|schema loaded|];
    try contradiction.
  - rewrite df_store_nothing in Hrun. discriminate.
  - rewrite df_store_reload in Hrun. injection Hrun as <- <-. simpl.
    split; [intros Hk; right; eauto|].
    intros [[]|(sc & l & Hl & Hk)]. now injection Hl as _ ->.
  - rewrite <- Ei in *. assert (Hne : items <> []) by (subst; discriminate).
    rewrite (df_store_first_write items Hne Hfit) in Hrun.
    injection Hrun as <- _.
    split; [now left|]. intros [Hk|(sc & l & Hl & _)]; [exact Hk|discriminate].
  - rewrite <- Ei in *. assert (Hne : items <> []) by (subst; discriminate).
    cbn in Hfile. subst schema.
    rewrite (df_store_merge items loaded Hne Hfit) in Hrun.
    injection Hrun as <- _.
    rewrite In_index_keep_last. unfold pd.index. rewrite map_app, in_app_iff.
    split; intros [Hk|Hk]; auto.
    + right. eauto.
    + destruct Hk as (sc & l & Hl & Hk). injection Hl as _ ->. now right.
Qed.

Lemma df_store_keys_union_witness :
  In 1 (pd.index [(2, {| ClCols.activated_at := 7 |});
                  (1, {| ClCols.activated_at := 5 |})]) <->
  In 1 (pd.index (map model_dump
                    [{| ClientInfo.id := 2; ClientInfo.activated_at := 7 |}]))
  \/ (exists schema loaded,
        Holds (int64_schema ClCols.t) [(1, {| ClCols.activated_at := 5 |})]
        = Holds schema loaded
        /\ In 1 (pd.index loaded)).
Proof.
  exact (@df_store_keys_union _ _ _ _ numpy
           [{| ClientInfo.id := 2; ClientInfo.activated_at := 7 |}]
           (Holds (int64_schema ClCols.t) [(1, {| ClCols.activated_at := 5 |})])
           _ _ eq_refl eq_refl eq_refl 1).
Defined.

(** With [int64] data on both sides and one row per key in the file, a
    merge leaves every stored row as it is and where it is: the result is
    the stored frame with, in front of it, the last batch row of each key
    the file does not have yet, in batch order. *)
Theorem df_store_keeps_stored_rows {A C} `{BaseModel A C} `{IntColumns C}
    `{Dtypes} (items : list A) (loaded : pd.DataFrame C) :
  int64_rows (map model_dump items) = true ->
  List.NoDup (pd.index loaded) ->
  let fresh :=
    List.filter (fun r => negb (existsb (Z.eqb (fst r)) (pd.index loaded)))
      (keep_last (map model_dump items)) in
  df_store items (Holds (int64_schema C) loaded)
  = (Ok (fresh ++ loaded), Holds (int64_schema C) (fresh ++ loaded)).
Proof.
  intros Hfit Hnd. cbv zeta. destruct items as [|i items'] eqn:Ei.
  - apply df_store_reload.
  - rewrite <- Ei in *. assert (Hne : items <> []) by (subst; discriminate).
    rewrite (df_store_merge items loaded Hne Hfit).
    now rewrite (keep_last_app_NoDup _ loaded Hnd).
Qed.

Lemma df_store_keeps_stored_rows_witness :
  df_store (DT := numpy)
    [{| ClientInfo.id := 2; ClientInfo.activated_at := 7 |};
     {| ClientInfo.id := 1; ClientInfo.activated_at := 9 |}]
    (Holds (int64_schema ClCols.t) [(1, {| ClCols.activated_at := 5 |})])
  = (Ok [(2, {| ClCols.activated_at := 7 |});
         (1, {| ClCols.activated_at := 5 |})],
     Holds (int64_schema ClCols.t)
       [(2, {| ClCols.activated_at := 7 |});
        (1, {| ClCols.activated_at := 5 |})]).
Proof.
  assert (Hnd : List.NoDup (pd.index [(1, {| ClCols.activated_at := 5 |})])).
  { simpl. constructor; [simpl; tauto|constructor]. }
  exact (@df_store_keeps_stored_rows _ _ _ _ numpy
           [{| ClientInfo.id := 2; ClientInfo.activated_at := 7 |};
            {| ClientInfo.id := 1; ClientInfo.activated_at := 9 |}]
           [(1, {| ClCols.activated_at := 5 |})] eq_refl Hnd).
Defined.

(** A merge of a batch whose integers fit [int64] into a file with
    [int64] columns returns one row per key whenever the batch is not
    empty, whatever rows the file held, and also for an empty batch when
    the file had one row per key. *)
Theorem df_store_keys_unique {A C} `{BaseModel A C} `{IntColumns C} `{Dtypes}
    (items : list A) (loaded : pd.DataFrame C) :
  int64_rows (map model_dump items) = true ->
  items <> [] \/ List.NoDup (pd.index loaded) ->
  exists df, df_store items (Holds (int64_schema C) loaded)
             = (Ok df, Holds (int64_schema C) df)
             /\ List.NoDup (pd.index df).
Proof.
  intros Hfit Hor. destruct items as [|i items'] eqn:Ei.
  - destruct Hor as [Hne|Hnd]; [congruence|].
    exists loaded. split; [apply df_store_reload|exact Hnd].
  - rewrite <- Ei in *. assert (Hne : items <> []) by (subst; discriminate).
    eexists. split; [now apply df_store_merge|apply NoDup_keep_last].
Qed.

Lemma df_store_keys_unique_witness :
  exists df,
    df_store (DT := numpy)
      [{| ClientInfo.id := 1; ClientInfo.activated_at := 9 |}]
      (Holds (int64_schema ClCols.t)
         [(1, {| ClCols.activated_at := 5 |});
          (1, {| ClCols.activated_at := 6 |})])
    = (Ok df, Holds (int64_schema ClCols.t) df)
    /\ List.NoDup (pd.index df).
Proof.
  apply (@df_store_keys_unique _ _ _ _ numpy
           [{| ClientInfo.id := 1; ClientInfo.activated_at := 9 |}]).
  - reflexivity.
  - left. discriminate.
Defined.

(** What a successful [df_store] returns is what it left in the file: a
    later call with an empty batch gives the same frame back and leaves
    the file as it is. *)
Theorem df_store_reload_round_trip {A C} `{BaseModel A C} `{IntColumns C}
    `{Dtypes} (items : list A) (file file' : feather C)
    (df : pd.DataFrame C) :
  df_store items file = (Ok df, file') ->
  (exists schema, file' = Holds schema df)
  /\ df_store (@nil A) file' = (Ok df, file').
Proof.
  intros Hrun.
  assert (Hf : exists schema, file' = Holds schema df).
  { destruct (df_store_outcomes items file)
      as [(df' & sc & E)|[(E & _)|[(E & _)|(c & E & _)]]];
      rewrite E in Hrun; try discriminate.
    injection Hrun as <- <-. eauto. }
  split; [exact Hf|]. destruct Hf as [schema ->]. apply df_store_reload.
Qed.

Lemma df_store_reload_round_trip_witness :
  (exists schema,
     Holds (int64_schema ClCols.t) [(2, {| ClCols.activated_at := 7 |})]
     = Holds schema [(2, {| ClCols.activated_at := 7 |})])
  /\ df_store (DT := numpy) (@nil ClientInfo.t)
       (Holds (int64_schema ClCols.t) [(2, {| ClCols.activated_at := 7 |})])
     = (Ok [(2, {| ClCols.activated_at := 7 |})],
        Holds (int64_schema ClCols.t) [(2, {| ClCols.activated_at := 7 |})]).
Proof.
  exact (@df_store_reload_round_trip _ _ _ _ numpy
           [{| ClientInfo.id := 2; ClientInfo.activated_at := 7 |}]
           Absent _ _ eq_refl).
Defined.

Lemma df_store_idempotent_on_existing_witness :
  exists df,
    df_store (DT := numpy)
      [{| ClientInfo.id := 1; ClientInfo.activated_at := 9 |};
       {| ClientInfo.id := 1; ClientInfo.activated_at := 8 |}]
      (Holds (int64_schema ClCols.t)
         [(2, {| ClCols.activated_at := 5 |});
          (2, {| ClCols.activated_at := 6 |})])
    = (Ok df, Holds (int64_schema ClCols.t) df)
    /\ df_store (DT := numpy)
         [{| ClientInfo.id := 1; ClientInfo.activated_at := 9 |};
          {| ClientInfo.id := 1; ClientInfo.activated_at := 8 |}]
         (Holds (int64_schema ClCols.t) df)
       = (Ok df, Holds (int64_schema ClCols.t) df).
Proof.
  exact (@df_store_idempotent_on_existing _ _ _ _ numpy
           [{| ClientInfo.id := 1; ClientInfo.activated_at := 9 |};
            {| ClientInfo.id := 1; ClientInfo.activated_at := 8 |}]
           [(2, {| ClCols.activated_at := 5 |});
            (2, {| ClCols.activated_at := 6 |})] eq_refl).
Defined.

(** ** Pagination: failures and endless walks *)

Section PaginationEdges.
Context {Net : Type}.
Variable src :
  date_like -> date_like -> Z -> Z -> M Net (Page.t (list Transaction.t)).
Variables date_from date_to : date_like.

Lemma failing_source_loop (f : nat -> Page.t (list Transaction.t)) (e : exn)
    (net net_e : Net) (n : nat) :
  forall (shift : nat) (fuel : nat) (from_page per_page : Z),
    (forall i, (i < n)%nat ->
       src date_from date_to (from_page + Z.of_nat i) per_page net
       = (Ok (f (shift + i)%nat), net)
       /\ full (f (shift + i)%nat)
       /\ PageInfo.page (Page.page (f (shift + i)%nat))
          = from_page + Z.of_nat i
       /\ PageInfo.per_page (Page.page (f (shift + i)%nat)) = per_page) ->
    src date_from date_to (from_page + Z.of_nat n) per_page net
    = (Raise e, net_e) ->
    (n < fuel)%nat ->
    iter_transactions_loop src fuel date_from date_to
      from_page per_page per_page net
    = (Raise e,
       flat_map page_events
         (map (fun i => (from_page + Z.of_nat i, per_page, f (shift + i)%nat))
              (seq 0 n)),
       net_e).
Proof.
  induction n as [|n IH]; intros shift fuel from_page per_page Hok Hfail Hfuel.
  - destruct fuel as [|fuel]; [lia|]. simpl. rewrite Z.eqb_refl.
    rewrite Z.add_0_r in Hfail. rewrite Hfail. reflexivity.
  - destruct fuel as [|fuel]; [lia|].
    cbn [iter_transactions_loop]. rewrite Z.eqb_refl.
    destruct (Hok 0%nat ltac:(lia)) as (Hs0 & Hf0 & Hp0 & Hpp0).
    rewrite Z.add_0_r in Hs0, Hp0. rewrite Nat.add_0_r in Hs0, Hf0, Hp0, Hpp0.
    rewrite Hs0. unfold full in Hf0. rewrite Hf0, Hp0, Hpp0.
    rewrite (IH (S shift) fuel (from_page + 1) per_page).
    + rewrite (map_seq_S _ n). cbn [flat_map page_events].
      rewrite Z.add_0_r, Nat.add_0_r, <- app_comm_cons. do 5 f_equal.
      apply map_ext. intros i.
      replace (from_page + 1 + Z.of_nat i) with (from_page + Z.of_nat (S i))
        by lia.
      replace (S shift + i)%nat with (shift + S i)%nat by lia. reflexivity.
    + intros i Hi. specialize (Hok (S i) ltac:(lia)).
      replace (from_page + 1 + Z.of_nat i) with (from_page + Z.of_nat (S i))
        by lia.
      replace (S shift + i)%nat with (shift + S i)%nat by lia. exact Hok.
    + replace (from_page + 1 + Z.of_nat n) with (from_page + Z.of_nat (S n))
        by lia. exact Hfail.
    + lia.
Qed.

Lemma full_source_loop :
  (forall p pp net, exists d net',
      src date_from date_to p pp net = (Ok d, net') /\ full d) ->
  forall (fuel : nat) (from_page per_page : Z) (net : Net),
    match iter_transactions_loop src fuel date_from date_to
            from_page per_page per_page net with
    | (r, tr, _) => r = Diverges /\ length (fetches tr) = fuel
    end.
Proof.
  intros Hfull. induction fuel as [|fuel IH]; intros from_page per_page net.
  - simpl. rewrite Z.eqb_refl. split; reflexivity.
  - cbn [iter_transactions_loop]. rewrite Z.eqb_refl.
    destruct (Hfull from_page per_page net) as (d & net1 & Hs & Hf).
    rewrite Hs. unfold full in Hf. rewrite Hf.
    specialize (IH (PageInfo.page (Page.page d) + 1)
                   (PageInfo.per_page (Page.page d)) net1).
    destruct (iter_transactions_loop src fuel date_from date_to _ _ _ net1)
      as [[r tr] net2].
    destruct IH as [-> Hlen]. split; [reflexivity|].
    change (Fetched from_page per_page d :: map Yielded (Page.data d) ++ tr)
      with ([Fetched from_page per_page d] ++ map Yielded (Page.data d) ++ tr).
    rewrite !fetches_app, fetches_yielded. simpl. now rewrite Hlen.
Qed.

End PaginationEdges.

(** When the page source answers [n] full, echoing pages and then fails,
    the generator has yielded the records of these [n] pages, in order,
    raises the very exception of the failed fetch and asks for nothing
    more: no retry, no skipping. *)
Theorem iter_transactions_propagates_error {Net}
    (src : date_like -> date_like -> Z -> Z -> M Net (Page.t (list Transaction.t)))
    (date_from date_to : date_like) (fuel : nat) (from_page per_page : Z)
    (f : nat -> Page.t (list Transaction.t)) (n : nat) (e : exn)
    (net net_e : Net) :
  (forall i, (i < n)%nat ->
     src date_from date_to (from_page + Z.of_nat i) per_page net
     = (Ok (f i), net)
     /\ full (f i)
     /\ PageInfo.page (Page.page (f i)) = from_page + Z.of_nat i
     /\ PageInfo.per_page (Page.page (f i)) = per_page) ->
  src date_from date_to (from_page + Z.of_nat n) per_page net
  = (Raise e, net_e) ->
  (n < fuel)%nat ->
  iter_transactions src fuel date_from date_to from_page per_page net
  = (Raise e,
     flat_map page_events
       (map (fun i => (from_page + Z.of_nat i, per_page, f i)) (seq 0 n)),
     net_e)
  /\ collect (iter_transactions src fuel date_from date_to from_page per_page)
       net
     = (Raise e, net_e).
Proof.
  intros Hok Hfail Hfuel.
  assert (Hrun : iter_transactions src fuel date_from date_to from_page
                   per_page net
                 = (Raise e,
                    flat_map page_events
                      (map (fun i => (from_page + Z.of_nat i, per_page, f i))
                           (seq 0 n)),
                    net_e)).
  { unfold iter_transactions.
    apply (failing_source_loop src date_from date_to f e net net_e n 0%nat);
      auto. }
  split; [exact Hrun|]. unfold collect. rewrite Hrun. reflexivity.
Qed.

Lemma iter_transactions_propagates_error_witness :
  iter_transactions
    (fun _ _ p pp (n : unit) =>
       if p =? 1
       then (Ok {| Page.data := [{| Transaction.client_id := 4;
                                    Transaction.id := 8;
                                    Transaction.closed_at := 0 |}];
                   Page.page := {| PageInfo.count := 1; PageInfo.page := 1;
                                   PageInfo.per_page := 1 |} |}, n)
       else (Raise (HTTPError 500), n))
    3 (DT 0) (DT 0) 1 1 tt
  = (Raise (HTTPError 500),
     [Fetched 1 1
        {| Page.data := [{| Transaction.client_id := 4; Transaction.id := 8;
                            Transaction.closed_at := 0 |}];
           Page.page := {| PageInfo.count := 1; PageInfo.page := 1;
                           PageInfo.per_page := 1 |} |};
      Yielded {| Transaction.client_id := 4; Transaction.id := 8;
                 Transaction.closed_at := 0 |}],
     tt).
Proof.
  refine (proj1 (iter_transactions_propagates_error _ (DT 0) (DT 0) 3 1 1
                   (fun _ => {| Page.data := [{| Transaction.client_id := 4;
                                                 Transaction.id := 8;
                                                 Transaction.closed_at := 0 |}];
                                Page.page := {| PageInfo.count := 1;
                                                PageInfo.page := 1;
                                                PageInfo.per_page := 1 |} |})
                   1 (HTTPError 500) tt tt _ eq_refl _)).
  - intros i Hi. assert (i = 0%nat) as -> by lia. repeat split.
  - lia.
Defined.

(** As long as every page the source returns is full, the generator
    never stops: it spends all its fuel on fetches, one per unit, whatever
    the page index, the page size and the records are. *)
Theorem iter_transactions_endless_on_full_pages {Net}
    (src : date_like -> date_like -> Z -> Z -> M Net (Page.t (list Transaction.t)))
    (date_from date_to : date_like) (fuel : nat) (from_page per_page : Z)
    (net : Net) :
  (forall p pp net, exists d net',
      src date_from date_to p pp net = (Ok d, net') /\ full d) ->
  match iter_transactions src fuel date_from date_to from_page per_page net with
  | (r, tr, _) => r = Diverges /\ length (fetches tr) = fuel
  end.
Proof.
  intros Hfull. unfold iter_transactions. now apply full_source_loop.
Qed.

Lemma iter_transactions_endless_on_full_pages_witness :
  match iter_transactions
          (fake_source (fun p pp =>
             {| Page.data := @nil Transaction.t;
                Page.page := {| PageInfo.count := 0; PageInfo.page := p;
                                PageInfo.per_page := 0 |} |}))
          4 (DT 0) (DT 0) 1 100 tt with
  | (r, tr, _) => r = Diverges /\ length (fetches tr) = 4%nat
  end.
Proof.
  apply (iter_transactions_endless_on_full_pages
           (fake_source (fun p pp =>
              {| Page.data := @nil Transaction.t;
                 Page.page := {| PageInfo.count := 0; PageInfo.page := p;
                                 PageInfo.per_page := 0 |} |}))).
  intros p pp n. eexists. eexists. split; [reflexivity|reflexivity].
Defined.

(** ** One page fetch: transport, envelope, validation *)

Lemma raise_for_status_cases (resp : Response) :
  (400 <= status_code resp < 600
   /\ raise_for_status resp = Raise (HTTPError (status_code resp)))
  \/ (~ 400 <= status_code resp < 600 /\ raise_for_status resp = Ok tt).
Proof.
  unfold raise_for_status.
  destruct (Z.leb_spec 400 (status_code resp)),
           (Z.ltb_spec (status_code resp) 600); simpl;
    [left|right|right|right]; split; auto; lia.
Qed.

(** [get_transactions_page] makes exactly one request, to
    [base_url + "transactions.getTransactions"], with the date range, the
    page index and the page size followed by the token.  A 4xx or 5xx
    status raises [HTTPError] whatever the body says; otherwise a page is
    returned exactly when the body has a ["response"] payload that
    validates as a page, and a validation error is raised exactly when
    that payload, or the error envelope standing in for it, does not
    validate. *)
Theorem get_transactions_page_outcome `{Pydantic} {Net} `{Requests Net}
    (self : API.t) (date_from date_to : date_like) (page per_page : Z)
    (net : Net) :
  let sent :=
    requests_get
      (API.base_url self ++ "transactions.getTransactions")%string
      [("date_from"%string, PIso date_from); ("date_to"%string, PIso date_to);
       ("page"%string, PInt page); ("per_page"%string, PInt per_page);
       ("token"%string, PStr (API.token self))] net in
  let resp := fst sent in
  let body := json_body resp in
  let bad_status := 400 <= status_code resp < 600 in
  let r := fst (API.get_transactions_page self date_from date_to page per_page
                  net) in
  snd (API.get_transactions_page self date_from date_to page per_page net)
  = snd sent
  /\ (forall pg, r = Ok pg <->
        ~ bad_status
        /\ exists payload, body !! "response" = Some payload
                           /\ validate_Page payload = Some pg)
  /\ (forall s, r = Raise (HTTPError s) <-> bad_status /\ s = status_code resp)
  /\ (r = Raise ValidationError <->
        ~ bad_status
        /\ ((exists payload, body !! "response" = Some payload
                             /\ validate_Page payload = None)
            \/ (body !! "response" = None /\ is_Some (body !! "error")
                /\ validate_ApiError body = None)))
  /\ r <> Diverges.
Proof.
  cbv zeta.
  unfold API.get_transactions_page, API.get_json_request, API.url_for,
    API.params, bind, lift. cbn [app].
  destruct (requests_get _ _ net) as [resp net1]. cbn [fst snd].
  destruct (raise_for_status_cases resp) as [[Hbad ->]|[Hok ->]].
  - cbn [fst snd]. split; [reflexivity|].
    split; [intros pg; split; [discriminate|tauto]|].
    split; [intros s; split; [intros Hs; injection Hs as <-; auto
                              |intros [_ ->]; reflexivity]|].
    split; [split; [discriminate|tauto]|discriminate].
  - rewrite json_response_cases.
    destruct (json_body resp !! "response") as [payload|] eqn:Er.
    + unfold parse_obj_as.
      destruct (validate_Page payload) as [pg0|] eqn:Ev; cbn [fst snd].
      * split; [reflexivity|]. split.
        { intros pg. split.
          - intros Hr. injection Hr as <-. eauto.
          - intros (_ & p & Hp & Hv). injection Hp as <-. congruence. }
        split; [intros s; split; [discriminate|tauto]|].
        split; [|discriminate]. split; [discriminate|].
        intros (_ & [(p & Hp & Hv)|(Hn & _)]); [|discriminate].
        injection Hp as <-. congruence.
      * split; [reflexivity|]. split.
        { intros pg. split; [discriminate|].
          intros (_ & p & Hp & Hv). injection Hp as <-. congruence. }
        split; [intros s; split; [discriminate|tauto]|].
        split; [|discriminate]. split; [|reflexivity].
        intros _. split; [exact Hok|]. left. eauto.
    + destruct (json_body resp !! "error") as [je|] eqn:Ee.
      * destruct (validate_ApiError (json_body resp)) as [ae|] eqn:Ea;
          cbn [fst snd].
        -- split; [reflexivity|]. split.
           { intros pg. split; [discriminate|].
             intros (_ & p & Hp & _). discriminate. }
           split; [intros s; split; [discriminate|tauto]|].
           split; [|discriminate]. split; [discriminate|].
           intros (_ & [(p & Hp & _)|(_ & _ & Hv)]); discriminate.
        -- split; [reflexivity|]. split.
           { intros pg. split; [discriminate|].
             intros (_ & p & Hp & _). discriminate. }
           split; [intros s; split; [discriminate|tauto]|].
           split; [|discriminate]. split; [|reflexivity].
           intros _. split; [exact Hok|]. right. repeat split; eauto.
      * cbn [fst snd]. split; [reflexivity|]. split.
        { intros pg. split; [discriminate|].
          intros (_ & p & Hp & _). discriminate. }
        split; [intros s; split; [discriminate|tauto]|].
        split; [|discriminate]. split; [discriminate|].
        intros (_ & [(p & Hp & _)|(_ & [x Hx] & _)]); discriminate.
Qed.

(** A page validates only as a whole: its records are the validated
    elements of ["data"], one for one and in order, so a single element
    that is not a well-formed transaction (one without ["date_close"],
    say) makes the whole page fail. *)
Theorem validate_Page_all_or_nothing `{Pydantic}
    (d : list (string * json)) (pg : Page.t (list Transaction.t)) :
  validate_Page (JDict d) = Some pg <->
  exists l jp,
    dict_get "data" d = Some (JList l)
    /\ Forall2 (fun j tx => validate_Transaction j = Some tx) l (Page.data pg)
    /\ dict_get "page" d = Some jp
    /\ validate_PageInfo jp = Some (Page.page pg).
Proof.
  unfold validate_Page. split.
  - intros Hv.
    destruct (dict_get "data" d) as [jd|] eqn:Ed; simpl in Hv; [|discriminate].
    destruct jd as [| | | |l|]; simpl in Hv; try discriminate.
    destruct (mapM validate_Transaction l) as [ds|] eqn:Em; simpl in Hv;
      [|discriminate].
    destruct (dict_get "page" d) as [jp|] eqn:Ep; simpl in Hv; [|discriminate].
    destruct (validate_PageInfo jp) as [p|] eqn:Ei; simpl in Hv; [|discriminate].
    injection Hv as <-. exists l, jp. simpl.
    repeat split; auto. now apply mapM_Some.
  - intros (l & jp & -> & Hall & -> & Hp). simpl.
    apply mapM_Some in Hall. rewrite Hall. simpl. rewrite Hp. simpl.
    destruct pg; reflexivity.
Qed.

(** ** Loading: what is left in the file *)


(** ** [command_ccr]: offline runs, missing key, early dates, the rate *)

Lemma reload_frames_cases `{Pydantic} `{Dtypes} {Net} `{Requests Net}
    (fuel : nat) (api_key : option string) (lookback : datetime)
    (end_period : date) (w : World Net) :
  exists w1,
    ccr_frames fuel api_key false lookback end_period w
    = (match transactions_feater w with
       | Absent => Raise (Exception "Dataframe is empty")
       | Truncated => Raise ArrowInvalid
       | Holds _ df_tx =>
           match clients_feater w with
           | Absent => Raise (Exception "Dataframe is empty")
           | Truncated => Raise ArrowInvalid
           | Holds _ df_cl => Ok (df_tx, df_cl)
           end
       end, w1)
    /\ net w1 = net w /\ stdout w1 = stdout w
    /\ transactions_feater w1 = transactions_feater w
    /\ clients_feater w1 = clients_feater w.
Proof.
  unfold ccr_frames, bind, update_transactions, update_clients,
    on_transactions, on_clients.
  destruct (transactions_feater w) as [|sc_tx df_tx|] eqn:Et.
  - rewrite df_store_nothing. eexists. split; [reflexivity|]. cbn. auto.
  - rewrite df_store_reload. cbn [transactions_feater clients_feater].
    destruct (clients_feater w) as [|sc_cl df_cl|] eqn:Ec.
    + rewrite df_store_nothing. eexists. split; [reflexivity|]. cbn. auto.
    + rewrite df_store_reload. eexists. split; [reflexivity|]. cbn. auto.
    + rewrite df_store_truncated. eexists. split; [reflexivity|]. cbn. auto.
  - rewrite df_store_truncated. eexists. split; [reflexivity|]. cbn. auto.
Qed.

Lemma command_ccr_cases `{Pydantic} `{Dtypes} {Net} `{Requests Net}
    (fuel : nat) (api_key : option string) (unload_data : bool)
    (start_period end_period : date) (w : World Net) :
  command_ccr fuel api_key unload_data start_period end_period w =
    if Date.ltb start_period end_period then
      match Date.sub_days start_period (Date.sub end_period start_period) with
      | Ok d =>
          match ccr_frames fuel api_key unload_data (to_dtime (D d))
                  end_period w with
          | (Ok (df_tx, df_cl), w1) =>
              ccr_report df_tx df_cl (to_dtime (D d)) start_period end_period w1
          | (Raise e, w1) => (Raise e, w1)
          | (Diverges, w1) => (Diverges, w1)
          end
      | Raise e => (Raise e, w)
      | Diverges => (Diverges, w)
      end
    else (Raise AssertionError, w).
Proof.
  unfold command_ccr, bind at 1 2 3, assert, lift.
  destruct (Date.ltb start_period end_period); [|reflexivity]. cbn [ret].
  destruct (Date.sub_days start_period (Date.sub end_period start_period))
    as [d|e|]; try reflexivity.
  destruct (ccr_frames fuel api_key unload_data (to_dtime (D d)) end_period w)
    as [[[df_tx df_cl]|e|] w1]; reflexivity.
Qed.

(** Without [--unload_data], [command_ccr] never talks to the remote side
    and leaves both feather files with the content they had, whether it
    succeeds or fails. *)
Theorem command_ccr_offline_read_only `{Pydantic} `{Dtypes} {Net} `{Requests Net}
    (fuel : nat) (api_key : option string) (start_period end_period : date)
    (w : World Net) :
  match command_ccr fuel api_key false start_period end_period w with
  | (_, w') =>
      net w' = net w
      /\ transactions_feater w' = transactions_feater w
      /\ clients_feater w' = clients_feater w
  end.
Proof.
  rewrite command_ccr_cases.
  destruct (Date.ltb start_period end_period); [|auto].
  destruct (Date.sub_days start_period (Date.sub end_period start_period))
    as [d|e|]; auto.
  destruct (reload_frames_cases fuel api_key (to_dtime (D d)) end_period w)
    as (w1 & -> & Hn & _ & Ht & Hc).
  destruct (transactions_feater w) as [|sc_tx df_tx|]; auto.
  destruct (clients_feater w) as [|sc_cl df_cl|]; auto.
  rewrite ccr_report_run. cbn. auto.
Qed.

(** For a period with [start_period < end_period] and a representable
    look-back start, an offline run succeeds exactly when both feather
    files hold a table; otherwise nothing is printed, and the run raises
    "Dataframe is empty" when the first file that holds none, the
    transactions file being looked at first, is missing, and the error of
    [read_feather] when that file is empty. *)
Theorem command_ccr_offline_needs_both_files `{Pydantic} `{Dtypes} {Net}
    `{Requests Net}
    (fuel : nat) (api_key : option string) (start_period end_period d : date)
    (w : World Net) :
  Date.ltb start_period end_period = true ->
  Date.sub_days start_period (Date.sub end_period start_period) = Ok d ->
  match command_ccr fuel api_key false start_period end_period w with
  | (r, w') =>
      (r = Ok tt <->
       (exists schema df, transactions_feater w = Holds schema df)
       /\ (exists schema df, clients_feater w = Holds schema df))
      /\ (r <> Ok tt ->
          r = Raise match transactions_feater w with
                    | Absent => Exception "Dataframe is empty"
                    | Truncated => ArrowInvalid
                    | Holds _ _ =>
                        match clients_feater w with
                        | Truncated => ArrowInvalid
                        | _ => Exception "Dataframe is empty"
                        end
                    end
          /\ stdout w' = stdout w)
  end.
Proof.
  intros Hlt Hd. rewrite command_ccr_cases, Hlt, Hd.
  destruct (reload_frames_cases fuel api_key (to_dtime (D d)) end_period w)
    as (w1 & -> & _ & Hs & _).
  destruct (transactions_feater w) as [|sc_tx df_tx|].
  - split; [|auto]. split; [discriminate|].
    intros [(sc & x & Hx) _]. discriminate.
  - destruct (clients_feater w) as [|sc_cl df_cl|].
    + split; [|auto]. split; [discriminate|].
      intros [_ (sc & x & Hx)]. discriminate.
    + rewrite ccr_report_run. split; [|congruence].
      split; [eauto 6|reflexivity].
    + split; [|auto]. split; [discriminate|].
      intros [_ (sc & x & Hx)]. discriminate.
  - split; [|auto]. split; [discriminate|].
    intros [(sc & x & Hx) _]. discriminate.
Qed.

Lemma command_ccr_offline_needs_both_files_witness :
  match @command_ccr strict_pydantic numpy unit offline 0 None false
          (ymd 2024 2 1) (ymd 2024 3 1)
          {| net := tt;
             transactions_feater :=
               Holds (int64_schema TxCols.t) example_transactions;
             clients_feater := Absent; stdout := [] |} with
  | (r, w') =>
      (r = Ok tt <->
       (exists schema df,
          Holds (int64_schema TxCols.t) example_transactions
          = Holds schema df)
       /\ (exists schema df, @Absent ClCols.t = Holds schema df))
      /\ (r <> Ok tt ->
          r = Raise (Exception "Dataframe is empty") /\ stdout w' = [])
  end.
Proof.
  exact (@command_ccr_offline_needs_both_files strict_pydantic numpy unit
           offline 0 None (ymd 2024 2 1) (ymd 2024 3 1) (ymd 2024 1 3)
           {| net := tt;
              transactions_feater :=
                Holds (int64_schema TxCols.t) example_transactions;
              clients_feater := Absent; stdout := [] |} eq_refl eq_refl).
Defined.

(** With [--unload_data] and no API key, a call for a well-formed period
    fails its second assertion: [AssertionError], with no request made,
    nothing printed and both files untouched. *)
Theorem command_ccr_unload_requires_key `{Pydantic} `{Dtypes} {Net} `{Requests Net}
    (fuel : nat) (start_period end_period d : date) (w : World Net) :
  Date.ltb start_period end_period = true ->
  Date.sub_days start_period (Date.sub end_period start_period) = Ok d ->
  command_ccr fuel None true start_period end_period w
  = (Raise AssertionError, w).
Proof.
  intros Hlt Hd. unfold command_ccr, bind, assert, lift.
  rewrite Hlt. cbn [ret]. rewrite Hd. reflexivity.
Qed.

Lemma command_ccr_unload_requires_key_witness :
  @command_ccr strict_pydantic numpy unit offline 3 None true
    (ymd 2024 2 1) (ymd 2024 3 1) example_world
  = (Raise AssertionError, example_world).
Proof.
  exact (@command_ccr_unload_requires_key strict_pydantic numpy unit offline 3
           (ymd 2024 2 1) (ymd 2024 3 1) (ymd 2024 1 3) example_world
           eq_refl eq_refl).
Defined.

(** A period so early that [start - (end - start)] would fall before
    0001-01-01 makes [command_ccr] raise [OverflowError] before it loads,
    fetches or prints anything. *)
Theorem command_ccr_lookback_overflow `{Pydantic} `{Dtypes} {Net} `{Requests Net}
    (fuel : nat) (api_key : option string) (unload_data : bool)
    (start_period end_period : date) (w : World Net) :
  Date.ltb start_period end_period = true ->
  toordinal start_period - (toordinal end_period - toordinal start_period) <= 0 ->
  command_ccr fuel api_key unload_data start_period end_period w
  = (Raise OverflowError, w).
Proof.
  intros Hlt Hov. unfold command_ccr, bind, assert, lift.
  rewrite Hlt. cbn [ret]. unfold Date.sub_days, Date.add_days, Date.sub.
  replace (0 <? toordinal start_period
                + - (toordinal end_period - toordinal start_period))
    with false by (symmetry; apply Z.ltb_ge; lia).
  reflexivity.
Qed.

Lemma command_ccr_lookback_overflow_witness :
  @command_ccr strict_pydantic numpy unit offline 3 (Some "key"%string) true
    (ymd 1 1 2) (ymd 1 1 5) example_world
  = (Raise OverflowError, example_world).
Proof.
  refine (@command_ccr_lookback_overflow strict_pydantic numpy unit offline 3
            (Some "key"%string) true (ymd 1 1 2) (ymd 1 1 5) example_world
            eq_refl _).
  vm_compute. discriminate.
Defined.

Lemma getitem_length {C} (df : pd.DataFrame C) (mask : list bool) :
  (length (pd.getitem df mask) <= length df)%nat.
Proof.
  revert mask. induction df as [|r df IH]; intros [|b mask]; simpl; try lia.
  specialize (IH mask). destruct b; simpl; lia.
Qed.

Lemma quotient_in_unit_interval (l n : Z) :
  0 <= l <= n -> n <> 0 ->
  (0 <= inject_Z (n - l) / inject_Z n <= 1)%Q.
Proof.
  intros Hl Hn. split.
  - unfold Qdiv. apply Qmult_le_0_compat.
    + rewrite <- (Zle_Qle 0). lia.
    + apply Qinv_le_0_compat. rewrite <- (Zle_Qle 0). lia.
  - apply Qle_shift_div_r.
    + rewrite <- (Zlt_Qlt 0). lia.
    + rewrite Qmult_1_l. rewrite <- Zle_Qle. lia.
Qed.

(** The clients reported as left are never more than the cohort at the
    start, so whenever [command_ccr] prints a rate it lies between 0 and
    1 (0% and 100%). *)
Theorem command_ccr_rate_in_unit_interval `{Pydantic} `{Dtypes} {Net} `{Requests Net}
    (fuel : nat) (api_key : option string) (unload_data : bool)
    (start_period end_period d : date)
    (df_tx : pd.DataFrame TxCols.t) (df_cl : pd.DataFrame ClCols.t)
    (w w1 : World Net) :
  Date.ltb start_period end_period = true ->
  Date.sub_days start_period (Date.sub end_period start_period) = Ok d ->
  ccr_frames fuel api_key unload_data (to_dtime (D d)) end_period w
  = (Ok (df_tx, df_cl), w1) ->
  let CS := CS_of df_cl (to_dtime (D d)) start_period in
  let cl_left :=
    cl_left_of CS
      (clients_with_buy_of (tx_in_period_of df_tx start_period end_period)) in
  0 <= pd.len cl_left <= pd.len CS
  /\ exists counts last,
      command_ccr fuel api_key unload_data start_period end_period w
      = (Ok tt, with_stdout w1 (stdout w1 ++ counts ++ [last]))
      /\ (forall q, In (CRRLine q) counts -> False)
      /\ (last = Text "No client no period start. May be no data? Skip period"
          \/ exists q, last = CRRLine q /\ (0 <= q <= 1)%Q).
Proof.
  intros Hlt Hd Hf. cbv zeta.
  set (CS := CS_of df_cl (to_dtime (D d)) start_period).
  set (cl_left := cl_left_of CS _).
  assert (Hle : 0 <= pd.len cl_left <= pd.len CS).
  { unfold pd.len, cl_left, cl_left_of.
    pose proof (getitem_length CS
                  (pd.inv (pd.isin (pd.index CS)
                     (clients_with_buy_of
                        (tx_in_period_of df_tx start_period end_period)))))
      as Hg. lia. }
  split; [exact Hle|].
  rewrite (command_ccr_run _ _ _ _ _ _ _ _ _ _ Hlt Hd Hf), ccr_report_run.
  eexists. eexists. split; [reflexivity|]. split.
  - intros q Hq. simpl in Hq.
    repeat (destruct Hq as [Hq|Hq]; [discriminate|]). exact Hq.
  - fold CS. fold cl_left. destruct (Z.eqb_spec (pd.len CS) 0) as [Hz|Hnz].
    + now left.
    + right. eexists. split; [reflexivity|].
      now apply quotient_in_unit_interval.
Qed.

Lemma command_ccr_rate_in_unit_interval_witness :
  0 <= 1 <= 2
  /\ exists counts last,
      @command_ccr strict_pydantic numpy unit offline 0 None false
        (ymd 2024 2 1) (ymd 2024 3 1) example_world
      = (Ok tt, with_stdout example_world ([] ++ counts ++ [last]))
      /\ (forall q, In (CRRLine q) counts -> False)
      /\ (last = Text "No client no period start. May be no data? Skip period"
          \/ exists q, last = CRRLine q /\ (0 <= q <= 1)%Q).
Proof.
  exact (@command_ccr_rate_in_unit_interval strict_pydantic numpy unit offline
           0 None false (ymd 2024 2 1) (ymd 2024 3 1) (ymd 2024 1 3)
           example_transactions example_clients example_world example_world
           eq_refl eq_refl eq_refl).
Defined.


(** ** Dates in order *)

Lemma days_before_year_mono (y y' : Z) :
  y <= y' -> days_before_year y + 365 * (y' - y) <= days_before_year y'.
Proof.
  intros Hy. unfold days_before_year. cbv zeta.
  Z.div_mod_to_equations. lia.
Qed.

Lemma ordinal_within_year (y m d : Z) :
  1 <= m <= 12 -> 1 <= d <= days_in_month y m ->
  days_before_year y < ymd2ord y m d <= days_before_year (y + 1).
Proof.
  intros Hm Hd. rewrite days_before_year_succ.
  unfold ymd2ord, days_before_month. unfold days_in_month in Hd.
  assert (Hcases : m = 1 \/ m = 2 \/ m = 3 \/ m = 4 \/ m = 5 \/ m = 6 \/
                   m = 7 \/ m = 8 \/ m = 9 \/ m = 10 \/ m = 11 \/ m = 12)
    by lia.
  destruct (is_leap y);
    repeat (destruct Hcases as [->|Hcases];
            [cbn [Z.eqb Pos.eqb Z.ltb Z.compare Pos.compare Pos.compare_cont
                  andb mdays days_before_month_table] in *; lia|]);
    subst;
    cbn [Z.eqb Pos.eqb Z.ltb Z.compare Pos.compare Pos.compare_cont
         andb mdays days_before_month_table] in *; lia.
Qed.

Lemma month_ends_before_next (y m m' : Z) :
  1 <= m -> m < m' -> m' <= 12 ->
  days_before_month y m + days_in_month y m <= days_before_month y m'.
Proof.
  intros H1 Hlt H12. unfold days_before_month, days_in_month.
  assert (Hc : m = 1 \/ m = 2 \/ m = 3 \/ m = 4 \/ m = 5 \/ m = 6 \/
               m = 7 \/ m = 8 \/ m = 9 \/ m = 10 \/ m = 11) by lia.
  assert (Hc' : m' = 2 \/ m' = 3 \/ m' = 4 \/ m' = 5 \/ m' = 6 \/
                m' = 7 \/ m' = 8 \/ m' = 9 \/ m' = 10 \/ m' = 11 \/ m' = 12)
    by lia.
  destruct (is_leap y);
    repeat (destruct Hc as [->|Hc]);
    repeat (destruct Hc' as [->|Hc']);
    subst; try lia; apply Z.leb_le; vm_compute; reflexivity.
Qed.

Lemma toordinal_lt_of_lex (a b : date) :
  1 <= month a <= 12 -> 1 <= day a <= days_in_month (year a) (month a) ->
  1 <= month b <= 12 -> 1 <= day b <= days_in_month (year b) (month b) ->
  Date.ltb a b = true -> toordinal a < toordinal b.
Proof.
  intros Hma Hda Hmb Hdb Hlt. apply ltb_lex in Hlt. unfold toordinal.
  pose proof (ordinal_within_year _ _ _ Hma Hda) as Ha.
  pose proof (ordinal_within_year _ _ _ Hmb Hdb) as Hb.
  destruct Hlt as [Hy|[Hy [Hm|[Hm Hd]]]].
  - pose proof (days_before_year_mono (year a + 1) (year b) ltac:(lia)). lia.
  - pose proof (month_ends_before_next (year a) (month a) (month b)
                  ltac:(lia) Hm ltac:(lia)) as Hmm.
    unfold ymd2ord. rewrite <- Hy. lia.
  - unfold ymd2ord. rewrite <- Hy, <- Hm. lia.
Qed.

Lemma toordinal_lex (a b : date) :
  1 <= month a <= 12 -> 1 <= day a <= days_in_month (year a) (month a) ->
  1 <= month b <= 12 -> 1 <= day b <= days_in_month (year b) (month b) ->
  (Date.ltb a b = true <-> toordinal a < toordinal b).
Proof.
  intros Hma Hda Hmb Hdb. split; [now apply toordinal_lt_of_lex|].
  intros Hlt. destruct (Date.ltb a b) eqn:Eab; [reflexivity|exfalso].
  destruct (Date.ltb b a) eqn:Eba.
  - apply toordinal_lt_of_lex in Eba; auto. lia.
  - assert (Hab : ~ Date.ltb a b = true) by congruence.
    assert (Hba : ~ Date.ltb b a = true) by congruence.
    rewrite ltb_lex in Hab, Hba.
    assert (year a = year b /\ month a = month b /\ day a = day b)
      as (Hy & Hm & Hd) by lia.
    unfold toordinal in Hlt. rewrite Hy, Hm, Hd in Hlt. lia.
Qed.

Lemma toordinal_inj (a b : date) :
  1 <= month a <= 12 -> 1 <= day a <= days_in_month (year a) (month a) ->
  1 <= month b <= 12 -> 1 <= day b <= days_in_month (year b) (month b) ->
  toordinal a = toordinal b -> a = b.
Proof.
  intros Hma Hda Hmb Hdb Heq.
  assert (Hab : ~ Date.ltb a b = true).
  { intros Hl. apply toordinal_lt_of_lex in Hl; auto. lia. }
  assert (Hba : ~ Date.ltb b a = true).
  { intros Hl. apply toordinal_lt_of_lex in Hl; auto. lia. }
  rewrite ltb_lex in Hab, Hba.
  assert (year a = year b /\ month a = month b /\ day a = day b)
    as (Hy & Hm & Hd) by lia.
  destruct a, b; cbn in *; congruence.
Qed.

(** [to_dtime] keeps a [datetime] as it is and turns a date into its
    midnight, in order: valid dates compare exactly as their midnights do,
    so the date comparison of the opening assertion and the timestamp
    comparisons of the selections agree. *)
Theorem to_dtime_order (a b : date) (t : datetime) :
  Date.valid a = true -> Date.valid b = true ->
  to_dtime (DT t) = t
  /\ (Date.ltb a b = true <-> to_dtime (D a) < to_dtime (D b))
  /\ (to_dtime (D a) = to_dtime (D b) <-> a = b).
Proof.
  intros Ha Hb.
  apply valid_spec in Ha as (_ & Hma & Hda).
  apply valid_spec in Hb as (_ & Hmb & Hdb).
  split; [reflexivity|]. unfold to_dtime, combine_midnight, US_PER_DAY. split.
  - rewrite (toordinal_lex a b Hma Hda Hmb Hdb). lia.
  - split; [|now intros ->]. intros Heq.
    apply (toordinal_inj a b Hma Hda Hmb Hdb). lia.
Qed.

Lemma to_dtime_order_witness :
  to_dtime (DT 5) = 5
  /\ (Date.ltb (ymd 2024 2 29) (ymd 2024 3 1) = true <->
      to_dtime (D (ymd 2024 2 29)) < to_dtime (D (ymd 2024 3 1)))
  /\ (to_dtime (D (ymd 2024 2 29)) = to_dtime (D (ymd 2024 3 1)) <->
      ymd 2024 2 29 = ymd 2024 3 1).
Proof.
  exact (to_dtime_order (ymd 2024 2 29) (ymd 2024 3 1) 5 eq_refl eq_refl).
Defined.

(** For valid dates with [start_period < end_period] and a representable
    look-back start, the look-back window and the period are two
    non-empty, adjacent windows of the same length; no client row is
    counted both in [CS] and in [CN], and a client activated anywhere in
    the two windows is in exactly one of them. *)
Theorem command_ccr_windows (df_cl : pd.DataFrame ClCols.t)
    (start_period end_period d : date) :
  Date.valid start_period = true -> Date.valid end_period = true ->
  Date.ltb start_period end_period = true ->
  Date.sub_days start_period (Date.sub end_period start_period) = Ok d ->
  let lookbackStart := to_dtime (D d) in
  let t_start := to_dtime (D start_period) in
  let t_end := to_dtime (D end_period) in
  let CS := CS_of df_cl lookbackStart start_period in
  let CN := CN_of df_cl start_period end_period in
  lookbackStart < t_start < t_end
  /\ t_start - lookbackStart = t_end - t_start
  /\ (forall c, In c CS -> In c CN -> False)
  /\ (forall c, In c df_cl ->
        lookbackStart <= ClCols.activated_at (snd c) < t_end ->
        In c CS \/ In c CN).
Proof.
  intros Hvs Hve Hlt Hd. cbv zeta.
  assert (Hse : to_dtime (D start_period) < to_dtime (D end_period)).
  { apply valid_spec in Hvs as (_ & Hma & Hda).
    apply valid_spec in Hve as (_ & Hmb & Hdb).
    apply (toordinal_lex _ _ Hma Hda Hmb Hdb) in Hlt.
    unfold to_dtime, combine_midnight, US_PER_DAY. lia. }
  apply sub_days_ordinal in Hd. unfold Date.sub in Hd.
  assert (Hlook : to_dtime (D d)
                  = to_dtime (D start_period)
                    - (to_dtime (D end_period) - to_dtime (D start_period))).
  { unfold to_dtime, combine_midnight. rewrite Hd. lia. }
  split; [lia|]. split; [lia|]. split.
  - intros c HCS HCN. rewrite CS_of_spec in HCS. rewrite CN_of_spec in HCN.
    apply (In_window_filter ClCols.activated_at) in HCS, HCN. lia.
  - intros c Hc Hact. rewrite CS_of_spec, CN_of_spec.
    unfold spec_CS, spec_CN.
    rewrite !(In_window_filter ClCols.activated_at).
    destruct (Z_lt_dec (ClCols.activated_at (snd c))
                (to_dtime (D start_period))); [left|right]; split; auto; lia.
Qed.

Lemma command_ccr_windows_witness :
  to_dtime (D (ymd 2024 1 3)) < to_dtime (D (ymd 2024 2 1))
  < to_dtime (D (ymd 2024 3 1)).
Proof.
  exact (proj1 (command_ccr_windows example_clients (ymd 2024 2 1)
                  (ymd 2024 3 1) (ymd 2024 1 3)
                  eq_refl eq_refl eq_refl eq_refl)).
Defined.

(** ** Every ordinal is the ordinal of a valid date *)

Lemma days_in_month_period (y m k : Z) :
  days_in_month (y + 400 * k) m = days_in_month y m.
Proof. unfold days_in_month. now rewrite is_leap_period. Qed.

Lemma shape_ok_period (o k : Z) : shape_ok (o + DI400Y * k) = shape_ok o.
Proof.
  unfold shape_ok. cbv zeta. rewrite ord2ymd_period.
  unfold shift_years. cbn [year month day].
  now rewrite days_in_month_period.
Qed.

Lemma shapes_cycle :
  check_range (fun o => negb ((1 <=? o) && (o <=? 146097)) || shape_ok o)
    18 0 = true.
Proof. vm_compute. reflexivity. Qed.

Lemma shapes_cycle_sound (o : Z) : 1 <= o <= 146097 -> shape_ok o = true.
Proof.
  intros Ho.
  assert (Hr : 0 <= o < 0 + 2 ^ Z.of_nat 18) by (simpl; lia).
  pose proof (check_range_sound _ 18 0 shapes_cycle o Hr) as Hc.
  cbv beta in Hc.
  apply orb_prop in Hc as [Hc|Hc]; [|exact Hc].
  apply negb_true_iff, andb_false_iff in Hc as [Hc|Hc];
    apply Z.leb_gt in Hc; lia.
Qed.

Lemma shape_ok_all (o : Z) : shape_ok o = true.
Proof.
  set (k := (o - 1) / 146097). set (o0 := (o - 1) mod 146097 + 1).
  assert (Ho : o = o0 + DI400Y * k).
  { unfold o0, k, DI400Y. pose proof (Z.div_mod (o - 1) 146097 ltac:(lia)).
    lia. }
  assert (Ho0 : 1 <= o0 <= 146097).
  { unfold o0. pose proof (Z.mod_pos_bound (o - 1) 146097 ltac:(lia)). lia. }
  clearbody o0 k. subst o. rewrite shape_ok_period.
  now apply shapes_cycle_sound.
Qed.

Lemma ord2ymd_shape (o : Z) :
  1 <= month (ord2ymd o) <= 12
  /\ 1 <= day (ord2ymd o)
     <= days_in_month (year (ord2ymd o)) (month (ord2ymd o)).
Proof.
  pose proof (shape_ok_all o) as Hs. unfold shape_ok in Hs. cbv zeta in Hs.
  generalize dependent (ord2ymd o). intros [y m d]. cbn [year month day].
  intros Hs. repeat (apply andb_prop in Hs as [Hs ?]).
  repeat match goal with
         | H : (_ <=? _) = true |- _ => apply Z.leb_le in H
         end.
  lia.
Qed.

Lemma ord2ymd_year (o : Z) :
  1 <= o <= MAXORDINAL -> 1 <= year (ord2ymd o) <= 9999.
Proof.
  intros Ho. destruct (ord2ymd_shape o) as [Hm Hd].
  pose proof (toordinal_ord2ymd o) as Hr.
  generalize dependent (ord2ymd o). intros [y m d]. unfold toordinal.
  cbn [year month day]. intros Hm Hd Hr.
  pose proof (ordinal_within_year _ _ _ Hm Hd) as Hy.
  rewrite Hr in Hy. unfold MAXORDINAL in Ho.
  assert (H1 : days_before_year 1 = 0) by reflexivity.
  assert (H2 : days_before_year 10000 = 3652059) by reflexivity.
  destruct (Z_lt_dec y 1) as [Hlow|Hlow].
  { pose proof (days_before_year_mono (y + 1) 1 ltac:(lia)). lia. }
  destruct (Z_lt_dec 9999 y) as [Hhigh|Hhigh]; [|lia].
  pose proof (days_before_year_mono 10000 y ltac:(lia)). lia.
Qed.

Lemma valid_ord2ymd (o : Z) :
  1 <= o <= MAXORDINAL -> Date.valid (ord2ymd o) = true.
Proof.
  intros Ho. pose proof (ord2ymd_year o Ho) as Hy.
  destruct (ord2ymd_shape o) as [Hm Hd].
  unfold Date.valid, MINYEAR, MAXYEAR.
  repeat (apply andb_true_intro; split); apply Z.leb_le; lia.
Qed.

Lemma toordinal_bounds (d : date) :
  Date.valid d = true -> 1 <= toordinal d <= MAXORDINAL.
Proof.
  intros Hv. apply valid_spec in Hv as (Hy & Hm & Hd).
  pose proof (ordinal_within_year _ _ _ Hm Hd) as Ho.
  pose proof (days_before_year_bounds (year d) Hy) as Hb.
  pose proof (days_before_year_mono (year d + 1) 10000 ltac:(lia)) as Hmono.
  assert (H2 : days_before_year 10000 = 3652059) by reflexivity.
  unfold toordinal, MAXORDINAL. lia.
Qed.

Lemma ord2ymd_toordinal (d : date) :
  Date.valid d = true -> ord2ymd (toordinal d) = d.
Proof.
  intros Hv. pose proof (valid_spec d Hv) as (_ & Hm & Hd).
  destruct (ord2ymd_shape (toordinal d)) as [Hm' Hd'].
  apply toordinal_inj; auto. apply toordinal_ord2ymd.
Qed.

Lemma add_days_cases (d : date) (n : Z) :
  (0 < toordinal d + n <= MAXORDINAL
   /\ Date.add_days d n = Ok (ord2ymd (toordinal d + n))
   /\ Date.valid (ord2ymd (toordinal d + n)) = true
   /\ toordinal (ord2ymd (toordinal d + n)) = toordinal d + n)
  \/ (~ 0 < toordinal d + n <= MAXORDINAL
      /\ Date.add_days d n = Raise OverflowError).
Proof.
  unfold Date.add_days.
  destruct (Z.ltb_spec 0 (toordinal d + n)),
           (Z.leb_spec (toordinal d + n) MAXORDINAL); cbn [andb];
    [left|right|right|right]; try (split; [lia|reflexivity]).
  split; [lia|]. split; [reflexivity|].
  split; [apply valid_ord2ymd; lia|apply toordinal_ord2ymd].
Qed.

(** ** The daily stepper *)

Lemma valid_ltb_ordinal (a b : date) :
  Date.valid a = true -> Date.valid b = true ->
  (Date.ltb a b = true <-> toordinal a < toordinal b).
Proof.
  intros Ha Hb.
  apply valid_spec in Ha as (_ & Hma & Hda).
  apply valid_spec in Hb as (_ & Hmb & Hdb).
  now apply toordinal_lex.
Qed.

Lemma steps_zero (gap step : Z) :
  1 <= step -> ((gap + step - 1) / step <= 0 <-> gap <= 0).
Proof.
  intros Hs. split; intros H.
  - destruct (Z_le_dec gap 0) as [|Hpos]; [assumption|exfalso].
    assert (1 <= (gap + step - 1) / step)
      by (apply Z.div_le_lower_bound; lia).
    lia.
  - assert ((gap + step - 1) / step < 1)
      by (apply Z.div_lt_upper_bound; lia).
    lia.
Qed.

Lemma steps_pred (gap step : Z) :
  1 <= step -> (gap - step + step - 1) / step = (gap + step - 1) / step - 1.
Proof.
  intros Hs.
  replace (gap - step + step - 1) with (gap + step - 1 + (-1) * step) by lia.
  rewrite Z.div_add by lia. lia.
Qed.

Section DailyFacts.
Context {Net : Type}.
Variable ccr : option string -> bool -> date -> date -> M (World Net) unit.
Variables (api_key : option string) (unload_data : bool) (end_period : date).
Variable step : Z.
Hypothesis end_valid : Date.valid end_period = true.
Hypothesis step_pos : 1 <= step.

Lemma daily_loop_plan (n : nat) :
  forall (fuel : nat) (cursor : date) (w : World Net),
    Date.valid cursor = true -> (n <= fuel)%nat ->
    n = Z.to_nat ((toordinal end_period - toordinal cursor + step - 1) / step) ->
    toordinal cursor + Z.of_nat n * step <= MAXORDINAL ->
    command_ccr_step_daily ccr fuel api_key unload_data cursor end_period
      step w
    = run_days ccr api_key unload_data (daily_plan_from n cursor step) w.
Proof.
  induction n as [|n IH]; intros fuel cursor w Hv Hfuel Hn Hmax.
  - assert (Hlt : Date.ltb cursor end_period = false).
    { destruct (Date.ltb cursor end_period) eqn:E; [|reflexivity].
      apply (valid_ltb_ordinal _ _ Hv end_valid) in E.
      pose proof (proj2 (steps_zero (toordinal end_period - toordinal cursor)
                           step step_pos)) as Hz.
      destruct (Z_le_dec ((toordinal end_period - toordinal cursor + step - 1)
                          / step) 0) as [Hq|Hq].
      - apply steps_zero in Hq; lia.
      - lia. }
    destruct fuel; simpl; rewrite Hlt; reflexivity.
  - assert (Hq : 1 <= (toordinal end_period - toordinal cursor + step - 1)
                      / step) by lia.
    assert (Hgap : 0 < toordinal end_period - toordinal cursor).
    { destruct (Z_le_dec (toordinal end_period - toordinal cursor) 0)
        as [Hle|]; [|lia].
      apply (steps_zero _ step step_pos) in Hle. lia. }
    assert (Hlt : Date.ltb cursor end_period = true)
      by (apply (valid_ltb_ordinal _ _ Hv end_valid); lia).
    destruct fuel as [|fuel]; [lia|].
    pose proof (toordinal_bounds cursor Hv) as Hb.
    destruct (add_days_cases cursor step)
      as [(Hr & Hadd & Hvn & Hon)|(Hr & _)]; [|exfalso; nia].
    cbn [command_ccr_step_daily daily_plan_from run_days]. rewrite Hlt, Hadd.
    unfold bind at 1, lift.
    apply bind_ext. intros _ w1. apply bind_ext. intros _ w2.
    apply IH; [exact Hvn|lia| |rewrite Hon; nia].
    rewrite Hon.
    replace (toordinal end_period - (toordinal cursor + step) + step - 1)
      with (toordinal end_period - toordinal cursor - step + step - 1) by lia.
    rewrite (steps_pred _ step step_pos). lia.
Qed.

Lemma daily_plan_periods (n : nat) :
  forall (cursor a b : date),
    Date.valid cursor = true ->
    n = Z.to_nat ((toordinal end_period - toordinal cursor + step - 1) / step) ->
    toordinal cursor + Z.of_nat n * step <= MAXORDINAL ->
    In (a, b) (daily_plan_from n cursor step) ->
    Date.valid a = true /\ Date.valid b = true
    /\ Date.add_days a step = Ok b
    /\ Date.sub b a = step
    /\ Date.ltb a b = true
    /\ Date.ltb a end_period = true.
Proof.
  induction n as [|n IH]; intros cursor a b Hv Hn Hmax Hin; [destruct Hin|].
  assert (Hgap : 0 < toordinal end_period - toordinal cursor).
  { destruct (Z_le_dec (toordinal end_period - toordinal cursor) 0)
      as [Hle|]; [|lia].
    apply (steps_zero _ step step_pos) in Hle. lia. }
  pose proof (toordinal_bounds cursor Hv) as Hb.
  destruct (add_days_cases cursor step)
    as [(Hr & Hadd & Hvn & Hon)|(Hr & _)]; [|exfalso; nia].
  destruct Hin as [Heq|Hin].
  - injection Heq as <- <-. repeat split; auto.
    + unfold Date.sub. lia.
    + apply (valid_ltb_ordinal _ _ Hv Hvn). lia.
    + apply (valid_ltb_ordinal _ _ Hv end_valid). lia.
  - apply (IH _ _ _ Hvn) in Hin; auto.
    + rewrite Hon.
      replace (toordinal end_period - (toordinal cursor + step) + step - 1)
        with (toordinal end_period - toordinal cursor - step + step - 1) by lia.
      rewrite (steps_pred _ step step_pos). lia.
    + rewrite Hon. nia.
Qed.

Lemma daily_plan_last (n : nat) :
  forall (cursor : date),
    Date.valid cursor = true ->
    S n = Z.to_nat ((toordinal end_period - toordinal cursor + step - 1)
                    / step) ->
    toordinal cursor + Z.of_nat (S n) * step <= MAXORDINAL ->
    exists a b, last (daily_plan_from (S n) cursor step) = Some (a, b)
                /\ Date.ltb b end_period = false.
Proof.
  induction n as [|n IH]; intros cursor Hv Hn Hmax.
  - pose proof (toordinal_bounds cursor Hv) as Hb.
    destruct (add_days_cases cursor step)
      as [(Hr & Hadd & Hvn & Hon)|(Hr & _)]; [|exfalso; lia].
    exists cursor, (ord2ymd (toordinal cursor + step)).
    split; [reflexivity|].
    destruct (Date.ltb _ end_period) eqn:E; [|reflexivity].
    apply (valid_ltb_ordinal _ _ Hvn end_valid) in E. rewrite Hon in E.
    assert (Hq : (toordinal end_period - toordinal cursor + step - 1) / step
                 <= 1) by lia.
    assert (2 <= (toordinal end_period - toordinal cursor + step - 1) / step)
      by (apply Z.div_le_lower_bound; lia).
    lia.
  - pose proof (toordinal_bounds cursor Hv) as Hb.
    destruct (add_days_cases cursor step)
      as [(Hr & Hadd & Hvn & Hon)|(Hr & _)]; [|exfalso; nia].
    destruct (IH (ord2ymd (toordinal cursor + step)) Hvn) as (a & b & Hl & Hge).
    + rewrite Hon.
      replace (toordinal end_period - (toordinal cursor + step) + step - 1)
        with (toordinal end_period - toordinal cursor - step + step - 1) by lia.
      rewrite (steps_pred _ step step_pos). lia.
    + rewrite Hon. nia.
    + exists a, b. split; [|exact Hge].
      change (daily_plan_from (S (S n)) cursor step)
        with ((cursor, ord2ymd (toordinal cursor + step))
                :: daily_plan_from (S n) (ord2ymd (toordinal cursor + step))
                     step).
      rewrite last_cons, Hl. reflexivity.
Qed.

End DailyFacts.

Lemma daily_plan_from_S (n : nat) (cursor : date) (step : Z) :
  daily_plan_from (S n) cursor step
  = (cursor, ord2ymd (toordinal cursor + step))
      :: daily_plan_from n (ord2ymd (toordinal cursor + step)) step.
Proof. reflexivity. Qed.

Lemma daily_plan_chain (n : nat) (step : Z) :
  forall (cursor : date) (i : nat) (p q : date * date),
    daily_plan_from n cursor step !! i = Some p ->
    daily_plan_from n cursor step !! S i = Some q ->
    fst q = snd p.
Proof.
  induction n as [|n IH]; intros cursor i p q Hp Hq; [discriminate|].
  rewrite daily_plan_from_S in Hp, Hq.
  generalize dependent (ord2ymd (toordinal cursor + step)). intros next Hp Hq.
  destruct i as [|i].
  - injection Hp as <-.
    destruct n as [|n]; [discriminate|].
    rewrite daily_plan_from_S in Hq.
    injection Hq as <-. reflexivity.
  - exact (IH _ _ _ _ Hp Hq).
Qed.

(** For valid dates [start_period < end_period], a step of at least one
    day, a last period that ends no later than 9999-12-31 and fuel for
    every step, the daily stepper visits, with any callee, exactly the
    periods of [daily_plan], in order: the first starts at [start_period];
    every period is [step] days long and starts before [end_period]; each
    starts where the previous one ended; the last one ends on or after
    [end_period], unclipped; and their number is the gap in days divided
    by [step], rounded up. *)
Theorem command_ccr_step_daily_plan {Net}
    (ccr : option string -> bool -> date -> date -> M (World Net) unit)
    (fuel : nat) (api_key : option string) (unload_data : bool)
    (start_period end_period : date) (step : Z) (w : World Net) :
  Date.valid start_period = true -> Date.valid end_period = true ->
  Date.ltb start_period end_period = true ->
  1 <= step ->
  toordinal start_period
  + Z.of_nat (days_to_visit start_period end_period step) * step
  <= MAXORDINAL ->
  (days_to_visit start_period end_period step <= fuel)%nat ->
  let plan := daily_plan start_period end_period step in
  command_ccr_step_daily ccr fuel api_key unload_data start_period end_period
    step w
  = run_days ccr api_key unload_data plan w
  /\ (exists b rest, plan = (start_period, b) :: rest)
  /\ (forall a b, In (a, b) plan ->
        Date.valid a = true /\ Date.valid b = true
        /\ Date.add_days a step = Ok b
        /\ Date.sub b a = step
        /\ Date.ltb a b = true
        /\ Date.ltb a end_period = true)
  /\ (forall i p q, plan !! i = Some p -> plan !! S i = Some q -> fst q = snd p)
  /\ (exists a b, last plan = Some (a, b) /\ Date.ltb b end_period = false)
  /\ Z.of_nat (length plan)
     = (toordinal end_period - toordinal start_period + step - 1) / step.
Proof.
  intros Hvs Hve Hlt Hstep Hmax Hfuel. cbv zeta. unfold daily_plan.
  assert (Hgap : 0 < toordinal end_period - toordinal start_period).
  { apply (valid_ltb_ordinal _ _ Hvs Hve) in Hlt. lia. }
  assert (Hq : 1 <= (toordinal end_period - toordinal start_period + step - 1)
                    / step)
    by (apply Z.div_le_lower_bound; lia).
  assert (Hn : Z.of_nat (days_to_visit start_period end_period step)
               = (toordinal end_period - toordinal start_period + step - 1)
                 / step)
    by (unfold days_to_visit; rewrite Z2Nat.id; lia).
  split; [|split; [|split; [|split; [|split]]]].
  - now apply daily_loop_plan.
  - destruct (days_to_visit start_period end_period step) as [|n] eqn:En;
      [lia|].
    rewrite daily_plan_from_S. eauto.
  - intros a b Hin.
    now apply (daily_plan_periods end_period step Hve Hstep
                 (days_to_visit start_period end_period step) start_period).
  - intros i p q. apply daily_plan_chain.
  - destruct (days_to_visit start_period end_period step) as [|n] eqn:En;
      [lia|].
    apply (daily_plan_last end_period step Hve Hstep n start_period Hvs);
      [now rewrite <- En|exact Hmax].
  - rewrite <- Hn. f_equal.
    generalize (days_to_visit start_period end_period step) as n.
    intros n. generalize start_period as c.
    induction n as [|n IH]; intros c; [reflexivity|].
    rewrite daily_plan_from_S. cbn [length]. now rewrite IH.
Qed.

Lemma command_ccr_step_daily_plan_witness :
  command_ccr_step_daily show_period 5 None false
    (ymd 2024 1 1) (ymd 2024 1 20) 7 example_world
  = run_days show_period None false
      [(ymd 2024 1 1, ymd 2024 1 8); (ymd 2024 1 8, ymd 2024 1 15);
       (ymd 2024 1 15, ymd 2024 1 22)] example_world.
Proof.
  refine (proj1 (command_ccr_step_daily_plan show_period 5 None false
                   (ymd 2024 1 1) (ymd 2024 1 20) 7 example_world
                   eq_refl eq_refl eq_refl _ _ _)).
  - lia.
  - vm_compute. discriminate.
  - vm_compute. lia.
Defined.

(** With a step of zero or fewer days, the daily stepper over the real
    [command_ccr] does not loop: its first period is empty or reversed,
    so the first call fails the opening assertion ([OverflowError] instead
    when the step leads before 0001-01-01), with nothing fetched, stored
    or printed. *)
Theorem command_ccr_step_daily_nonpositive_step
    `{Pydantic} `{Dtypes} {Net} `{Requests Net}
    (fuel fuel' : nat) (api_key : option string) (unload_data : bool)
    (start_period end_period : date) (step : Z) (w : World Net) :
  Date.valid start_period = true ->
  Date.ltb start_period end_period = true ->
  step <= 0 ->
  command_ccr_step_daily (command_ccr fuel') (S fuel) api_key unload_data
    start_period end_period step w
  = (Raise (if 0 <? toordinal start_period + step
            then AssertionError else OverflowError), w).
Proof.
  intros Hvs Hlt Hstep. cbn [command_ccr_step_daily]. rewrite Hlt.
  pose proof (toordinal_bounds start_period Hvs) as Hb.
  destruct (add_days_cases start_period step)
    as [(Hr & Hadd & Hvn & Hon)|(Hr & Hadd)]; rewrite Hadd.
  - replace (0 <? toordinal start_period + step) with true
      by (symmetry; apply Z.ltb_lt; lia).
    unfold bind at 1, lift. unfold bind at 1.
    rewrite command_ccr_cases.
    replace (Date.ltb start_period (ord2ymd (toordinal start_period + step)))
      with false; [reflexivity|].
    symmetry.
    destruct (Date.ltb start_period
                (ord2ymd (toordinal start_period + step))) eqn:E;
      [|reflexivity].
    apply (valid_ltb_ordinal _ _ Hvs Hvn) in E. lia.
  - replace (0 <? toordinal start_period + step) with false
      by (symmetry; apply Z.ltb_ge; lia).
    reflexivity.
Qed.

Lemma command_ccr_step_daily_nonpositive_step_witness :
  command_ccr_step_daily (@command_ccr strict_pydantic numpy unit offline 2) 1
    (Some "key"%string) true (ymd 2024 1 1) (ymd 2024 1 20) 0 example_world
  = (Raise AssertionError, example_world).
Proof.
  refine (@command_ccr_step_daily_nonpositive_step strict_pydantic numpy unit
            offline 0 2 (Some "key"%string) true (ymd 2024 1 1)
            (ymd 2024 1 20) 0 example_world eq_refl eq_refl _).
  lia.
Defined.

(** ** Months as periods of [command_ccr] *)

(** A calendar month handed over by the monthly stepper passes the
    opening assertion of [command_ccr], and its look-back window starts
    as many days before the month as the month itself has: it is the
    previous calendar month only when that one has the same length. *)
Theorem monthly_period_lookback (a d : date) :
  month_start a -> ~ (year a = 9999 /\ month a = 12) ->
  Date.sub_days a (Date.sub (next_month a) a) = Ok d ->
  Date.ltb a (next_month a) = true
  /\ toordinal a - toordinal d = days_in_month (year a) (month a)
  /\ to_dtime (D a) - to_dtime (D d)
     = days_in_month (year a) (month a) * US_PER_DAY.
Proof.
  intros Hs Hlast Hd. split; [|split].
  - apply ltb_lex. unfold next_month.
    destruct (Z.eqb_spec (month a) 12); cbn [year month day]; lia.
  - apply sub_days_ordinal in Hd. rewrite (sub_next_month a Hs) in Hd. lia.
  - apply sub_days_ordinal in Hd. rewrite (sub_next_month a Hs) in Hd.
    unfold to_dtime, combine_midnight. lia.
Qed.

Lemma monthly_period_lookback_witness :
  Date.ltb (ymd 2024 3 1) (next_month (ymd 2024 3 1)) = true
  /\ toordinal (ymd 2024 3 1) - toordinal (ymd 2024 1 30) = 31
  /\ to_dtime (D (ymd 2024 3 1)) - to_dtime (D (ymd 2024 1 30))
     = 31 * US_PER_DAY.
Proof.
  refine (monthly_period_lookback (ymd 2024 3 1) (ymd 2024 1 30) _ _ eq_refl).
  - unfold month_start. cbn. lia.
  - cbn. lia.
Defined.

(** ** The monthly stepper: failures *)

Lemma bind_assoc {S A B C} (c : M S A) (k : A -> M S B) (k' : B -> M S C)
    (s : S) :
  bind (bind c k) k' s = bind c (fun a => bind (k a) k') s.
Proof. unfold bind. destruct (c s) as [[a|e|] s']; reflexivity. Qed.

Lemma run_periods_app {Net}
    (ccr : option string -> bool -> date -> date -> M (World Net) unit)
    (api_key : option string) (unload_data : bool)
    (pre post : list (date * date)) (w : World Net) :
  run_periods ccr api_key unload_data (pre ++ post) w
  = bind (run_periods ccr api_key unload_data pre)
      (fun _ => run_periods ccr api_key unload_data post) w.
Proof.
  revert w. induction pre as [|[a b] pre IH]; intros w; [reflexivity|].
  cbn [app run_periods].
  rewrite bind_assoc. apply bind_ext. intros _ s1.
  rewrite bind_assoc. apply bind_ext. intros _ s2.
  rewrite bind_assoc. apply bind_ext. intros _ s3.
  apply IH.
Qed.

(** The monthly stepper stops at the first month whose [command_ccr]
    call fails: once the months before it have been visited, the
    exception of that call is the result of the stepper, raised from the
    state that call left, and no later month is visited. *)
Theorem command_ccr_step_monthly_stops_at_failure {Net}
    (ccr : option string -> bool -> date -> date -> M (World Net) unit)
    (fuel : nat) (api_key : option string) (unload_data : bool)
    (start_period end_period : date) (w w1 w2 : World Net)
    (pre post : list (date * date)) (a b : date) (e : exn) :
  Date.valid start_period = true -> Date.valid end_period = true ->
  Date.ltb start_period end_period = true ->
  Date.ltb {| year := 9999; month := 12; day := 1 |} end_period = false ->
  (months_to_visit start_period end_period <= fuel)%nat ->
  monthly_plan start_period end_period = pre ++ (a, b) :: post ->
  run_periods ccr api_key unload_data pre w = (Ok tt, w1) ->
  ccr api_key unload_data a b
    (with_stdout w1 (stdout w1 ++ [MonthLine (month a) (year a)]))
  = (Raise e, w2) ->
  command_ccr_step_monthly ccr fuel api_key unload_data start_period
    end_period w
  = (Raise e, w2).
Proof.
  intros Hvs Hve Hlt Hmax Hfuel Hplan Hpre Hfail.
  pose proof (monthly_bound _ _ Hvs Hve Hlt Hmax) as Hb. cbv zeta in Hb.
  pose proof (valid_spec _ Hvs) as (Hys & Hms & Hds).
  pose proof (valid_spec _ Hve) as (Hye & Hme & Hde).
  assert (Hfirst : month_start (Date.replace_day1 start_period)).
  { unfold month_start, Date.replace_day1. cbn [year month day]. lia. }
  assert (Hidx : month_index (Date.replace_day1 start_period)
                 = month_index start_period) by reflexivity.
  unfold command_ccr_step_monthly.
  rewrite (monthly_loop_plan ccr api_key unload_data end_period Hme _ eq_refl
             (months_to_visit start_period end_period));
    auto; try lia.
  fold (monthly_plan start_period end_period). rewrite Hplan.
  rewrite run_periods_app. unfold bind at 1. rewrite Hpre.
  cbn [run_periods]. unfold bind at 1. rewrite print_run.
  unfold bind at 1. rewrite Hfail. reflexivity.
Qed.

Lemma command_ccr_step_monthly_stops_at_failure_witness :
  command_ccr_step_monthly
    (fun _ _ a b =>
       if month a =? 2 then raise (Exception "no data")
       else print (PeriodLine a b))
    5 None false (ymd 2024 1 15) (ymd 2024 4 1) example_world
  = (Raise (Exception "no data"),
     with_stdout example_world
       [MonthLine 1 2024; PeriodLine (ymd 2024 1 1) (ymd 2024 2 1); Blank;
        MonthLine 2 2024]).
Proof.
  refine (command_ccr_step_monthly_stops_at_failure
            (fun _ _ a b =>
               if month a =? 2 then raise (Exception "no data")
               else print (PeriodLine a b))
            5 None false (ymd 2024 1 15) (ymd 2024 4 1) example_world
            (with_stdout example_world
               [MonthLine 1 2024; PeriodLine (ymd 2024 1 1) (ymd 2024 2 1);
                Blank])
            _
            [(ymd 2024 1 1, ymd 2024 2 1)]
            [(ymd 2024 3 1, ymd 2024 4 1)]
            (ymd 2024 2 1) (ymd 2024 3 1) (Exception "no data")
            eq_refl eq_refl eq_refl eq_refl _ eq_refl eq_refl eq_refl).
  vm_compute. lia.
Defined.

(** A monthly walk that starts in December 9999 cannot compute the end
    of its first period: the stepper raises [OverflowError] before it
    prints or calls anything. *)
Theorem command_ccr_step_monthly_december_9999 {Net}
    (ccr : option string -> bool -> date -> date -> M (World Net) unit)
    (fuel : nat) (api_key : option string) (unload_data : bool)
    (start_period end_period : date) (w : World Net) :
  year start_period = 9999 -> month start_period = 12 ->
  Date.ltb (Date.replace_day1 start_period) end_period = true ->
  command_ccr_step_monthly ccr (S fuel) api_key unload_data start_period
    end_period w
  = (Raise OverflowError, w).
Proof.
  intros Hy Hm Hlt. unfold command_ccr_step_monthly.
  cbn [monthly_loop]. rewrite Hlt.
  rewrite add_days_month_start_overflow; [reflexivity| | |].
  - unfold month_start, Date.replace_day1. cbn [year month day]. lia.
  - exact Hy.
  - exact Hm.
Qed.

Lemma command_ccr_step_monthly_december_9999_witness :
  command_ccr_step_monthly show_period 3 None false
    (ymd 9999 12 5) (ymd 9999 12 20) example_world
  = (Raise OverflowError, example_world).
Proof.
  exact (command_ccr_step_monthly_december_9999 show_period 2 None false
           (ymd 9999 12 5) (ymd 9999 12 20) example_world
           eq_refl eq_refl eq_refl).
Defined.

Lemma df_store_idempotent_distinct_keys_witness :
  exists df,
    df_store (DT := numpy)
      [{| ClientInfo.id := 1; ClientInfo.activated_at := 5 |};
       {| ClientInfo.id := 2; ClientInfo.activated_at := 7 |}] Absent
    = (Ok df, Holds (int64_schema ClCols.t) df)
    /\ df_store (DT := numpy)
         [{| ClientInfo.id := 1; ClientInfo.activated_at := 5 |};
          {| ClientInfo.id := 2; ClientInfo.activated_at := 7 |}]
         (Holds (int64_schema ClCols.t) df)
       = (Ok df, Holds (int64_schema ClCols.t) df).
Proof.
  apply (@df_store_idempotent_distinct_keys _ _ _ _ numpy
           [{| ClientInfo.id := 1; ClientInfo.activated_at := 5 |};
            {| ClientInfo.id := 2; ClientInfo.activated_at := 7 |}]).
  - discriminate.
  - reflexivity.
  - simpl. repeat constructor; simpl; intuition lia.
Defined.
